(** * ExtFormer-MoE ENSO driver: a shallow embedding and its properties

    The development follows [examples/extformer_moe/extformer_moe_enso_train.py].
    The driver has two kinds of code:

    - pure code over Python values (strings, lists, dictionaries, the
      module tree of a [paddle.nn.Layer]): [get_parameter_names], the
      optimizer parameter groups, the dataloader dictionaries;
    - a straight-line sequence of calls into the framework ([ppsci],
      [paddle], [omegaconf]), whose behaviour the file does not define.

    Pure code is embedded as Rocq functions.  The sequence of calls is
    embedded as a program of a small free monad ([Prog]) over the alphabet of
    framework calls ([Call]); a run of a program is taken under an arbitrary
    behaviour of the framework ([Framework]), which decides for each call
    whether it raises, what data it returns and what state it leaves.  A call
    that never returns has no run; the properties below are about the steps a
    run has taken, and about runs that complete.

    The file has two parts: the definitions (Python values, the module tree,
    [get_parameter_names], the configuration, the calls, programs and runs,
    the driver, the readings of a log, a framework to run the driver on), and
    then the properties. *)

From Stdlib Require Import String Ascii List ZArith Lia Bool Permutation.
From Stdlib Require Import SpecFloat.
From Stdlib Require DecimalString.
Import ListNotations.

#[local] Set Warnings "-register-all".
#[local] Open Scope string_scope.
#[local] Open Scope list_scope.

(* ===================================================================== *)
(** ** Python builtins used by the driver *)
(* ===================================================================== *)

Module Py.

(** [sub in s] on [str]: [sub] occurs as a contiguous substring of [s]. *)
Fixpoint str_contains (sub s : string) : bool :=
  if String.prefix sub s then true
  else match s with
       | EmptyString => false
       | String _ s' => str_contains sub s'
       end.

(** [x in l] on a list of [str]. *)
Definition list_contains (x : string) (l : list string) : bool :=
  existsb (String.eqb x) l.

(** [x in s] on a set of object identities. *)
Definition id_in (x : nat) (s : list nat) : bool := existsb (Nat.eqb x) s.

(** [str(i)] / [f"{i}"] for an [int]. *)
Definition str_of_int (z : Z) : string := DecimalString.NilZero.string_of_int (Z.to_int z).

(** Truthiness of a [str]: the empty string is falsy. *)
Definition str_truthy (s : string) : bool :=
  match s with EmptyString => false | _ => true end.

(** [s.startswith(p)] and [s.endswith(p)] for the one-character [p]
    that [posixpath.join] asks about. *)
Definition startswith_sep (s : string) : bool := String.prefix "/" s.

Fixpoint endswith_sep (s : string) : bool :=
  match s with
  | EmptyString => false
  | String c EmptyString => Ascii.eqb c "/"%char
  | String _ s' => endswith_sep s'
  end.

(** [os.path.join(a, *p)] as [posixpath] defines it (the separator is ["/"]). *)
Fixpoint os_path_join_from (path : string) (p : list string) : string :=
  match p with
  | [] => path
  | b :: rest =>
      if startswith_sep b then os_path_join_from b rest
      else if negb (str_truthy path) || endswith_sep path
           then os_path_join_from (path ++ b) rest
           else os_path_join_from (path ++ "/" ++ b) rest
  end.

Definition os_path_join (a : string) (p : list string) : string :=
  os_path_join_from a p.

(** *** IEEE-754 binary64, the Python [float] *)

Definition prec : Z := 53.
Definition emax : Z := 1024.

Definition float := spec_float.

(** [float(i)] for an [int]: round to nearest even; an [int] beyond the
    range of [float] raises [OverflowError]. *)
Definition float_of_int (z : Z) : option float :=
  match binary_normalize prec emax z 0 false with
  | S754_infinity _ => None
  | f => Some f
  end.

Definition float_mul (x y : float) : float := SFmul prec emax x y.

(** [int(x)] for a [float]: truncation toward zero; infinities and NaN
    raise. *)
Definition int_of_float (x : float) : option Z :=
  match x with
  | S754_zero _ => Some 0%Z
  | S754_finite s m e =>
      let mag := if (0 <=? e)%Z then (Z.pos m * 2 ^ e)%Z
                 else (Z.pos m / 2 ^ (- e))%Z in
      Some (if s then (- mag)%Z else mag)
  | S754_infinity _ | S754_nan => None
  end.

(** The literal [0.2]: the binary64 number nearest to 1/5,
    [0x1.999999999999ap-3]. *)
Definition lit_0_2 : float := S754_finite false 7205759403792794 (-55).

(** The literal [0.0]. *)
Definition lit_0_0 : float := S754_zero false.

(** Python values that the driver only passes along. *)
Inductive value : Type :=
| VNone
| VBool (b : bool)
| VInt (z : Z)
| VFloat (f : float)
| VStr (s : string)
| VList (l : list value)
| VDict (d : list (string * value)).

(** A [dict] with [str] keys, in insertion order. *)
Definition dict := list (string * value).

(** [d[k]], [None] standing for [KeyError]. *)
Fixpoint dict_get (k : string) (d : dict) : option value :=
  match d with
  | [] => None
  | (k', v) :: rest => if String.eqb k k' then Some v else dict_get k rest
  end.

Definition dict_keys (d : dict) : list string := map fst d.

(** [d[k1][k2]] through a nested dictionary. *)
Definition dict_get2 (k1 k2 : string) (d : dict) : option value :=
  match dict_get k1 d with
  | Some (VDict d') => dict_get k2 d'
  | _ => None
  end.

End Py.

(* ===================================================================== *)
(** ** The module tree of a [paddle.nn.Layer] *)
(* ===================================================================== *)

Module Paddle.

(** A parameter tensor, known by its object identity. *)
Definition Param := nat.

(** The driver reads a model through three methods of [paddle.nn.Layer],
    [named_children], [named_parameters] and the dictionary [_parameters], and
    through [isinstance].  What follows is the part of [Layer] that these
    need, after the definitions of the library.

    A layer object: its identity, the names of the classes in the method
    resolution order of its type (on which [isinstance] decides), and its
    two ordered dictionaries.  Both dictionaries may hold [None]. *)
Inductive Layer : Type := mkLayer {
  layer_id : nat;
  layer_mro : list string;
  _parameters : list (string * option Param);
  _sub_layers : list (string * option Layer) }.

(** [isinstance(obj, tuple(types))]: some class of [types] is in the method
    resolution order of the type of [obj]; the empty tuple gives [False]. *)
Definition isinstance (obj : Layer) (types : list string) : bool :=
  existsb (fun t => Py.list_contains t (layer_mro obj)) types.

(** The loop of [Layer.named_children]: sub-layers in dictionary order,
    without [None] and without a layer object already yielded. *)
Fixpoint children_from (items : list (string * option Layer)) (memo : list nat)
  : list (string * Layer) :=
  match items with
  | [] => []
  | (_, None) :: rest => children_from rest memo
  | (name, Some layer) :: rest =>
      if Py.id_in (layer_id layer) memo then children_from rest memo
      else (name, layer) :: children_from rest (layer_id layer :: memo)
  end.

Definition named_children (self : Layer) : list (string * Layer) :=
  children_from (_sub_layers self) [].

(** [prefix + ('.' if prefix else '') + key] *)
Definition join_prefix (prefix key : string) : string :=
  (prefix ++ (if Py.str_truthy prefix then "." else "") ++ key)%string.

(** [Layer.named_sublayers(prefix, include_self=True, layers_set)]: the layer
    itself unless it was seen, then every sub-layer that is not [None],
    depth first, the set of seen layers threaded through.  The result pairs
    what is yielded with the set afterwards. *)
Fixpoint named_sublayers (prefix : string) (self : Layer) (layers_set : list nat)
  : list (string * Layer) * list nat :=
  let here :=
    if Py.id_in (layer_id self) layers_set then ([], layers_set)
    else ([(prefix, self)], layer_id self :: layers_set) in
  let fix over (items : list (string * option Layer)) (layers_set : list nat)
    : list (string * Layer) * list nat :=
    match items with
    | [] => ([], layers_set)
    | (_, None) :: rest => over rest layers_set
    | (key, Some layer) :: rest =>
        let '(out1, set1) := named_sublayers (join_prefix prefix key) layer layers_set in
        let '(out2, set2) := over rest set1 in
        (out1 ++ out2, set2)
    end in
  let '(out, set') := over (_sub_layers self) (snd here) in
  (fst here ++ out, set').

(** The inner loop of [Layer.named_parameters] over the [_parameters] of one
    layer: entries that are [None] or already yielded are skipped. *)
Fixpoint parameters_from (layer_prefix : string) (items : list (string * option Param))
  (params_set : list Param) : list (string * Param) * list Param :=
  match items with
  | [] => ([], params_set)
  | (_, None) :: rest => parameters_from layer_prefix rest params_set
  | (key, Some param) :: rest =>
      if Py.id_in param params_set then parameters_from layer_prefix rest params_set
      else
        let '(out, set') := parameters_from layer_prefix rest (param :: params_set) in
        ((join_prefix layer_prefix key, param) :: out, set')
  end.

(** The outer loop of [Layer.named_parameters] over the sub-layers. *)
Fixpoint parameters_of_layers (layers : list (string * Layer)) (params_set : list Param)
  : list (string * Param) * list Param :=
  match layers with
  | [] => ([], params_set)
  | (layer_prefix, sublayer) :: rest =>
      let '(out1, set1) := parameters_from layer_prefix (_parameters sublayer) params_set in
      let '(out2, set2) := parameters_of_layers rest set1 in
      (out1 ++ out2, set2)
  end.

(** [self.named_parameters()] *)
Definition named_parameters (self : Layer) : list (string * Param) :=
  fst (parameters_of_layers (fst (named_sublayers "" self [])) []).

(** Induction over the module tree. *)
Section Layer_induction.
Variable P : Layer -> Prop.
Hypothesis step : forall id mro ps subs,
  Forall (fun kv => match snd kv with Some c => P c | None => True end) subs ->
  P (mkLayer id mro ps subs).

Fixpoint Layer_tree_ind (l : Layer) : P l :=
  match l with
  | mkLayer id mro ps subs =>
      step id mro ps subs
        ((fix go (subs : list (string * option Layer)) :=
            match subs return
              Forall (fun kv => match snd kv with Some c => P c | None => True end) subs
            with
            | [] => Forall_nil _
            | (k, o) :: rest =>
                Forall_cons (k, o)
                  (match o return match o with Some c => P c | None => True end with
                   | Some c => Layer_tree_ind c
                   | None => I
                   end)
                  (go rest)
            end) subs)
  end.
End Layer_induction.

End Paddle.

Import Paddle.

(* ===================================================================== *)
(** ** [get_parameter_names] *)
(* ===================================================================== *)

(** The comprehension of the loop body:
    [[f"{name}.{n}" for n in names if not isinstance(child, tuple(forbidden_layer_types))]] *)
Definition qualified_below (name : string) (child : Layer)
  (forbidden_layer_types : list string) (names : list string) : list string :=
  map (fun n => (name ++ "." ++ n)%string)
      (filter (fun _ => negb (isinstance child forbidden_layer_types)) names).

(** [get_parameter_names(model, forbidden_layer_types)].  The loop runs over
    [model.named_children()]; the recursion is written over [_sub_layers] with
    the test of [named_children] in place, so that it is structural
    ([get_parameter_names_unfold] below gives it the shape of the source). *)
Fixpoint get_parameter_names (model : Layer) (forbidden_layer_types : list string)
  : list string :=
  (fix loop (items : list (string * option Layer)) (memo : list nat) : list string :=
     match items with
     | [] => []
     | (_, None) :: rest => loop rest memo
     | (name, Some child) :: rest =>
         if Py.id_in (layer_id child) memo then loop rest memo
         else
           qualified_below name child forbidden_layer_types
             (get_parameter_names child forbidden_layer_types)
           ++ loop rest (layer_id child :: memo)
     end) (_sub_layers model) []
  ++ map fst (_parameters model).

(** [model._sub_layers[key]], when the entry exists and is not [None]. *)
Fixpoint sub_layer_in (key : string) (items : list (string * option Layer)) : option Layer :=
  match items with
  | [] => None
  | (k, o) :: rest => if String.eqb key k then o else sub_layer_in key rest
  end.

Definition sub_layer (key : string) (model : Layer) : option Layer :=
  sub_layer_in key (_sub_layers model).

(** The layers met from [model] along a path of sub-layer names,
    [model._sub_layers[k1]._sub_layers[k2]...], the model itself left out. *)
Fixpoint descend (model : Layer) (path : list string) : option (list Layer) :=
  match path with
  | [] => Some []
  | key :: rest =>
      match sub_layer key model with
      | Some child => option_map (cons child) (descend child rest)
      | None => None
      end
  end.

(** The name under which [named_parameters] lists the entry [key] of the layer
    at [path]: the prefix grows by [join_prefix] on the way down. *)
Definition parameter_name (path : list string) (key : string) : string :=
  join_prefix (fold_left join_prefix path "") key.

(** Names as Python code gives them to sub-layers and parameters: no dot
    inside, and a sub-layer name is not empty. *)
Definition dot_free (s : string) : bool := negb (Py.str_contains "." s).

Fixpoint distinct (l : list string) : bool :=
  match l with
  | [] => true
  | x :: rest => negb (Py.list_contains x rest) && distinct rest
  end.

(** The module tree is well named: the keys of every [_sub_layers] dictionary
    are distinct (it is a dictionary), not empty and dot free, and the keys of
    every [_parameters] are dot free. *)
Fixpoint well_named (model : Layer) : bool :=
  forallb (fun kv => dot_free (fst kv)) (_parameters model)
  && distinct (map fst (_sub_layers model))
  && (fix all (items : list (string * option Layer)) : bool :=
        match items with
        | [] => true
        | (k, o) :: rest =>
            Py.str_truthy k && dot_free k
            && match o with Some child => well_named child | None => true end
            && all rest
        end) (_sub_layers model).

(** *** The claim about [get_parameter_names], in its own words

    A parameter slot is a key of the [_parameters] of a layer together with
    the chain of children ([named_children]) that leads to the layer. *)
Definition Slot : Type := list (string * Layer) * string.

Fixpoint parameter_slots (model : Layer) : list Slot :=
  (fix loop (items : list (string * option Layer)) (memo : list nat) : list Slot :=
     match items with
     | [] => []
     | (_, None) :: rest => loop rest memo
     | (name, Some child) :: rest =>
         if Py.id_in (layer_id child) memo then loop rest memo
         else
           map (fun s : Slot => ((name, child) :: fst s, snd s)) (parameter_slots child)
           ++ loop rest (layer_id child :: memo)
     end) (_sub_layers model) []
  ++ map (fun key => ([], key)) (map fst (_parameters model)).

(** The qualified name of a slot: the names of the chain and the key, joined
    by dots. *)
Definition qualified_name (s : Slot) : string :=
  fold_right (fun step acc => (fst step ++ "." ++ acc)%string) (snd s) (fst s).

(** The slot is reached through a child whose type is an instance of one of
    the forbidden types. *)
Definition through_forbidden (forbidden_layer_types : list string) (s : Slot) : bool :=
  existsb (fun step => isinstance (snd step) forbidden_layer_types) (fst s).

Definition names_not_through_forbidden (model : Layer) (forbidden_layer_types : list string)
  : list string :=
  map qualified_name
      (filter (fun s => negb (through_forbidden forbidden_layer_types s))
              (parameter_slots model)).

(* ===================================================================== *)
(** ** The configuration *)
(* ===================================================================== *)

(** The configuration follows the schema of the YAML file: a field that the
    driver inspects has the type the inspection needs, a field it passes along
    is a [Py.value]. *)

Module MODEL.
Record t := {
  input_keys : Py.value;
  (** the other entries of the node, for [**cfg.MODEL] *)
  others : Py.dict }.
(** [**cfg.MODEL] *)
Definition items (m : t) : Py.dict := ("input_keys", input_keys m) :: others m.
End MODEL.

Module DATASET.
Record t := {
  label_keys : Py.value;
  in_len : Py.value;
  out_len : Py.value;
  in_stride : Py.value;
  out_stride : Py.value;
  train_samples_gap : Py.value;
  eval_samples_gap : Py.value;
  normalize_sst : Py.value }.
End DATASET.

Module LR.
Record t := {
  learning_rate : Py.float;
  (** the other entries of the node, for [dict(cfg.TRAIN.lr_scheduler)] *)
  others : Py.dict }.
(** [dict(cfg.TRAIN.lr_scheduler)] *)
Definition items (l : t) : Py.dict :=
  ("learning_rate", Py.VFloat (learning_rate l)) :: others l.
End LR.

Module TRAIN.
Record t := {
  batch_size : Py.value;
  wd : Py.value;
  lr_scheduler : LR.t;
  min_lr_ratio : Py.float;
  epochs : Z;
  update_freq : Py.value;
  eval_during_train : Py.value }.
End TRAIN.

Module EVAL.
Record t := {
  batch_size : Py.value;
  pretrained_model_path : Py.value;
  compute_metric_by_batch : Py.value;
  eval_with_no_grad : Py.value }.
End EVAL.

Module RNC.
Record t := {
  use_rnc : bool;
  rnc_pretrain : bool;
  load_rnc_pretrain_params : bool;
  pretrain_update_freq : Py.value;
  others : Py.dict }.
End RNC.

Record Config := {
  FILE_PATH : Py.value;
  MODEL : MODEL.t;
  DATASET : DATASET.t;
  TRAIN : TRAIN.t;
  EVAL : EVAL.t;
  MOE : Py.value;
  RNC : RNC.t;
  output_dir : string;
  seed : Py.value;
  log_freq : Py.value;
  DEVICE : Z;
  mode : string }.

(** A configuration node handed to [OmegaConf.to_object]. *)
Inductive CfgNode : Type :=
| NodeMOE (node : Py.value)
| NodeRNC (node : RNC.t).

(* ===================================================================== *)
(** ** Calls into the framework *)
(* ===================================================================== *)

(** An object of the framework, known by its identity. *)
Record Obj := mkObj { obj_id : nat }.

(** The functions of [examples.extformer_moe.enso_metric] that the driver
    names. *)
Inductive FuncRef : Type :=
| train_extformer_moe_func
| eval_rmse_func
| rnc_pretrain_func
| eval_rnc_pretrain_func.

(** One group of [optimizer_grouped_parameters]. *)
Record ParamGroup := {
  params : list Param;
  weight_decay : Py.value }.

(** The arguments of [ppsci.solver.Solver(...)]; [None] is an argument the
    call does not pass. *)
Record SolverArgs := {
  sa_model : Layer;
  sa_constraint : option (list (string * Obj));
  sa_output_dir : string;
  sa_optimizer : option Obj;
  sa_lr_scheduler : option Obj;
  sa_epochs : option Z;
  sa_iters_per_epoch : option Z;
  sa_update_freq : option Py.value;
  sa_eval_during_train : option Py.value;
  sa_log_freq : option Py.value;
  sa_seed : Py.value;
  sa_device : string;
  sa_validator : list (string * Obj);
  sa_pretrained_model_path : option Py.value;
  sa_compute_metric_by_batch : Py.value;
  sa_eval_with_no_grad : Py.value }.

(** The alphabet of calls.  [enso_metric_call] is a direct evaluation of a
    loss or metric function; it is in the alphabet so that a frame property
    can say the driver makes none. *)
Inductive Call : Type :=
| FunctionalLoss (f : FuncRef)
| FunctionalMetric (f : FuncRef)
| SupervisedConstraint (dataloader_cfg : Py.dict) (loss : Obj) (name : string)
| SupervisedValidator (dataloader_cfg : Py.dict) (loss : Obj)
    (metric : list (string * Obj)) (name : string)
| get_name (o : Obj)
| len_data_loader (o : Obj)
| OmegaConf_to_object (node : CfgNode)
| ExtFormerMoECuboid (kwargs : Py.dict)
| Cosine (kwargs : Py.dict)
| Cosine_call (o : Obj)
| AdamW (learning_rate : Obj) (parameters : list ParamGroup)
| print (s : string)
| Solver (args : SolverArgs)
| Solver_train (o : Obj)
| Solver_eval (o : Obj)
| set_device (device : string)
| enso_metric_call (f : FuncRef) (args : list Py.value).

(** What a call gives back. *)
Inductive Kind : Type := KObj | KStr | KInt | KVal | KLayer | KUnit.

Definition kind (c : Call) : Kind :=
  match c with
  | FunctionalLoss _ | FunctionalMetric _ | SupervisedConstraint _ _ _
  | SupervisedValidator _ _ _ _ | Cosine _ | Cosine_call _ | AdamW _ _ | Solver _ => KObj
  | get_name _ => KStr
  | len_data_loader _ => KInt
  | OmegaConf_to_object _ | enso_metric_call _ _ => KVal
  | ExtFormerMoECuboid _ => KLayer
  | print _ | Solver_train _ | Solver_eval _ | set_device _ => KUnit
  end.

(** The value the driver receives. *)
Definition ret (k : Kind) : Type :=
  match k with
  | KObj => Obj
  | KStr => string
  | KInt => Z
  | KVal => Py.value
  | KLayer => Layer
  | KUnit => unit
  end.

(** The part of it that the framework decides: everything but the identity of
    a new object, which is fresh. *)
Definition data (k : Kind) : Type :=
  match k with
  | KObj => unit
  | KStr => string
  | KInt => Z
  | KVal => Py.value
  | KLayer => Layer
  | KUnit => unit
  end.

Definition complete (k : Kind) (fresh : nat) : data k -> ret k :=
  match k with
  | KObj => fun _ => mkObj fresh
  | KStr => fun s => s
  | KInt => fun z => z
  | KVal => fun v => v
  | KLayer => fun l => l
  | KUnit => fun u => u
  end.

(** An exception: its class and its message. *)
Record Exn := mkExn { exn_class : string; exn_msg : string }.

(** *** Programs *)

(** A program is a tree of calls; the driver's own statements with an effect
    are the attribute assignments on the model ([SetAttr]) and [raise]. *)
Inductive Prog (A : Type) : Type :=
| Ret (a : A)
| Raise (e : Exn)
| Ext (c : Call) (k : ret (kind c) -> Prog A)
| SetAttr (target : Layer) (attr : string) (v : Py.value) (k : Prog A).

Arguments Ret {A} a.
Arguments Raise {A} e.
Arguments Ext {A} c k.
Arguments SetAttr {A} target attr v k.

Fixpoint bind {A B : Type} (p : Prog A) (f : A -> Prog B) : Prog B :=
  match p with
  | Ret a => f a
  | Raise e => Raise e
  | Ext c k => Ext c (fun r => bind (k r) f)
  | SetAttr target attr v k => SetAttr target attr v (bind k f)
  end.

Definition call (c : Call) : Prog (ret (kind c)) := Ext c (fun r => Ret r).

Definition setattr (target : Layer) (attr : string) (v : Py.value) : Prog unit :=
  SetAttr target attr v (Ret tt).

Declare Scope prog_scope.
Delimit Scope prog_scope with prog.
Notation "x <- c ;; k" := (bind c (fun x => k))
  (at level 61, c at next level, right associativity) : prog_scope.
Notation "c ;; k" := (bind c (fun _ => k))
  (at level 61, right associativity) : prog_scope.
#[local] Open Scope prog_scope.

(** *** Runs *)

(** The state the calls act on.  Of the model the run tracks the values of
    the parameters and the plain attributes, both by object identity. *)
Record World := {
  param_values : Param -> Py.value;
  attributes : nat -> string -> option Py.value }.

Definition set_attribute (target : Layer) (attr : string) (v : Py.value) (w : World) : World :=
  {| param_values := param_values w;
     attributes := fun id a =>
       if Nat.eqb id (layer_id target) && String.eqb a attr then Some v
       else attributes w id a |}.

(** What happened at one step of a run. *)
Inductive Action : Type :=
| Do (c : Call)
| Assign (target : Layer) (attr : string) (v : Py.value).

Inductive Result : Type :=
| Raised (e : Exn)
| GaveObj (o : Obj)
| GaveStr (s : string)
| GaveInt (z : Z)
| GaveVal (v : Py.value)
| GaveLayer (l : Layer)
| Done.

Definition result_of (k : Kind) : ret k -> Result :=
  match k with
  | KObj => GaveObj
  | KStr => GaveStr
  | KInt => GaveInt
  | KVal => GaveVal
  | KLayer => GaveLayer
  | KUnit => fun _ => Done
  end.

Record Entry := {
  action : Action;
  result : Result;
  before : World;
  after : World }.

(** The framework: for a call, given what happened so far and the state, it
    raises or returns, and leaves a state. *)
Definition Framework : Type :=
  forall c : Call, list Entry -> World -> (Exn + data (kind c)) * World.

(** The outcome of a run: the steps taken, the final state, and the exception
    that ended the run or the value returned. *)
Record Outcome (A : Type) := {
  log : list Entry;
  final : World;
  value : Exn + A }.

Arguments log {A} o.
Arguments final {A} o.
Arguments value {A} o.

(** [run fw p hist w] runs [p] after the steps [hist] in the state [w]; the
    log of the outcome is [hist] followed by the steps of [p].  The identity of
    a new object is the number of steps taken before it. *)
Fixpoint run {A : Type} (fw : Framework) (p : Prog A) (hist : list Entry) (w : World)
  : Outcome A :=
  match p with
  | Ret a => {| log := hist; final := w; value := inr a |}
  | Raise e => {| log := hist; final := w; value := inl e |}
  | Ext c k =>
      match fw c hist w with
      | (inl e, w') =>
          {| log := hist ++ [ {| action := Do c; result := Raised e;
                                 before := w; after := w' |} ];
             final := w'; value := inl e |}
      | (inr d, w') =>
          let r := complete (kind c) (length hist) d in
          run fw (k r)
              (hist ++ [ {| action := Do c; result := result_of (kind c) r;
                            before := w; after := w' |} ])
              w'
      end
  | SetAttr target attr v k =>
      let w' := set_attribute target attr v w in
      run fw k
          (hist ++ [ {| action := Assign target attr v; result := Done;
                        before := w; after := w' |} ])
          w'
  end.

Definition exec {A : Type} (fw : Framework) (p : Prog A) (w : World) : Outcome A :=
  run fw p [] w.

Definition completes {A : Type} (o : Outcome A) : Prop :=
  exists a, value o = inr a.

(* ===================================================================== *)
(** ** The driver *)
(* ===================================================================== *)

Definition nn_LayerNorm : string := "paddle.nn.LayerNorm".

(** The eleven entries that every ["dataset"] dictionary of the file starts
    with. *)
Definition dataset_entries (cfg : Config) : Py.dict :=
  [ ("name", Py.VStr "ExtMoEENSODataset");
    ("data_dir", FILE_PATH cfg);
    ("input_keys", MODEL.input_keys (MODEL cfg));
    ("label_keys", DATASET.label_keys (DATASET cfg));
    ("in_len", DATASET.in_len (DATASET cfg));
    ("out_len", DATASET.out_len (DATASET cfg));
    ("in_stride", DATASET.in_stride (DATASET cfg));
    ("out_stride", DATASET.out_stride (DATASET cfg));
    ("train_samples_gap", DATASET.train_samples_gap (DATASET cfg));
    ("eval_samples_gap", DATASET.eval_samples_gap (DATASET cfg));
    ("normalize_sst", DATASET.normalize_sst (DATASET cfg)) ].

Definition batch_sampler : Py.value :=
  Py.VDict [ ("name", Py.VStr "BatchSampler");
             ("drop_last", Py.VBool true);
             ("shuffle", Py.VBool true) ].

(** [train_dataloader_cfg] of [train] *)
Definition train_dataloader_cfg (cfg : Config) : Py.dict :=
  [ ("dataset", Py.VDict (dataset_entries cfg));
    ("sampler", batch_sampler);
    ("batch_size", TRAIN.batch_size (TRAIN cfg));
    ("num_workers", Py.VInt 8) ].

(** [eval_dataloader_cfg] of [train] *)
Definition eval_dataloader_cfg (cfg : Config) : Py.dict :=
  [ ("dataset", Py.VDict (dataset_entries cfg ++ [("training", Py.VStr "eval")]));
    ("batch_size", EVAL.batch_size (EVAL cfg)) ].

(** [rnc_eval_dataloader_cfg] of [train] *)
Definition rnc_eval_dataloader_cfg (cfg : Config) : Py.dict :=
  [ ("dataset", Py.VDict (dataset_entries cfg ++ [("training", Py.VStr "eval")]));
    ("sampler", batch_sampler);
    ("batch_size", TRAIN.batch_size (TRAIN cfg)) ].

(** [eval_dataloader_cfg] of [evaluate] *)
Definition test_dataloader_cfg (cfg : Config) : Py.dict :=
  [ ("dataset", Py.VDict (dataset_entries cfg ++ [("training", Py.VStr "test")]));
    ("batch_size", EVAL.batch_size (EVAL cfg)) ].

(** [f'gpu:{cfg.DEVICE}' if cfg.DEVICE != -1 else 'cpu'] *)
Definition device_of (cfg : Config) : string :=
  if negb (DEVICE cfg =? -1)%Z then ("gpu:" ++ Py.str_of_int (DEVICE cfg))%string
  else "cpu".

(** [decay_parameters] of [train], after the second assignment. *)
Definition decay_parameters (model : Layer) : list string :=
  filter (fun name => negb (Py.str_contains "bias" name))
         (get_parameter_names model [nn_LayerNorm]).

(** [optimizer_grouped_parameters] of [train] *)
Definition optimizer_grouped_parameters (model : Layer) (wd : Py.value) : list ParamGroup :=
  let decay_parameters := decay_parameters model in
  [ {| params :=
         map snd (filter (fun np => Py.list_contains (fst np) decay_parameters)
                         (named_parameters model));
       weight_decay := wd |};
    {| params :=
         map snd (filter (fun np => negb (Py.list_contains (fst np) decay_parameters))
                         (named_parameters model));
       weight_decay := Py.VFloat Py.lit_0_0 |} ].

(** A call [f( **d, k1=.., k2=..)] raises [TypeError] when [d] has one of the
    explicit keywords. *)
Definition repeated_keyword (d : Py.dict) (explicit : list string) : bool :=
  existsb (fun k => Py.list_contains k (Py.dict_keys d)) explicit.

Definition TypeError_repeated_keyword : Exn :=
  mkExn "TypeError" "got multiple values for keyword argument".

Definition OverflowError_float : Exn :=
  mkExn "OverflowError" "int too large to convert to float".

Definition OverflowError_int : Exn :=
  mkExn "OverflowError" "cannot convert float infinity to integer".

(** [int(0.2 * epochs)] for an [int] [epochs]. *)
Definition warmup_epoch_of (epochs : Z) : Exn + Z :=
  match Py.float_of_int epochs with
  | None => inl OverflowError_float
  | Some e =>
      match Py.int_of_float (Py.float_mul Py.lit_0_2 e) with
      | None => inl OverflowError_int
      | Some n => inr n
      end
  end.

Definition lift {A : Type} (r : Exn + A) : Prog A :=
  match r with
  | inl e => Raise e
  | inr a => Ret a
  end.

(** [ppsci.arch.ExtFormerMoECuboid( **cfg.MODEL, moe_config=.., rnc_config=..)] *)
Definition new_model (cfg : Config) (moe_config rnc_config : Py.value) : Prog Layer :=
  if repeated_keyword (MODEL.items (MODEL cfg)) ["moe_config"; "rnc_config"]
  then Raise TypeError_repeated_keyword
  else call (ExtFormerMoECuboid
               (MODEL.items (MODEL cfg)
                ++ [("moe_config", moe_config); ("rnc_config", rnc_config)])).

(** The keyword arguments of [ppsci.optimizer.lr_scheduler.Cosine(...)] *)
Definition cosine_kwargs (cfg : Config) (ITERS_PER_EPOCH warmup_epoch : Z) : Py.dict :=
  LR.items (TRAIN.lr_scheduler (TRAIN cfg))
  ++ [ ("iters_per_epoch", Py.VInt ITERS_PER_EPOCH);
       ("eta_min",
        Py.VFloat (Py.float_mul (TRAIN.min_lr_ratio (TRAIN cfg))
                                (LR.learning_rate (TRAIN.lr_scheduler (TRAIN cfg)))));
       ("warmup_epoch", Py.VInt warmup_epoch) ].

Definition rnc_solver_args (cfg : Config) (model : Layer) (rnc_constraint : list (string * Obj))
  (optimizer lr_scheduler : Obj) (ITERS_PER_EPOCH : Z) (rnc_validator : list (string * Obj))
  : SolverArgs :=
  {| sa_model := model;
     sa_constraint := Some rnc_constraint;
     sa_output_dir := Py.os_path_join (output_dir cfg) ["rnc_pretrain"];
     sa_optimizer := Some optimizer;
     sa_lr_scheduler := Some lr_scheduler;
     sa_epochs := Some (TRAIN.epochs (TRAIN cfg));
     sa_iters_per_epoch := Some ITERS_PER_EPOCH;
     sa_update_freq := Some (RNC.pretrain_update_freq (RNC cfg));
     sa_eval_during_train := Some (TRAIN.eval_during_train (TRAIN cfg));
     sa_log_freq := None;
     sa_seed := seed cfg;
     sa_device := device_of cfg;
     sa_validator := rnc_validator;
     sa_pretrained_model_path := None;
     sa_compute_metric_by_batch := EVAL.compute_metric_by_batch (EVAL cfg);
     sa_eval_with_no_grad := EVAL.eval_with_no_grad (EVAL cfg) |}.

Definition main_solver_args (cfg : Config) (model : Layer) (constraint : list (string * Obj))
  (optimizer lr_scheduler : Obj) (ITERS_PER_EPOCH : Z) (validator : list (string * Obj))
  (pretrained_model_path : Py.value) : SolverArgs :=
  {| sa_model := model;
     sa_constraint := Some constraint;
     sa_output_dir := output_dir cfg;
     sa_optimizer := Some optimizer;
     sa_lr_scheduler := Some lr_scheduler;
     sa_epochs := Some (TRAIN.epochs (TRAIN cfg));
     sa_iters_per_epoch := Some ITERS_PER_EPOCH;
     sa_update_freq := Some (TRAIN.update_freq (TRAIN cfg));
     sa_eval_during_train := Some (TRAIN.eval_during_train (TRAIN cfg));
     sa_log_freq := None;
     sa_seed := seed cfg;
     sa_device := device_of cfg;
     sa_validator := validator;
     sa_pretrained_model_path := Some pretrained_model_path;
     sa_compute_metric_by_batch := EVAL.compute_metric_by_batch (EVAL cfg);
     sa_eval_with_no_grad := EVAL.eval_with_no_grad (EVAL cfg) |}.

Definition eval_solver_args (cfg : Config) (model : Layer) (validator : list (string * Obj))
  : SolverArgs :=
  {| sa_model := model;
     sa_constraint := None;
     sa_output_dir := output_dir cfg;
     sa_optimizer := None;
     sa_lr_scheduler := None;
     sa_epochs := None;
     sa_iters_per_epoch := None;
     sa_update_freq := None;
     sa_eval_during_train := None;
     sa_log_freq := Some (log_freq cfg);
     sa_seed := seed cfg;
     sa_device := device_of cfg;
     sa_validator := validator;
     sa_pretrained_model_path := Some (EVAL.pretrained_model_path (EVAL cfg));
     sa_compute_metric_by_batch := EVAL.compute_metric_by_batch (EVAL cfg);
     sa_eval_with_no_grad := EVAL.eval_with_no_grad (EVAL cfg) |}.

(** The path of the RNC checkpoint,
    [os.path.join(cfg.output_dir, "rnc_pretrain", "checkpoints") + "/best_model.pdparams"] *)
Definition rnc_checkpoint (cfg : Config) : string :=
  (Py.os_path_join (output_dir cfg) ["rnc_pretrain"; "checkpoints"]
   ++ "/best_model.pdparams")%string.

(** The body of [if not cfg.RNC.load_rnc_pretrain_params:] in [train]. *)
Definition rnc_pretrain_stage (cfg : Config) (model : Layer) (optimizer lr_scheduler : Obj)
  (ITERS_PER_EPOCH : Z) : Prog unit :=
  call (print "============= RNC PRETRAIN =============") ;;
  setattr model "rnc_pretrain_flag" (Py.VBool true) ;;
  loss <- call (FunctionalLoss rnc_pretrain_func) ;;
  rnc_sup_constraint <- call (SupervisedConstraint (train_dataloader_cfg cfg) loss "RNCSup") ;;
  rnc_sup_constraint_name <- call (get_name rnc_sup_constraint) ;;
  let rnc_constraint := [(rnc_sup_constraint_name, rnc_sup_constraint)] in
  loss <- call (FunctionalLoss rnc_pretrain_func) ;;
  rnc_loss <- call (FunctionalMetric eval_rnc_pretrain_func) ;;
  rnc_sup_validator <-
    call (SupervisedValidator (rnc_eval_dataloader_cfg cfg) loss
            [("rnc_loss", rnc_loss)] "RNCSup_Validator") ;;
  rnc_sup_validator_name <- call (get_name rnc_sup_validator) ;;
  let rnc_validator := [(rnc_sup_validator_name, rnc_sup_validator)] in
  rnc_solver <-
    call (Solver (rnc_solver_args cfg model rnc_constraint optimizer lr_scheduler
                    ITERS_PER_EPOCH rnc_validator)) ;;
  call (Solver_train rnc_solver) ;;
  call (Solver_eval rnc_solver) ;;
  call (print "============= RNC PRETRAIN END =============").

(** [train(cfg)] *)
Definition train (cfg : Config) : Prog unit :=
  (* set constraint *)
  loss <- call (FunctionalLoss train_extformer_moe_func) ;;
  sup_constraint <- call (SupervisedConstraint (train_dataloader_cfg cfg) loss "Sup") ;;
  sup_constraint_name <- call (get_name sup_constraint) ;;
  let constraint := [(sup_constraint_name, sup_constraint)] in
  (* set iters_per_epoch by dataloader length *)
  ITERS_PER_EPOCH <- call (len_data_loader sup_constraint) ;;
  loss <- call (FunctionalLoss train_extformer_moe_func) ;;
  rmse <- call (FunctionalMetric eval_rmse_func) ;;
  sup_validator <-
    call (SupervisedValidator (eval_dataloader_cfg cfg) loss [("rmse", rmse)]
            "Sup_Validator") ;;
  sup_validator_name <- call (get_name sup_validator) ;;
  let validator := [(sup_validator_name, sup_validator)] in
  moe_config <- call (OmegaConf_to_object (NodeMOE (MOE cfg))) ;;
  rnc_config <- call (OmegaConf_to_object (NodeRNC (RNC cfg))) ;;
  model <- new_model cfg moe_config rnc_config ;;
  let optimizer_grouped_parameters :=
    optimizer_grouped_parameters model (TRAIN.wd (TRAIN cfg)) in
  (* init optimizer and lr scheduler *)
  warmup_epoch <- lift (warmup_epoch_of (TRAIN.epochs (TRAIN cfg))) ;;
  cosine <-
    (if repeated_keyword (LR.items (TRAIN.lr_scheduler (TRAIN cfg)))
          ["iters_per_epoch"; "eta_min"; "warmup_epoch"]
     then Raise TypeError_repeated_keyword
     else call (Cosine (cosine_kwargs cfg ITERS_PER_EPOCH warmup_epoch))) ;;
  lr_scheduler <- call (Cosine_call cosine) ;;
  optimizer <- call (AdamW lr_scheduler optimizer_grouped_parameters) ;;
  pretrained_model_path <-
    (if RNC.use_rnc (RNC cfg) && RNC.rnc_pretrain (RNC cfg) then
       (if negb (RNC.load_rnc_pretrain_params (RNC cfg))
        then rnc_pretrain_stage cfg model optimizer lr_scheduler ITERS_PER_EPOCH
        else Ret tt) ;;
       call (print "============= LOAD RNC PRETRAIN PARAMs =============") ;;
       let pretrained_model_path := Py.VStr (rnc_checkpoint cfg) in
       call (print "====================================================") ;;
       Ret pretrained_model_path
     else Ret Py.VNone) ;;
  (* initialize solver *)
  setattr model "rnc_pretrain_flag" (Py.VBool false) ;;
  solver <-
    call (Solver (main_solver_args cfg model constraint optimizer lr_scheduler
                    ITERS_PER_EPOCH validator pretrained_model_path)) ;;
  (* train model *)
  call (Solver_train solver) ;;
  (* evaluate after finished training *)
  call (Solver_eval solver).

(** [evaluate(cfg)] *)
Definition evaluate (cfg : Config) : Prog unit :=
  loss <- call (FunctionalLoss train_extformer_moe_func) ;;
  rmse <- call (FunctionalMetric eval_rmse_func) ;;
  sup_validator <-
    call (SupervisedValidator (test_dataloader_cfg cfg) loss [("rmse", rmse)]
            "Sup_Validator") ;;
  sup_validator_name <- call (get_name sup_validator) ;;
  let validator := [(sup_validator_name, sup_validator)] in
  moe_config <- call (OmegaConf_to_object (NodeMOE (MOE cfg))) ;;
  rnc_config <- call (OmegaConf_to_object (NodeRNC (RNC cfg))) ;;
  model <- new_model cfg moe_config rnc_config ;;
  (* initialize solver *)
  solver <- call (Solver (eval_solver_args cfg model validator)) ;;
  (* evaluate *)
  call (Solver_eval solver).

Definition ValueError_mode (cfg : Config) : Exn :=
  mkExn "ValueError"
        ("cfg.mode should in ['train', 'eval'], but got '" ++ mode cfg ++ "'").

(** [main(cfg)] *)
Definition main (cfg : Config) : Prog unit :=
  call (set_device (device_of cfg)) ;;
  if String.eqb (mode cfg) "train" then train cfg
  else if String.eqb (mode cfg) "eval" then evaluate cfg
  else Raise (ValueError_mode cfg).


(* ===================================================================== *)
(** ** Reading a log *)
(* ===================================================================== *)

(** The call of the entry returned. *)
Definition returned (e : Entry) : bool :=
  match result e with
  | Raised _ => false
  | _ => true
  end.

(** What a log says about solvers: a solver was built, its construction
    raised, its [train()] or its [eval()] was called (and returned, or not). *)
Inductive SolverStep : Type :=
| Built (s : Obj) (args : SolverArgs)
| BuildFailed (args : SolverArgs)
| Trained (s : Obj) (ok : bool)
| Evaluated (s : Obj) (ok : bool).

Definition solver_step (e : Entry) : option SolverStep :=
  match action e with
  | Do (Solver args) =>
      match result e with
      | GaveObj s => Some (Built s args)
      | _ => Some (BuildFailed args)
      end
  | Do (Solver_train s) => Some (Trained s (returned e))
  | Do (Solver_eval s) => Some (Evaluated s (returned e))
  | _ => None
  end.

Fixpoint solver_steps (l : list Entry) : list SolverStep :=
  match l with
  | [] => []
  | e :: rest =>
      match solver_step e with
      | Some st => st :: solver_steps rest
      | None => solver_steps rest
      end
  end.

(** The method calls on the solver object [s]. *)
Definition method_on (s : Obj) (st : SolverStep) : bool :=
  match st with
  | Trained s' _ | Evaluated s' _ => Nat.eqb (obj_id s') (obj_id s)
  | _ => false
  end.

(** The solver of the pretraining stage, and the solver of the main task, by
    the arguments of their construction. *)
Definition is_rnc_solver_args (cfg : Config) (args : SolverArgs) : Prop :=
  exists model rnc_constraint optimizer lr_scheduler ITERS_PER_EPOCH rnc_validator,
    args = rnc_solver_args cfg model rnc_constraint optimizer lr_scheduler
             ITERS_PER_EPOCH rnc_validator.

Definition is_main_solver_args (cfg : Config) (args : SolverArgs) : Prop :=
  exists model constraint optimizer lr_scheduler ITERS_PER_EPOCH validator pretrained_model_path,
    args = main_solver_args cfg model constraint optimizer lr_scheduler
             ITERS_PER_EPOCH validator pretrained_model_path.

(** The name of what a step calls, as the source writes it. *)
Definition action_name (e : Entry) : string :=
  match action e with
  | Do (FunctionalLoss _) => "ppsci.loss.FunctionalLoss"
  | Do (FunctionalMetric _) => "ppsci.metric.FunctionalMetric"
  | Do (SupervisedConstraint _ _ _) => "ppsci.constraint.SupervisedConstraint"
  | Do (SupervisedValidator _ _ _ _) => "ppsci.validate.SupervisedValidator"
  | Do (get_name _) => ".name"
  | Do (len_data_loader _) => "len(.data_loader)"
  | Do (OmegaConf_to_object _) => "OmegaConf.to_object"
  | Do (ExtFormerMoECuboid _) => "ppsci.arch.ExtFormerMoECuboid"
  | Do (Cosine _) => "ppsci.optimizer.lr_scheduler.Cosine"
  | Do (Cosine_call _) => "Cosine.__call__"
  | Do (AdamW _ _) => "paddle.optimizer.AdamW"
  | Do (print _) => "print"
  | Do (Solver _) => "ppsci.solver.Solver"
  | Do (Solver_train _) => ".train"
  | Do (Solver_eval _) => ".eval"
  | Do (set_device _) => "paddle.device.set_device"
  | Do (enso_metric_call _ _) => "enso_metric"
  | Assign _ attr _ => ("model." ++ attr ++ " =")%string
  end.

(** What a step did and what came of it, without the states. *)
Definition summary (e : Entry) : Action * Result := (action e, result e).

(** Each step of a log starts in the state the step before it left. *)
Fixpoint chained (w : World) (l : list Entry) : Prop :=
  match l with
  | [] => True
  | e :: rest => before e = w /\ chained (after e) rest
  end.

(** The state a log ends in. *)
Fixpoint ends (w : World) (l : list Entry) : World :=
  match l with
  | [] => w
  | e :: rest => ends (after e) rest
  end.

(** The step constructs a solver or calls one. *)
Definition is_solver_action (e : Entry) : bool :=
  match action e with
  | Do (Solver _) | Do (Solver_train _) | Do (Solver_eval _) => true
  | _ => false
  end.

(** The dataloader dictionary that a constraint or a validator is built from
    in [train]: every constraint from [train_dataloader_cfg], the validator
    ["Sup_Validator"] from [eval_dataloader_cfg], and the validator of the
    pretraining stage from [rnc_eval_dataloader_cfg]. *)
Definition dataloader_cfg_ok (cfg : Config) (e : Entry) : Prop :=
  match action e with
  | Do (SupervisedConstraint d _ _) => d = train_dataloader_cfg cfg
  | Do (SupervisedValidator d _ _ name) =>
      (name = "Sup_Validator" /\ d = eval_dataloader_cfg cfg)
      \/ (name = "RNCSup_Validator" /\ d = rnc_eval_dataloader_cfg cfg)
  | _ => True
  end.

(** What [evaluate] may do: no constraint, no optimizer, no learning-rate
    schedule, no [train()]; a validator on the ["test"] split; a solver without
    constraint and optimizer. *)
Definition evaluation_only (cfg : Config) (e : Entry) : Prop :=
  match action e with
  | Do (SupervisedConstraint _ _ _) | Do (Cosine _) | Do (Cosine_call _) | Do (AdamW _ _)
  | Do (Solver_train _) | Do (enso_metric_call _ _) | Assign _ _ _ => False
  | Do (SupervisedValidator d _ _ _) =>
      d = test_dataloader_cfg cfg
      /\ Py.dict_get2 "dataset" "training" d = Some (Py.VStr "test")
  | Do (Solver args) =>
      sa_constraint args = None /\ sa_optimizer args = None
      /\ sa_lr_scheduler args = None /\ sa_epochs args = None
  | Do _ => True
  end.

(** The driver's own part in a step: a call is the framework's; an assignment
    is the driver's, and it is an assignment of a [bool] to the attribute
    [rnc_pretrain_flag] of the model the run constructed that leaves every
    parameter value as it was. *)
Definition is_model_of (l : list Entry) (target : Layer) : Prop :=
  exists e kwargs, In e l /\ action e = Do (ExtFormerMoECuboid kwargs)
                   /\ result e = GaveLayer target.

Definition own_write_ok (l : list Entry) (e : Entry) : Prop :=
  match action e with
  | Assign target attr v =>
      attr = "rnc_pretrain_flag"
      /\ (exists b, v = Py.VBool b)
      /\ is_model_of l target
      /\ param_values (after e) = param_values (before e)
      /\ after e = set_attribute target attr v (before e)
  | Do (enso_metric_call _ _) => False
  | Do _ => True
  end.

(** A call of [train()] or [eval()] on a solver. *)
Definition is_train_or_eval (c : Call) : bool :=
  match c with
  | Solver_train _ | Solver_eval _ => true
  | _ => false
  end.

(** The step is a call of [train()] or [eval()] on a solver, or it leaves the
    value of every parameter as it was. *)
Definition parameters_kept (e : Entry) : Prop :=
  match action e with
  | Do c =>
      if is_train_or_eval c then True
      else param_values (after e) = param_values (before e)
  | Assign _ _ _ => param_values (after e) = param_values (before e)
  end.

(** The object [o] is what the call at step [obj_id o] of the log built. *)
Definition built_by (l : list Entry) (o : Obj) : option Call :=
  match nth_error l (obj_id o) with
  | Some e =>
      match action e, result e with
      | Do c, GaveObj o' => if Nat.eqb (obj_id o') (obj_id o) then Some c else None
      | _, _ => None
      end
  | None => None
  end.

(** A loss handed to a constraint or a validator is a [FunctionalLoss]
    wrapper, a metric a [FunctionalMetric] wrapper. *)
Definition is_loss_wrapper (l : list Entry) (o : Obj) : Prop :=
  exists f, built_by l o = Some (FunctionalLoss f).

Definition is_metric_wrapper (l : list Entry) (o : Obj) : Prop :=
  exists f, built_by l o = Some (FunctionalMetric f).

Definition wrappers_ok (l : list Entry) (e : Entry) : Prop :=
  match action e with
  | Do (SupervisedConstraint _ loss _) => is_loss_wrapper l loss
  | Do (SupervisedValidator _ loss metric _) =>
      is_loss_wrapper l loss /\ Forall (fun m => is_metric_wrapper l (snd m)) metric
  | _ => True
  end.

(* ===================================================================== *)
(** ** A framework and a configuration to run the driver on *)
(* ===================================================================== *)

Module Demo.

(** A module tree: a block with a layer norm and a linear layer, a head that
    shares the linear layer, and a final layer norm. *)
Definition norm : Layer :=
  mkLayer 1 ["paddle.nn.LayerNorm"; "paddle.nn.Layer"; "object"]
          [("weight", Some 10); ("bias", Some 11)] [].

Definition fc : Layer :=
  mkLayer 2 ["paddle.nn.Linear"; "paddle.nn.Layer"; "object"]
          [("weight", Some 12); ("bias", Some 13)] [].

Definition block : Layer :=
  mkLayer 3 ["Block"; "paddle.nn.Layer"; "object"]
          [("scale", Some 14)]
          [("norm", Some norm); ("fc", Some fc); ("skip", None)].

Definition out_norm : Layer :=
  mkLayer 5 ["paddle.nn.LayerNorm"; "paddle.nn.Layer"; "object"]
          [("weight", Some 16); ("bias", Some 17)] [].

Definition model : Layer :=
  mkLayer 4 ["ExtFormerMoECuboid"; "paddle.nn.Layer"; "object"]
          [("pos_embed", Some 15); ("unused", None)]
          [("block", Some block); ("head", Some fc); ("out_norm", Some out_norm)].

(** A module tree that is not well named: the sub-layer ["a.b"] is a layer
    norm, and its weight has the qualified name of the weight of the linear
    layer ["b"] below ["a"]. *)
Definition ill_named : Layer :=
  mkLayer 4 ["Net"; "paddle.nn.Layer"; "object"] []
          [("a", Some (mkLayer 3 ["Block"; "paddle.nn.Layer"; "object"] []
                         [("b", Some (mkLayer 2 ["paddle.nn.Linear"; "paddle.nn.Layer"; "object"]
                                        [("w", Some 12)] []))]));
           ("a.b", Some (mkLayer 1 ["paddle.nn.LayerNorm"; "paddle.nn.Layer"; "object"]
                           [("w", Some 10)] []))].

(** A framework that never raises: an object remembers the name it was built
    with, a data loader has [100] batches, [to_object] gives [None], and the
    model is [model]. *)
Definition name_of (hist : list Entry) (o : Obj) : string :=
  match nth_error hist (obj_id o) with
  | Some e =>
      match action e with
      | Do (SupervisedConstraint _ _ name) => name
      | Do (SupervisedValidator _ _ _ name) => name
      | _ => ""
      end
  | None => ""
  end.

Definition answer (hist : list Entry) (c : Call) : data (kind c) :=
  match c return data (kind c) with
  | FunctionalLoss _ => tt
  | FunctionalMetric _ => tt
  | SupervisedConstraint _ _ _ => tt
  | SupervisedValidator _ _ _ _ => tt
  | get_name o => name_of hist o
  | len_data_loader _ => 100%Z
  | OmegaConf_to_object _ => Py.VNone
  | ExtFormerMoECuboid _ => model
  | Cosine _ => tt
  | Cosine_call _ => tt
  | AdamW _ _ => tt
  | print _ => tt
  | Solver _ => tt
  | Solver_train _ => tt
  | Solver_eval _ => tt
  | set_device _ => tt
  | enso_metric_call _ _ => Py.VNone
  end.

Definition quiet : Framework := fun c hist w => (inr (answer hist c), w).

(** The same framework, but the call at step [n] raises. *)
Definition failing_at (n : nat) : Framework := fun c hist w =>
  if Nat.eqb (length hist) n then (inl (mkExn "RuntimeError" ""), w)
  else (inr (answer hist c), w).

Definition world : World :=
  {| param_values := fun _ => Py.VNone;
     attributes := fun _ _ => None |}.

(** A configuration with both RNC flags set, as
    [extformer_moe_enso_pretrain.yaml] would give it. *)
Definition config (use_rnc rnc_pretrain load_rnc_pretrain_params : bool) (mode : string)
  (DEVICE : Z) : Config :=
  {| FILE_PATH := Py.VStr "./datasets/enso/enso_round1_train_20210201";
     MODEL := {| MODEL.input_keys := Py.VList [Py.VStr "sst_data"];
                 MODEL.others := [("output_keys", Py.VList [Py.VStr "sst_target"])] |};
     DATASET := {| DATASET.label_keys := Py.VList [Py.VStr "sst_target"];
                   DATASET.in_len := Py.VInt 12;
                   DATASET.out_len := Py.VInt 14;
                   DATASET.in_stride := Py.VInt 1;
                   DATASET.out_stride := Py.VInt 1;
                   DATASET.train_samples_gap := Py.VInt 10;
                   DATASET.eval_samples_gap := Py.VInt 11;
                   DATASET.normalize_sst := Py.VBool true |};
     TRAIN := {| TRAIN.batch_size := Py.VInt 16;
                 TRAIN.wd := Py.VFloat Py.lit_0_2;
                 TRAIN.lr_scheduler :=
                   {| LR.learning_rate := Py.lit_0_2;
                      LR.others := [("by_epoch", Py.VBool true)] |};
                 TRAIN.min_lr_ratio := Py.lit_0_2;
                 TRAIN.epochs := 100;
                 TRAIN.update_freq := Py.VInt 1;
                 TRAIN.eval_during_train := Py.VBool true |};
     EVAL := {| EVAL.batch_size := Py.VInt 1;
                EVAL.pretrained_model_path := Py.VStr "./checkpoint/enso/extformer_moe.pdparams";
                EVAL.compute_metric_by_batch := Py.VBool false;
                EVAL.eval_with_no_grad := Py.VBool true |};
     MOE := Py.VDict [("use_moe", Py.VBool true)];
     RNC := {| RNC.use_rnc := use_rnc;
               RNC.rnc_pretrain := rnc_pretrain;
               RNC.load_rnc_pretrain_params := load_rnc_pretrain_params;
               RNC.pretrain_update_freq := Py.VInt 2;
               RNC.others := [] |};
     output_dir := "./output";
     seed := Py.VInt 0;
     log_freq := Py.VInt 20;
     DEVICE := DEVICE;
     mode := mode |}.

End Demo.
From Stdlib Require DecimalZ DecimalPos.


(* ===================================================================== *)
(** ** More readings of the module tree and of a log *)
(* ===================================================================== *)

(** The layer objects of a module tree: the layer itself and, depth first,
    the layers below its sub-layers that are not [None]. *)
Fixpoint all_layers (model : Layer) : list Layer :=
  model ::
  (fix over (items : list (string * option Layer)) : list Layer :=
     match items with
     | [] => []
     | (_, None) :: rest => over rest
     | (_, Some child) :: rest => all_layers child ++ over rest
     end) (_sub_layers model).

(** An identity is the identity of one object: two layers of the tree with the
    same [layer_id] are the same layer. *)
Definition coherent (model : Layer) : Prop :=
  forall l1 l2,
    In l1 (all_layers model) -> In l2 (all_layers model) ->
    layer_id l1 = layer_id l2 -> l1 = l2.

(** A chain of children from a layer down: each step is yielded by
    [named_children] of the layer before it. *)
Fixpoint chain_from (model : Layer) (chain : list (string * Layer)) : Prop :=
  match chain with
  | [] => True
  | (name, child) :: rest => In (name, child) (named_children model) /\ chain_from child rest
  end.

(** The loop of [named_sublayers] over the sub-layers, and the loop of
    [all_layers], as functions of their own. *)
Fixpoint sublayers_over (prefix : string) (items : list (string * option Layer))
  (layers_set : list nat) : list (string * Layer) * list nat :=
  match items with
  | [] => ([], layers_set)
  | (_, None) :: rest => sublayers_over prefix rest layers_set
  | (key, Some layer) :: rest =>
      let '(out1, set1) := named_sublayers (join_prefix prefix key) layer layers_set in
      let '(out2, set2) := sublayers_over prefix rest set1 in
      (out1 ++ out2, set2)
  end.

Fixpoint layers_over (items : list (string * option Layer)) : list Layer :=
  match items with
  | [] => []
  | (_, None) :: rest => layers_over rest
  | (_, Some child) :: rest => all_layers child ++ layers_over rest
  end.

(** [int(0.2 * epochs)] is the quotient of [epochs] by 5, rounded toward
    zero. *)
Definition warmup_is_fifth (epochs : Z) : bool :=
  match warmup_epoch_of epochs with
  | inr n => (n =? Z.quot epochs 5)%Z
  | inl _ => false
  end.

(** ... for [z], [z + 1], ... and their opposites, [fuel] numbers in all. *)
Fixpoint warmup_is_fifth_from (fuel : nat) (z : Z) : bool :=
  match fuel with
  | O => true
  | S k => warmup_is_fifth z && warmup_is_fifth (- z) && warmup_is_fifth_from k (z + 1)
  end.

(** The solver steps of a log, each with the last assignment to
    [rnc_pretrain_flag] made before it: the layer assigned to and the value. *)
Fixpoint steps_with_flag (flag : option (Layer * Py.value)) (l : list Entry)
  : list (option (Layer * Py.value) * SolverStep) :=
  match l with
  | [] => []
  | e :: rest =>
      match action e with
      | Assign target attr v =>
          if String.eqb attr "rnc_pretrain_flag" then steps_with_flag (Some (target, v)) rest
          else steps_with_flag flag rest
      | Do _ =>
          match solver_step e with
          | Some st => (flag, st) :: steps_with_flag flag rest
          | None => steps_with_flag flag rest
          end
      end
  end.

(** At a step of the RNC solver the flag of its model is [True], at a step of
    the main solver the flag of its model is [False]. *)
Definition flag_fits_args (cfg : Config) (flag : option (Layer * Py.value))
  (args : SolverArgs) : Prop :=
  (is_rnc_solver_args cfg args -> flag = Some (sa_model args, Py.VBool true))
  /\ (is_main_solver_args cfg args -> flag = Some (sa_model args, Py.VBool false)).

Definition flag_fits (cfg : Config) (steps : list SolverStep)
  (fs : option (Layer * Py.value) * SolverStep) : Prop :=
  match snd fs with
  | Built _ args | BuildFailed args => flag_fits_args cfg (fst fs) args
  | Trained s _ | Evaluated s _ =>
      exists args, In (Built s args) steps /\ flag_fits_args cfg (fst fs) args
  end.

(** The step builds the model, the learning-rate schedule or the optimizer. *)
Definition builds_model (e : Entry) : bool :=
  match action e with Do (ExtFormerMoECuboid _) => true | _ => false end.

Definition builds_schedule (e : Entry) : bool :=
  match action e with Do (Cosine _) | Do (Cosine_call _) => true | _ => false end.

Definition builds_optimizer (e : Entry) : bool :=
  match action e with Do (AdamW _ _) => true | _ => false end.

(** The step is a call of the framework that builds something from the
    configuration of the model: the model, a schedule, an optimizer or a
    solver, or calls a solver. *)
Definition after_model_kwargs (e : Entry) : bool :=
  builds_model e || builds_schedule e || builds_optimizer e || is_solver_action e.

(** The exception that the driver raises by itself, when the framework raises
    nowhere: from the call of the model with a keyword given twice, from
    [int(0.2 * cfg.TRAIN.epochs)], from the call of [Cosine] with a keyword
    given twice, and from the last branch of [main]. *)
Definition train_error (cfg : Config) : option Exn :=
  if repeated_keyword (MODEL.items (MODEL cfg)) ["moe_config"; "rnc_config"]
  then Some TypeError_repeated_keyword
  else
    match warmup_epoch_of (TRAIN.epochs (TRAIN cfg)) with
    | inl e => Some e
    | inr _ =>
        if repeated_keyword (LR.items (TRAIN.lr_scheduler (TRAIN cfg)))
             ["iters_per_epoch"; "eta_min"; "warmup_epoch"]
        then Some TypeError_repeated_keyword
        else None
    end.

Definition evaluate_error (cfg : Config) : option Exn :=
  if repeated_keyword (MODEL.items (MODEL cfg)) ["moe_config"; "rnc_config"]
  then Some TypeError_repeated_keyword
  else None.

Definition main_error (cfg : Config) : option Exn :=
  if String.eqb (mode cfg) "train" then train_error cfg
  else if String.eqb (mode cfg) "eval" then evaluate_error cfg
  else Some (ValueError_mode cfg).

(** The run ended in the exception [x] of a step, its last. *)
Definition raised_by_last_step {A : Type} (o : Outcome A) (x : Exn) : Prop :=
  exists pre e,
    log o = pre ++ [e]
    /\ Forall (fun e => returned e = true) pre
    /\ result e = Raised x.

(** What the steps of a log print. *)
Fixpoint printed (l : list Entry) : list string :=
  match l with
  | [] => []
  | e :: rest =>
      match action e with
      | Do (print s) => s :: printed rest
      | _ => printed rest
      end
  end.

(** What a run of [train] prints when it completes. *)
Definition train_prints (cfg : Config) : list string :=
  if RNC.use_rnc (RNC cfg) && RNC.rnc_pretrain (RNC cfg) then
    (if negb (RNC.load_rnc_pretrain_params (RNC cfg))
     then ["============= RNC PRETRAIN ============="; 
           "============= RNC PRETRAIN END ============="]
     else [])
    ++ ["============= LOAD RNC PRETRAIN PARAMs =============";
        "===================================================="]
  else [].

(** A solver is built on the constraint named [cname] with the loss [loss_f],
    and on the validator named [vname] over [vcfg] with the loss [loss_f] and
    the metric [metric_f] under the key [mkey]; the keys of its two
    dictionaries are the names that the objects report; and its
    [iters_per_epoch] is the length reported for the data loader of the
    constraint named ["Sup"]. *)
Definition wired (cfg : Config) (l : list Entry) (args : SolverArgs)
  (cname : string) (loss_f : FuncRef) (vname : string) (vcfg : Py.dict)
  (mkey : string) (metric_f : FuncRef) : Prop :=
  exists n c loss n' v loss' metric sup sup_loss N,
    sa_constraint args = Some [(n, c)]
    /\ built_by l c = Some (SupervisedConstraint (train_dataloader_cfg cfg) loss cname)
    /\ built_by l loss = Some (FunctionalLoss loss_f)
    /\ In (Do (get_name c), GaveStr n) (map summary l)
    /\ sa_validator args = [(n', v)]
    /\ built_by l v = Some (SupervisedValidator vcfg loss' [(mkey, metric)] vname)
    /\ built_by l loss' = Some (FunctionalLoss loss_f)
    /\ built_by l metric = Some (FunctionalMetric metric_f)
    /\ In (Do (get_name v), GaveStr n') (map summary l)
    /\ sa_iters_per_epoch args = Some N
    /\ In (Do (len_data_loader sup), GaveInt N) (map summary l)
    /\ built_by l sup = Some (SupervisedConstraint (train_dataloader_cfg cfg) sup_loss "Sup").

(** A step that changes the value of a parameter is a call into the
    framework. *)
Definition changes_in_calls_only (e : Entry) : Prop :=
  param_values (after e) <> param_values (before e) -> exists c, action e = Do c.

(** What the framework is handed of the model: a [Solver] constructor is
    handed the model that the run constructed, and [AdamW] the parameter groups
    of that model. *)
Definition handed_model_ok (cfg : Config) (l : list Entry) (e : Entry) : Prop :=
  match action e with
  | Do (Solver args) => is_model_of l (sa_model args)
  | Do (AdamW _ parameters) =>
      exists model,
        is_model_of l model
        /\ parameters = optimizer_grouped_parameters model (TRAIN.wd (TRAIN cfg))
  | _ => True
  end.

(** The assignments of the driver in a log, in order. *)
Fixpoint own_writes (l : list Entry) : list (Layer * string * Py.value) :=
  match l with
  | [] => []
  | e :: rest =>
      match action e with
      | Assign target attr v => (target, attr, v) :: own_writes rest
      | Do _ => own_writes rest
      end
  end.

(** The assignments of a run of [train] that completes, on the model
    [model]. *)
Definition train_writes (cfg : Config) (model : Layer) : list (Layer * string * Py.value) :=
  (if RNC.use_rnc (RNC cfg) && RNC.rnc_pretrain (RNC cfg)
      && negb (RNC.load_rnc_pretrain_params (RNC cfg))
   then [(model, "rnc_pretrain_flag", Py.VBool true)] else [])
  ++ [(model, "rnc_pretrain_flag", Py.VBool false)].

(** The validator of a solver is one validator, built over a dataloader
    dictionary whose data set has ["training": split]. *)
Definition validator_on_split (l : list Entry) (args : SolverArgs) (split : string) : Prop :=
  exists n v d loss metric name,
    sa_validator args = [(n, v)]
    /\ built_by l v = Some (SupervisedValidator d loss metric name)
    /\ Py.dict_get2 "dataset" "training" d = Some (Py.VStr split).

(** The solver of [evaluate] is built on the model that the run constructed
    and on the validator built with the name ["Sup_Validator"] over
    [test_dataloader_cfg], with the loss [train_extformer_moe_func] and the
    metric [eval_rmse_func]; the key of the validator is the name it
    reports. *)
Definition eval_wired (cfg : Config) (l : list Entry) (args : SolverArgs) : Prop :=
  exists model n v loss metric,
    args = eval_solver_args cfg model [(n, v)]
    /\ is_model_of l model
    /\ built_by l v
       = Some (SupervisedValidator (test_dataloader_cfg cfg) loss [("rmse", metric)]
                 "Sup_Validator")
    /\ built_by l loss = Some (FunctionalLoss train_extformer_moe_func)
    /\ built_by l metric = Some (FunctionalMetric eval_rmse_func)
    /\ In (Do (get_name v), GaveStr n) (map summary l).

Module Demo2.

(** [Demo.config] with more entries in the [MODEL] node and in the
    [TRAIN.lr_scheduler] node. *)
Definition config_with (model_others lr_others : Py.dict) : Config :=
  let cfg := Demo.config true true false "train" 0 in
  {| FILE_PATH := FILE_PATH cfg;
     MODEL := {| MODEL.input_keys := MODEL.input_keys (MODEL cfg);
                 MODEL.others := model_others |};
     DATASET := DATASET cfg;
     TRAIN := {| TRAIN.batch_size := TRAIN.batch_size (TRAIN cfg);
                 TRAIN.wd := TRAIN.wd (TRAIN cfg);
                 TRAIN.lr_scheduler :=
                   {| LR.learning_rate := LR.learning_rate (TRAIN.lr_scheduler (TRAIN cfg));
                      LR.others := lr_others |};
                 TRAIN.min_lr_ratio := TRAIN.min_lr_ratio (TRAIN cfg);
                 TRAIN.epochs := TRAIN.epochs (TRAIN cfg);
                 TRAIN.update_freq := TRAIN.update_freq (TRAIN cfg);
                 TRAIN.eval_during_train := TRAIN.eval_during_train (TRAIN cfg) |};
     EVAL := EVAL cfg;
     MOE := MOE cfg;
     RNC := RNC cfg;
     output_dir := output_dir cfg;
     seed := seed cfg;
     log_freq := log_freq cfg;
     DEVICE := DEVICE cfg;
     mode := mode cfg |}.

(** A module tree that is well named, with a weight tied between a linear
    layer and a layer norm: the parameter object [7] is the weight of both. *)
Definition tied_norm : Layer :=
  mkLayer 1 ["paddle.nn.LayerNorm"; "paddle.nn.Layer"; "object"]
          [("weight", Some 7); ("bias", Some 8)] [].

Definition tied : Layer :=
  mkLayer 4 ["Net"; "paddle.nn.Layer"; "object"] []
          [("head", Some (mkLayer 2 ["paddle.nn.Linear"; "paddle.nn.Layer"; "object"]
                            [("weight", Some 7)] []));
           ("norm", Some tied_norm)].

(** A framework like [Demo.quiet] whose [Solver] constructor loads the
    checkpoint it is given: the value of the parameter [15] becomes what the
    file at [pretrained_model_path] holds, here the path itself. *)
Definition loading : Framework := fun c hist w =>
  match c return (Exn + data (kind c)) * World with
  | Solver args =>
      match sa_pretrained_model_path args with
      | Some (Py.VStr path) =>
          (inr tt,
           {| param_values := fun p => if Nat.eqb p 15 then Py.VStr path
                                       else param_values w p;
              attributes := attributes w |})
      | _ => (inr tt, w)
      end
  | c' => (inr (Demo.answer hist c'), w)
  end.

End Demo2.
(* ===================================================================== *)
(** ** Properties of [get_parameter_names] *)
(* ===================================================================== *)

Section ParameterNames.

Variable forbidden_layer_types : list string.

(** The function in the shape of the source: a loop over
    [model.named_children()], then the keys of [model._parameters]. *)
Lemma get_parameter_names_unfold (model : Layer) :
  get_parameter_names model forbidden_layer_types =
  flat_map (fun nc => qualified_below (fst nc) (snd nc) forbidden_layer_types
                        (get_parameter_names (snd nc) forbidden_layer_types))
           (named_children model)
  ++ map fst (_parameters model).
Proof.
  destruct model as [id mro ps subs]. unfold named_children. cbn [_sub_layers _parameters].
  cbn [get_parameter_names]. f_equal. cbn [_sub_layers].
  generalize (@nil nat) as memo.
  induction subs as [|[name [child|]] rest IH]; intros memo; cbn [children_from flat_map].
  - reflexivity.
  - destruct (Py.id_in (layer_id child) memo).
    + apply IH.
    + cbn [flat_map fst snd]. f_equal. apply IH.
  - apply IH.
Qed.

Lemma parameter_slots_unfold (model : Layer) :
  parameter_slots model =
  flat_map (fun nc => map (fun s : Slot => (nc :: fst s, snd s)) (parameter_slots (snd nc)))
           (named_children model)
  ++ map (fun key => ([], key)) (map fst (_parameters model)).
Proof.
  destruct model as [id mro ps subs]. unfold named_children. cbn [_sub_layers _parameters].
  cbn [parameter_slots]. f_equal. cbn [_sub_layers].
  generalize (@nil nat) as memo.
  induction subs as [|[name [child|]] rest IH]; intros memo; cbn [children_from flat_map].
  - reflexivity.
  - destruct (Py.id_in (layer_id child) memo).
    + apply IH.
    + cbn [flat_map fst snd]. f_equal. apply IH.
  - apply IH.
Qed.

(** Every child that [named_children] yields is an entry of [_sub_layers]. *)
Lemma children_from_In (items : list (string * option Layer)) (memo : list nat) nc :
  In nc (children_from items memo) -> In (fst nc, Some (snd nc)) items.
Proof.
  revert memo. induction items as [|[name [child|]] rest IH]; intros memo H; cbn in H.
  - contradiction.
  - destruct (Py.id_in (layer_id child) memo).
    + right. eapply IH; eassumption.
    + destruct H as [<-|H]; [left; reflexivity | right; eapply IH; eassumption].
  - right. eapply IH; eassumption.
Qed.

(** The filter of the comprehension does not look at its variable: it keeps
    all the names of a child or none. *)
Lemma qualified_below_all_or_none (name : string) (child : Layer) (names : list string) :
  qualified_below name child forbidden_layer_types names =
  if isinstance child forbidden_layer_types then [] else map (fun n => (name ++ "." ++ n)%string) names.
Proof.
  unfold qualified_below.
  destruct (isinstance child forbidden_layer_types); cbn [negb].
  - induction names as [|n names IH]; [reflexivity | exact IH].
  - f_equal. induction names as [|n names IH]; [reflexivity | cbn; f_equal; exact IH].
Qed.

Lemma filter_ext_slots (nc : string * Layer) (slots : list Slot) :
  filter (fun s => negb (through_forbidden forbidden_layer_types s))
         (map (fun s : Slot => (nc :: fst s, snd s)) slots) =
  if isinstance (snd nc) forbidden_layer_types then []
  else map (fun s : Slot => (nc :: fst s, snd s))
           (filter (fun s => negb (through_forbidden forbidden_layer_types s)) slots).
Proof.
  induction slots as [|s slots IH]; cbn [map filter].
  - destruct (isinstance (snd nc) forbidden_layer_types); reflexivity.
  - unfold through_forbidden at 1. cbn [fst existsb].
    destruct (isinstance (snd nc) forbidden_layer_types) eqn:E; cbn [orb negb].
    + exact IH.
    + fold (through_forbidden forbidden_layer_types s).
      destruct (negb (through_forbidden forbidden_layer_types s)); cbn [map];
        rewrite IH; reflexivity.
Qed.

Lemma names_of_children (children : list (string * Layer)) :
  Forall (fun nc => get_parameter_names (snd nc) forbidden_layer_types =
                    names_not_through_forbidden (snd nc) forbidden_layer_types) children ->
  flat_map (fun nc => qualified_below (fst nc) (snd nc) forbidden_layer_types
                        (get_parameter_names (snd nc) forbidden_layer_types)) children =
  map qualified_name
      (filter (fun s => negb (through_forbidden forbidden_layer_types s))
              (flat_map (fun nc => map (fun s : Slot => (nc :: fst s, snd s))
                                       (parameter_slots (snd nc))) children)).
Proof.
  induction 1 as [|nc children Hnc _ IH]; [reflexivity|].
  cbn [flat_map]. rewrite filter_app, map_app, IH. f_equal.
  rewrite qualified_below_all_or_none, filter_ext_slots, Hnc.
  destruct (isinstance (snd nc) forbidden_layer_types); [reflexivity|].
  unfold names_not_through_forbidden. rewrite !map_map. reflexivity.
Qed.

Lemma get_parameter_names_slots (model : Layer) :
  get_parameter_names model forbidden_layer_types =
  names_not_through_forbidden model forbidden_layer_types.
Proof.
  induction model as [id mro ps subs IH] using Layer_tree_ind.
  rewrite get_parameter_names_unfold. unfold names_not_through_forbidden.
  rewrite parameter_slots_unfold, filter_app, map_app.
  f_equal.
  - apply names_of_children.
    apply Forall_forall. intros nc Hin.
    apply children_from_In in Hin. cbn [_sub_layers] in Hin.
    rewrite Forall_forall in IH. apply (IH _ Hin).
  - cbn [_parameters]. induction (map fst ps) as [|k ks IHk]; [reflexivity|].
    cbn. f_equal. exact IHk.
Qed.

End ParameterNames.

(** C4. For every model and every list of forbidden layer types,
    [get_parameter_names] returns exactly the qualified names of the parameter
    slots of the model that are not reached through a child whose type is an
    instance of a forbidden type; the filter of the comprehension keeps all the
    names of a child or none of them; and the keys of the model's own
    [_parameters] are in the result whatever the type of the model itself. *)
Theorem get_parameter_names_exact :
  forall (model : Layer) (forbidden_layer_types : list string),
    get_parameter_names model forbidden_layer_types =
      names_not_through_forbidden model forbidden_layer_types
    /\ (forall name child names,
          qualified_below name child forbidden_layer_types names =
          if isinstance child forbidden_layer_types then []
          else map (fun n => (name ++ "." ++ n)%string) names)
    /\ (exists below,
          get_parameter_names model forbidden_layer_types =
          below ++ map fst (_parameters model))
    /\ (forall key, In key (map fst (_parameters model)) ->
          In key (get_parameter_names model forbidden_layer_types)).
Proof.
  intros model forbidden_layer_types. split; [|split; [|split]].
  - apply get_parameter_names_slots.
  - intros. apply qualified_below_all_or_none.
  - rewrite get_parameter_names_unfold. eexists. reflexivity.
  - intros key Hkey. rewrite get_parameter_names_unfold. apply in_or_app. right. exact Hkey.
Qed.

(* ===================================================================== *)
(** ** Properties of the optimizer parameter groups *)
(* ===================================================================== *)

Lemma id_in_In (x : nat) (s : list nat) : Py.id_in x s = true <-> In x s.
Proof.
  unfold Py.id_in. rewrite existsb_exists. split.
  - intros [y [Hy Heq]]. apply Nat.eqb_eq in Heq. subst. exact Hy.
  - intros H. exists x. split; [exact H | apply Nat.eqb_refl].
Qed.

Lemma list_contains_In (x : string) (l : list string) : Py.list_contains x l = true <-> In x l.
Proof.
  unfold Py.list_contains. rewrite existsb_exists. split.
  - intros [y [Hy Heq]]. apply String.eqb_eq in Heq. subst. exact Hy.
  - intros H. exists x. split; [exact H | apply String.eqb_refl].
Qed.

(** *** [named_parameters] yields no parameter object twice *)

Lemma parameters_from_fresh (layer_prefix : string) (items : list (string * option Param)) :
  forall params_set,
    let r := parameters_from layer_prefix items params_set in
    NoDup (map snd (fst r))
    /\ (forall p, In p (map snd (fst r)) -> ~ In p params_set)
    /\ (forall p, In p (snd r) <-> In p params_set \/ In p (map snd (fst r))).
Proof.
  induction items as [|[key [param|]] rest IH]; intros params_set; cbn [parameters_from].
  - cbn. split; [constructor | split; [tauto | tauto]].
  - destruct (Py.id_in param params_set) eqn:Eseen.
    + apply IH.
    + specialize (IH (param :: params_set)).
      destruct (parameters_from layer_prefix rest (param :: params_set)) as [out set'].
      cbn [fst snd map] in *. destruct IH as [Hnd [Hfresh Hset]].
      assert (Hnot : ~ In param params_set).
      { intros Hin. apply id_in_In in Hin. congruence. }
      split; [|split].
      * constructor; [|exact Hnd]. intros Hin. apply (Hfresh _ Hin). left. reflexivity.
      * intros p [<-|Hin]; [exact Hnot|]. intros Hp. apply (Hfresh _ Hin). right. exact Hp.
      * intros p. rewrite Hset. cbn [In]. tauto.
  - apply IH.
Qed.

Lemma parameters_of_layers_fresh (layers : list (string * Layer)) :
  forall params_set,
    let r := parameters_of_layers layers params_set in
    NoDup (map snd (fst r))
    /\ (forall p, In p (map snd (fst r)) -> ~ In p params_set)
    /\ (forall p, In p (snd r) <-> In p params_set \/ In p (map snd (fst r))).
Proof.
  induction layers as [|[layer_prefix sublayer] rest IH]; intros params_set;
    cbn [parameters_of_layers].
  - cbn. split; [constructor | split; [tauto | tauto]].
  - pose proof (parameters_from_fresh layer_prefix (_parameters sublayer) params_set) as H1.
    destruct (parameters_from layer_prefix (_parameters sublayer) params_set) as [out1 set1].
    specialize (IH set1).
    destruct (parameters_of_layers rest set1) as [out2 set2].
    cbn [fst snd] in *. destruct H1 as [Hnd1 [Hfresh1 Hset1]].
    destruct IH as [Hnd2 [Hfresh2 Hset2]].
    rewrite map_app. split; [|split].
    + apply NoDup_app; [exact Hnd1 | exact Hnd2 |].
      intros p Hp1 Hp2. apply (Hfresh2 _ Hp2). apply Hset1. right. exact Hp1.
    + intros p Hp. apply in_app_or in Hp. destruct Hp as [Hp|Hp].
      * apply (Hfresh1 _ Hp).
      * intros Hin. apply (Hfresh2 _ Hp). apply Hset1. left. exact Hin.
    + intros p. rewrite Hset2, Hset1, in_app_iff. tauto.
Qed.

Lemma named_parameters_NoDup (model : Layer) : NoDup (map snd (named_parameters model)).
Proof.
  unfold named_parameters.
  apply (parameters_of_layers_fresh (fst (named_sublayers "" model [])) []).
Qed.

(** *** Two complementary filters split a list *)

Lemma filter_split {A : Type} (f : A -> bool) (l : list A) :
  Permutation (filter f l ++ filter (fun x => negb (f x)) l) l.
Proof.
  induction l as [|x l IH]; cbn [filter]; [constructor|].
  destruct (f x); cbn [negb app].
  - constructor. exact IH.
  - apply Permutation_sym, Permutation_cons_app, Permutation_sym. exact IH.
Qed.

(** *** Dotted names *)

Lemma contains_dot_cons (c : ascii) (s : string) :
  Py.str_contains "." (String c s) = (Ascii.eqb c "."%char || Py.str_contains "." s)%bool.
Proof.
  cbn [Py.str_contains String.prefix].
  destruct (ascii_dec "."%char c) as [<-|Hne].
  - destruct s; reflexivity.
  - destruct (Ascii.eqb_spec c "."%char) as [->|_]; [contradiction Hne; reflexivity|].
    reflexivity.
Qed.

Lemma dot_free_cons (c : ascii) (s : string) :
  dot_free (String c s) = true -> c <> "."%char /\ dot_free s = true.
Proof.
  unfold dot_free. rewrite contains_dot_cons, negb_orb, andb_true_iff.
  intros [Hc Hs]. split; [|exact Hs].
  intros ->. discriminate Hc.
Qed.

(** A name with a dot in it is not dot free. *)
Lemma dotted_not_dot_free (a x : string) : dot_free (a ++ "." ++ x) = false.
Proof.
  unfold dot_free. apply negb_false_iff. cbn [String.append].
  induction a as [|c a IH]; cbn [String.append]; rewrite contains_dot_cons.
  - reflexivity.
  - rewrite IH. apply orb_true_r.
Qed.

(** A dotted name splits at its first dot in one way only. *)
Lemma dotted_split (a b x y : string) :
  dot_free a = true -> dot_free b = true ->
  (a ++ "." ++ x = b ++ "." ++ y)%string -> a = b /\ x = y.
Proof.
  revert b. induction a as [|c a IH]; intros [|d b] Ha Hb Heq; cbn [String.append] in Heq.
  - injection Heq as ->. split; reflexivity.
  - injection Heq as <- _. apply dot_free_cons in Hb. destruct Hb as [Hd _].
    contradiction Hd; reflexivity.
  - injection Heq as -> _. apply dot_free_cons in Ha. destruct Ha as [Hc _].
    contradiction Hc; reflexivity.
  - injection Heq as -> Heq.
    apply dot_free_cons in Ha. apply dot_free_cons in Hb.
    destruct (IH b (proj2 Ha) (proj2 Hb) Heq) as [-> ->]. split; reflexivity.
Qed.

Lemma str_truthy_append (a b : string) :
  Py.str_truthy a = true -> Py.str_truthy (a ++ b) = true.
Proof. destruct a; [discriminate | reflexivity]. Qed.

Lemma string_append_assoc (a b c : string) : ((a ++ b) ++ c = a ++ b ++ c)%string.
Proof. induction a as [|x a IH]; cbn; [reflexivity | rewrite IH; reflexivity]. Qed.

(** Below a prefix that is not empty, [named_parameters] writes the prefix, a
    dot, and the name it would write without the prefix. *)
Lemma parameter_name_prefixed (path : list string) (key : string) :
  Forall (fun k => Py.str_truthy k = true) path ->
  forall prefix, Py.str_truthy prefix = true ->
    join_prefix (fold_left join_prefix path prefix) key =
    (prefix ++ "." ++ parameter_name path key)%string.
Proof.
  unfold parameter_name.
  induction 1 as [|k path Hk _ IH]; intros prefix Hp; cbn [fold_left].
  - unfold join_prefix at 1. rewrite Hp. reflexivity.
  - rewrite (IH (join_prefix prefix k)).
    + rewrite (IH (join_prefix "" k)).
      * unfold join_prefix at 1 3. rewrite Hp. cbn [Py.str_truthy String.append].
        rewrite !string_append_assoc. reflexivity.
      * unfold join_prefix. cbn. exact Hk.
    + unfold join_prefix. apply str_truthy_append. exact Hp.
Qed.

Lemma parameter_name_cons (k : string) (path : list string) (key : string) :
  Py.str_truthy k = true ->
  Forall (fun k => Py.str_truthy k = true) path ->
  parameter_name (k :: path) key = (k ++ "." ++ parameter_name path key)%string.
Proof.
  intros Hk Hpath. unfold parameter_name at 1. cbn [fold_left].
  apply parameter_name_prefixed; [exact Hpath|].
  unfold join_prefix. cbn. exact Hk.
Qed.

(** *** What [well_named] gives at one layer *)

Lemma well_named_inv (model : Layer) :
  well_named model = true ->
  (forall key, In key (map fst (_parameters model)) -> dot_free key = true)
  /\ distinct (map fst (_sub_layers model)) = true
  /\ (forall k o, In (k, o) (_sub_layers model) ->
        Py.str_truthy k = true /\ dot_free k = true
        /\ (forall child, o = Some child -> well_named child = true)).
Proof.
  destruct model as [id mro ps subs]. cbn [well_named _parameters _sub_layers].
  rewrite !andb_true_iff. intros [[Hps Hdist] Hsubs]. split; [|split].
  - intros key Hin. apply in_map_iff in Hin. destruct Hin as [kv [<- Hin]].
    rewrite forallb_forall in Hps. apply (Hps _ Hin).
  - exact Hdist.
  - clear Hps Hdist. induction subs as [|[k' o'] rest IH]; intros k o Hin; [contradiction|].
    rewrite !andb_true_iff in Hsubs. destruct Hsubs as [[[Ht Hd] Hc] Hrest].
    destruct Hin as [Heq|Hin].
    + injection Heq as -> ->. split; [exact Ht | split; [exact Hd|]].
      intros child ->. exact Hc.
    + apply (IH Hrest _ _ Hin).
Qed.

(** In a dictionary, a key has one entry. *)
Lemma sub_layer_in_distinct (items : list (string * option Layer)) (k : string) (o : option Layer) :
  distinct (map fst items) = true -> In (k, o) items -> sub_layer_in k items = o.
Proof.
  induction items as [|[k' o'] rest IH]; intros Hd Hin; [contradiction|].
  cbn [map fst distinct] in Hd. apply andb_true_iff in Hd. destruct Hd as [Hfirst Hd].
  cbn [sub_layer_in]. destruct Hin as [Heq|Hin].
  - injection Heq as -> ->. rewrite String.eqb_refl. reflexivity.
  - destruct (String.eqb_spec k k') as [->|Hne]; [|apply (IH Hd Hin)].
    apply negb_true_iff in Hfirst.
    assert (Py.list_contains k' (map fst rest) = true) as Hc; [|congruence].
    apply list_contains_In. apply in_map_iff. exists (k', o). split; [reflexivity | exact Hin].
Qed.

Lemma sub_layer_in_In (items : list (string * option Layer)) (k : string) (child : Layer) :
  sub_layer_in k items = Some child -> In (k, Some child) items.
Proof.
  induction items as [|[k' o'] rest IH]; cbn [sub_layer_in]; [discriminate|].
  destruct (String.eqb_spec k k') as [->|Hne]; intros H.
  - left. rewrite H. reflexivity.
  - right. apply (IH H).
Qed.

(** The names along a path that [descend] can follow are not empty. *)
Lemma descend_truthy (path : list string) :
  forall model layers, well_named model = true -> descend model path = Some layers ->
    Forall (fun k => Py.str_truthy k = true) path.
Proof.
  induction path as [|k path IH]; intros model layers Hwf Hd; [constructor|].
  cbn [descend] in Hd. destruct (sub_layer k model) as [child|] eqn:Hsub; [|discriminate].
  destruct (descend child path) as [layers'|] eqn:Hd'; [|discriminate].
  apply sub_layer_in_In in Hsub.
  destruct (well_named_inv model Hwf) as [_ [_ Hsubs]].
  destruct (Hsubs _ _ Hsub) as [Ht [_ Hc]].
  constructor; [exact Ht|]. apply (IH child layers' (Hc child eq_refl) Hd').
Qed.

(** A name that [named_parameters] gives below a forbidden layer is not among
    the names of [get_parameter_names]. *)
Lemma below_forbidden_not_named (forbidden_layer_types : list string) (path : list string) :
  forall (model : Layer) (layers : list Layer) (key : string),
    well_named model = true ->
    descend model path = Some layers ->
    existsb (fun l => isinstance l forbidden_layer_types) layers = true ->
    ~ In (parameter_name path key) (get_parameter_names model forbidden_layer_types).
Proof.
  induction path as [|k path IH]; intros model layers key Hwf Hd Hforb Hin.
  - cbn in Hd. injection Hd as <-. discriminate Hforb.
  - pose proof (descend_truthy _ _ _ Hwf Hd) as Htruthy.
    inversion Htruthy as [|? ? Hk Hpath]; subst.
    rewrite (parameter_name_cons k path key Hk Hpath) in Hin.
    cbn [descend] in Hd. destruct (sub_layer k model) as [child|] eqn:Hsub; [|discriminate].
    destruct (descend child path) as [layers'|] eqn:Hd'; [|discriminate].
    cbn in Hd. injection Hd as <-.
    destruct (well_named_inv model Hwf) as [Hps [Hdist Hsubs]].
    rewrite get_parameter_names_unfold in Hin. apply in_app_or in Hin.
    destruct Hin as [Hin|Hin].
    + apply in_flat_map in Hin. destruct Hin as [[name child'] [Hnc Hin]].
      cbn [fst snd] in Hin. rewrite qualified_below_all_or_none in Hin.
      destruct (isinstance child' forbidden_layer_types) eqn:Hchild'; [contradiction|].
      apply in_map_iff in Hin. destruct Hin as [n' [Heq Hn']].
      apply children_from_In in Hnc. cbn [fst snd] in Hnc.
      destruct (Hsubs _ _ Hnc) as [_ [Hname Hwf']].
      apply sub_layer_in_In in Hsub. destruct (Hsubs _ _ Hsub) as [_ [Hkd _]].
      destruct (dotted_split _ _ _ _ Hname Hkd Heq) as [-> ->].
      pose proof (sub_layer_in_distinct _ _ _ Hdist Hnc) as E1.
      pose proof (sub_layer_in_distinct _ _ _ Hdist Hsub) as E2.
      rewrite E1 in E2. injection E2 as ->.
      cbn [existsb] in Hforb. rewrite Hchild' in Hforb. cbn [orb] in Hforb.
      apply (IH child layers' key (Hwf' child eq_refl) Hd' Hforb Hn').
    + apply Hps in Hin. rewrite dotted_not_dot_free in Hin. discriminate Hin.
Qed.

(** *** [named_parameters] lists parameters at their positions *)

Lemma parameters_from_sound (layer_prefix : string) (items : list (string * option Param)) :
  forall params_set n p,
    In (n, p) (fst (parameters_from layer_prefix items params_set)) ->
    exists key, In (key, Some p) items /\ n = join_prefix layer_prefix key.
Proof.
  induction items as [|[key [param|]] rest IH]; intros params_set n p Hin;
    cbn [parameters_from] in Hin.
  - contradiction.
  - destruct (Py.id_in param params_set).
    + destruct (IH _ _ _ Hin) as [k [Hk E]]. exists k. split; [right; exact Hk | exact E].
    + specialize (IH (param :: params_set) n p).
      destruct (parameters_from layer_prefix rest (param :: params_set)) as [out set'].
      cbn [fst] in *. destruct Hin as [Heq|Hin].
      * injection Heq as <- <-. exists key. split; [left; reflexivity | reflexivity].
      * destruct (IH Hin) as [k [Hk E]]. exists k. split; [right; exact Hk | exact E].
  - destruct (IH _ _ _ Hin) as [k [Hk E]]. exists k. split; [right; exact Hk | exact E].
Qed.

Lemma parameters_of_layers_sound (layers : list (string * Layer)) :
  forall params_set n p,
    In (n, p) (fst (parameters_of_layers layers params_set)) ->
    exists layer_prefix sublayer key,
      In (layer_prefix, sublayer) layers
      /\ In (key, Some p) (_parameters sublayer)
      /\ n = join_prefix layer_prefix key.
Proof.
  induction layers as [|[layer_prefix sublayer] rest IH]; intros params_set n p Hin;
    cbn [parameters_of_layers] in Hin.
  - contradiction.
  - pose proof (parameters_from_sound layer_prefix (_parameters sublayer) params_set n p) as H1.
    destruct (parameters_from layer_prefix (_parameters sublayer) params_set) as [out1 set1].
    specialize (IH set1 n p).
    destruct (parameters_of_layers rest set1) as [out2 set2].
    cbn [fst] in *. apply in_app_or in Hin. destruct Hin as [Hin|Hin].
    + destruct (H1 Hin) as [key [Hk E]]. exists layer_prefix, sublayer, key.
      split; [left; reflexivity | split; assumption].
    + destruct (IH Hin) as (pf & sl & key & Hl & Hk & E). exists pf, sl, key.
      split; [right; exact Hl | split; assumption].
Qed.

Lemma last_cons_default {A : Type} (x : A) (l : list A) (d : A) :
  last (x :: l) d = last l x.
Proof.
  revert x d. induction l as [|y l IH]; intros x d; [reflexivity|].
  change (last (x :: y :: l) d) with (last (y :: l) d).
  rewrite (IH y d), (IH y x). reflexivity.
Qed.

(** What [named_sublayers] yields is a layer at the end of a path of sub-layer
    names, under the prefix that the path spells. *)
Lemma named_sublayers_sound (model : Layer) :
  forall prefix layers_set layer_prefix sublayer,
    well_named model = true ->
    In (layer_prefix, sublayer) (fst (named_sublayers prefix model layers_set)) ->
    exists path layers,
      descend model path = Some layers
      /\ sublayer = last layers model
      /\ layer_prefix = fold_left join_prefix path prefix.
Proof.
  induction model as [id mro ps subs IH] using Layer_tree_ind.
  intros prefix layers_set layer_prefix sublayer Hwf Hin.
  destruct (well_named_inv _ Hwf) as [_ [Hdist Hsubs]]. cbn [_sub_layers] in Hdist, Hsubs.
  cbn [named_sublayers _sub_layers layer_id] in Hin.
  lazymatch type of Hin with
  | context [match ?t with pair _ _ => _ end] =>
      lazymatch t with
      | ?f ?a ?b => set (over := f) in Hin; set (set1 := b) in Hin
      end
  end.
  assert (Hover : forall items set0 pfx l,
             (forall k o, In (k, o) items -> In (k, o) subs) ->
             In (pfx, l) (fst (over items set0)) ->
             exists key child set', In (key, Some child) items
               /\ In (pfx, l) (fst (named_sublayers (join_prefix prefix key) child set'))).
  { induction items as [|[key [child|]] rest IHi]; intros set0 pfx l Hsub Hi; cbn in Hi.
    - contradiction.
    - destruct (named_sublayers (join_prefix prefix key) child set0) as [out1 s1] eqn:E1.
      fold over in Hi.
      destruct (over rest s1) as [out2 s2] eqn:E2. cbn [fst] in Hi.
      apply in_app_or in Hi. destruct Hi as [Hi|Hi].
      + exists key, child, set0. split; [left; reflexivity|]. rewrite E1. exact Hi.
      + destruct (IHi s1 pfx l) as (k & c & s' & Hk & Hc).
        * intros k o Hko. apply Hsub. right. exact Hko.
        * rewrite E2. exact Hi.
        * exists k, c, s'. split; [right; exact Hk | exact Hc].
    - fold over in Hi. destruct (IHi set0 pfx l) as (k & c & s' & Hk & Hc).
      + intros k o Hko. apply Hsub. right. exact Hko.
      + exact Hi.
      + exists k, c, s'. split; [right; exact Hk | exact Hc]. }
  destruct (over subs set1) as [out set'] eqn:Eo. cbn [fst] in Hin.
  apply in_app_or in Hin. destruct Hin as [Hin|Hin].
  - exists [], []. cbn.
    destruct (Py.id_in id layers_set); cbn in Hin; [contradiction|].
    destruct Hin as [Heq|[]]. injection Heq as <- <-. repeat split; reflexivity.
  - destruct (Hover subs set1 layer_prefix sublayer) as (key & child & s' & Hk & Hc).
    + intros k o H. exact H.
    + rewrite Eo. exact Hin.
    + rewrite Forall_forall in IH. specialize (IH _ Hk). cbn [snd] in IH.
      destruct (Hsubs _ _ Hk) as [_ [_ Hwc]].
      destruct (IH _ _ _ _ (Hwc child eq_refl) Hc) as (path & layers & Hd & Hl & Hp).
      exists (key :: path), (child :: layers). split; [|split].
      * cbn [descend]. unfold sub_layer. cbn [_sub_layers].
        rewrite (sub_layer_in_distinct _ _ _ Hdist Hk). rewrite Hd. reflexivity.
      * rewrite last_cons_default. exact Hl.
      * cbn [fold_left]. exact Hp.
Qed.

(** Every entry of [named_parameters] is a parameter of a layer at the end of
    a path, under the name of that position. *)
Lemma named_parameters_sound (model : Layer) (n : string) (p : Param) :
  well_named model = true ->
  In (n, p) (named_parameters model) ->
  exists path layers key,
    descend model path = Some layers
    /\ In (key, Some p) (_parameters (last layers model))
    /\ n = parameter_name path key.
Proof.
  intros Hwf Hin. unfold named_parameters in Hin.
  apply parameters_of_layers_sound in Hin.
  destruct Hin as (pfx & sl & key & Hl & Hk & E).
  apply (named_sublayers_sound model "" [] pfx sl Hwf) in Hl.
  destruct Hl as (path & layers & Hd & -> & ->).
  exists path, layers, key. split; [exact Hd | split; [exact Hk | exact E]].
Qed.

Lemma NoDup_app_disjoint {A : Type} (l1 l2 : list A) (a : A) :
  NoDup (l1 ++ l2) -> In a l1 -> ~ In a l2.
Proof.
  induction l1 as [|x l1 IH]; intros Hnd Hin; [contradiction|].
  cbn [app] in Hnd. inversion Hnd as [|? ? Hx Hnd']; subst.
  destruct Hin as [->|Hin].
  - intros H2. apply Hx. apply in_or_app. right. exact H2.
  - apply (IH Hnd' Hin).
Qed.

Lemma in_filter_snd {A B : Type} (f : A * B -> bool) (l : list (A * B)) (a : A) (b : B) :
  In (a, b) l -> f (a, b) = true -> In b (map snd (filter f l)).
Proof.
  intros Hin Hf. apply in_map_iff. exists (a, b). split; [reflexivity|].
  apply filter_In. split; assumption.
Qed.

(** C5, as amended. The two optimizer parameter groups of [train] split
    [model.named_parameters()]: every parameter is in exactly one group; a
    parameter whose qualified name is in [decay_parameters] is in the group
    with weight decay [cfg.TRAIN.wd]; a parameter that is listed under a name
    that contains "bias", and (in a module tree that is well named) a
    parameter that is listed under a name that lies below an [nn.LayerNorm]
    child, is in the group with weight decay [0.0].  In a module tree that is
    well named every listed parameter is a parameter of the layer at the end
    of a path that spells its name. *)
Theorem optimizer_groups_partition :
  forall (cfg : Config) (model : Layer),
    exists decay no_decay,
      optimizer_grouped_parameters model (TRAIN.wd (TRAIN cfg)) = [decay; no_decay]
      /\ weight_decay decay = TRAIN.wd (TRAIN cfg)
      /\ weight_decay no_decay = Py.VFloat Py.lit_0_0
      /\ Permutation (params decay ++ params no_decay) (map snd (named_parameters model))
      /\ (forall p, In p (map snd (named_parameters model)) ->
            (In p (params decay) /\ ~ In p (params no_decay))
            \/ (In p (params no_decay) /\ ~ In p (params decay)))
      /\ (forall n p, In (n, p) (named_parameters model) ->
            In n (decay_parameters model) -> In p (params decay))
      /\ (forall n p, In (n, p) (named_parameters model) ->
            Py.str_contains "bias" n = true -> In p (params no_decay))
      /\ (well_named model = true ->
          forall path key layers p,
            descend model path = Some layers ->
            existsb (fun l => isinstance l [nn_LayerNorm]) layers = true ->
            In (parameter_name path key, p) (named_parameters model) ->
            In p (params no_decay))
      /\ (well_named model = true ->
          forall n p,
            In (n, p) (named_parameters model) ->
            exists path layers key,
              descend model path = Some layers
              /\ In (key, Some p) (_parameters (last layers model))
              /\ n = parameter_name path key
              /\ (existsb (fun l => isinstance l [nn_LayerNorm]) layers = true ->
                  In p (params no_decay))).
Proof.
  intros cfg model. unfold optimizer_grouped_parameters.
  eexists. eexists. split; [reflexivity|]. cbn [params weight_decay].
  set (in_decay := fun np : string * Param =>
                     Py.list_contains (fst np) (decay_parameters model)).
  assert (Hperm : Permutation
            (map snd (filter in_decay (named_parameters model))
             ++ map snd (filter (fun np => negb (in_decay np)) (named_parameters model)))
            (map snd (named_parameters model))).
  { rewrite <- map_app. apply Permutation_map. apply filter_split. }
  assert (Hnd : NoDup
            (map snd (filter in_decay (named_parameters model))
             ++ map snd (filter (fun np => negb (in_decay np)) (named_parameters model)))).
  { eapply Permutation_NoDup; [apply Permutation_sym; exact Hperm|].
    apply named_parameters_NoDup. }
  split; [reflexivity|]. split; [reflexivity|]. split; [exact Hperm|].
  assert (Hbelow : well_named model = true ->
            forall path key layers p,
              descend model path = Some layers ->
              existsb (fun l => isinstance l [nn_LayerNorm]) layers = true ->
              In (parameter_name path key, p) (named_parameters model) ->
              In p (map snd (filter (fun np => negb (in_decay np)) (named_parameters model)))).
  { intros Hwf path key layers p Hd Hforb Hin.
    apply (in_filter_snd (fun np => negb (in_decay np)) _ _ _ Hin).
    unfold in_decay. cbn [fst]. apply negb_true_iff.
    destruct (Py.list_contains (parameter_name path key) (decay_parameters model)) eqn:E;
      [|reflexivity].
    apply list_contains_In in E. unfold decay_parameters in E.
    apply filter_In in E. destruct E as [E _].
    contradiction (below_forbidden_not_named _ _ _ _ _ Hwf Hd Hforb E). }
  split; [|split; [|split; [|split]]].
  - intros p Hp.
    apply (Permutation_in _ (Permutation_sym Hperm)) in Hp.
    apply in_app_or in Hp. destruct Hp as [Hp|Hp].
    + left. split; [exact Hp|]. apply (NoDup_app_disjoint _ _ _ Hnd Hp).
    + right. split; [exact Hp|]. intros Hp1. apply (NoDup_app_disjoint _ _ _ Hnd Hp1 Hp).
  - intros n p Hin Hn. apply (in_filter_snd in_decay _ _ _ Hin).
    unfold in_decay. cbn [fst]. apply list_contains_In. exact Hn.
  - intros n p Hin Hbias.
    apply (in_filter_snd (fun np => negb (in_decay np)) _ _ _ Hin).
    unfold in_decay. cbn [fst]. apply negb_true_iff.
    destruct (Py.list_contains n (decay_parameters model)) eqn:E; [|reflexivity].
    apply list_contains_In in E. unfold decay_parameters in E.
    apply filter_In in E. destruct E as [_ E]. rewrite Hbias in E. discriminate E.
  - exact Hbelow.
  - intros Hwf n p Hin.
    destruct (named_parameters_sound model n p Hwf Hin) as (path & layers & key & Hd & Hk & ->).
    exists path, layers, key. split; [exact Hd|]. split; [exact Hk|]. split; [reflexivity|].
    intros Hforb. apply (Hbelow Hwf path key layers p Hd Hforb Hin).
Qed.

Ltac find_in := vm_compute; repeat (first [left; reflexivity | right]).

(** On the module tree [Demo.model]: the weight of the layer norm in the block
    and the bias of the linear layer are in the group without weight decay,
    the weight of the linear layer is in the group with weight decay. *)
Lemma optimizer_groups_partition_witness :
  exists decay no_decay,
    optimizer_grouped_parameters Demo.model
      (TRAIN.wd (TRAIN (Demo.config true true false "train" 0))) = [decay; no_decay]
    /\ In 10 (params no_decay)
    /\ In 13 (params no_decay)
    /\ In 12 (params decay).
Proof.
  destruct (optimizer_groups_partition (Demo.config true true false "train" 0) Demo.model)
    as (decay & no_decay & E & _ & _ & _ & _ & Hdecay & Hbias & Hnorm & _).
  exists decay, no_decay. split; [exact E|]. split; [|split].
  - apply (Hnorm eq_refl ["block"; "norm"] "weight" [Demo.block; Demo.norm] 10).
    + reflexivity.
    + reflexivity.
    + find_in.
  - apply (Hbias "block.fc.bias" 13).
    + find_in.
    + reflexivity.
  - apply (Hdecay "block.fc.weight" 12).
    + find_in.
    + find_in.
Defined.

(** Without good names the last part fails: in [Demo.ill_named] the weight of
    the layer norm ["a.b"] is listed under the name ["a.b.w"], which is also
    the name of the weight of the linear layer ["b"] below ["a"], and it is
    put in the group with weight decay. *)
Lemma ill_named_layer_norm_decays :
  well_named Demo.ill_named = false
  /\ descend Demo.ill_named ["a.b"]
     = Some [mkLayer 1 ["paddle.nn.LayerNorm"; "paddle.nn.Layer"; "object"]
               [("w", Some 10)] []]
  /\ In (parameter_name ["a.b"] "w", 10) (named_parameters Demo.ill_named)
  /\ exists decay no_decay,
       optimizer_grouped_parameters Demo.ill_named Py.VNone = [decay; no_decay]
       /\ In 10 (params decay) /\ ~ In 10 (params no_decay).
Proof.
  split; [reflexivity|]. split; [reflexivity|]. split; [find_in|].
  eexists. eexists. split; [reflexivity|]. split; [find_in|].
  vm_compute. intros H. exact H.
Qed.

(** C5, as it was stated, fails: the group is decided by the name under
    which a parameter is listed.  In [Demo2.tied], a tree that is well named,
    the weight of the layer norm is the parameter object that the linear layer
    before it holds too; it is listed as ["head.weight"] and is in the group
    with weight decay.  In [Demo.ill_named], the weight of the layer norm
    ["a.b"] is listed under a name that is in [decay_parameters], and is in
    the group with weight decay. *)
Lemma layer_norm_parameter_can_decay :
  (well_named Demo2.tied = true
   /\ exists decay no_decay,
        optimizer_grouped_parameters Demo2.tied
          (TRAIN.wd (TRAIN (Demo.config true true false "train" 0))) = [decay; no_decay]
        /\ In ("norm", Demo2.tied_norm) (named_children Demo2.tied)
        /\ isinstance Demo2.tied_norm [nn_LayerNorm] = true
        /\ In ("weight", Some 7) (_parameters Demo2.tied_norm)
        /\ named_parameters Demo2.tied = [("head.weight", 7); ("norm.bias", 8)]
        /\ params decay = [7]
        /\ params no_decay = [8]
        /\ weight_decay decay = TRAIN.wd (TRAIN (Demo.config true true false "train" 0))
        /\ ~ In 7 (params no_decay))
  /\ (well_named Demo.ill_named = false
      /\ exists decay no_decay norm,
           optimizer_grouped_parameters Demo.ill_named Py.VNone = [decay; no_decay]
           /\ descend Demo.ill_named ["a.b"] = Some [norm]
           /\ isinstance norm [nn_LayerNorm] = true
           /\ In ("w", Some 10) (_parameters norm)
           /\ In (parameter_name ["a.b"] "w", 10) (named_parameters Demo.ill_named)
           /\ In 10 (params decay)
           /\ ~ In 10 (params no_decay)).
Proof.
  split.
  - split; [reflexivity|]. eexists. eexists. split; [reflexivity|].
    split; [vm_compute; right; left; reflexivity|].
    split; [reflexivity|]. split; [left; reflexivity|].
    split; [reflexivity|]. split; [reflexivity|]. split; [reflexivity|].
    split; [reflexivity|]. vm_compute. intros [H|H]; [discriminate H | exact H].
  - split; [reflexivity|]. eexists. eexists. eexists. split; [reflexivity|].
    split; [reflexivity|]. split; [reflexivity|]. split; [left; reflexivity|].
    split; [find_in|]. split; [find_in|]. vm_compute. intros H. exact H.
Qed.

(* ===================================================================== *)
(** ** Runs of the driver *)
(* ===================================================================== *)

(** *** One step of a run *)

Lemma run_Ext {A : Type} (fw : Framework) (c : Call) (k : ret (kind c) -> Prog A)
  (hist : list Entry) (w : World) :
  run fw (Ext c k) hist w =
  match fw c hist w with
  | (inl e, w') =>
      {| log := hist ++ [ {| action := Do c; result := Raised e; before := w; after := w' |} ];
         final := w'; value := inl e |}
  | (inr d, w') =>
      run fw (k (complete (kind c) (length hist) d))
          (hist ++ [ {| action := Do c;
                        result := result_of (kind c) (complete (kind c) (length hist) d);
                        before := w; after := w' |} ])
          w'
  end.
Proof. reflexivity. Qed.

Lemma run_SetAttr {A : Type} (fw : Framework) (target : Layer) (attr : string) (v : Py.value)
  (k : Prog A) (hist : list Entry) (w : World) :
  run fw (SetAttr target attr v k) hist w =
  run fw k
      (hist ++ [ {| action := Assign target attr v; result := Done;
                    before := w; after := set_attribute target attr v w |} ])
      (set_attribute target attr v w).
Proof. reflexivity. Qed.

Lemma run_Ret {A : Type} (fw : Framework) (a : A) (hist : list Entry) (w : World) :
  run fw (Ret a) hist w = {| log := hist; final := w; value := inr a |}.
Proof. reflexivity. Qed.

Lemma run_Raise {A : Type} (fw : Framework) (e : Exn) (hist : list Entry) (w : World) :
  run fw (@Raise A e) hist w = {| log := hist; final := w; value := inl e |}.
Proof. reflexivity. Qed.

(** Running a program against an arbitrary framework: bring the program to
    its first statement, and take the cases of what the framework answers;
    where the program branches on the configuration, take both branches. *)
Ltac tidy := cbv beta; cbn [complete kind Datatypes.length Datatypes.app result_of].

Ltac step fw :=
  lazymatch goal with
  | |- context [run fw ?p ?h ?w] =>
      let p' := eval hnf in p in
      lazymatch p' with
      | Ret ?a => change (run fw p h w) with (run fw (Ret a) h w); rewrite run_Ret
      | Raise ?e => change (run fw p h w) with (run fw (@Raise unit e) h w); rewrite run_Raise
      | Ext ?c ?k =>
          change (run fw p h w) with (run fw (Ext c k) h w);
          rewrite (run_Ext fw c k h w);
          destruct (fw c h w) as [[?|?] ?]; tidy
      | SetAttr ?t ?a ?v ?k =>
          change (run fw p h w) with (run fw (SetAttr t a v k) h w);
          rewrite (run_SetAttr fw t a v k h w); tidy
      | context [if ?b then _ else _] => destruct b eqn:?
      | context [match ?b with inl _ => _ | inr _ => _ end] => destruct b eqn:?
      end
  end.

Ltac start :=
  unfold completes, exec, main; unfold train, evaluate;
  unfold new_model, lift, rnc_pretrain_stage.

Ltac run_all fw := repeat step fw; cbn [log value final].

Ltac view := cbn [solver_steps solver_step action result returned].

Ltac in_cases :=
  repeat match goal with
    | H : In _ [] |- _ => destruct H
    | H : In _ (_ :: _) |- _ => destruct H as [H|H]
    | H : @eq SolverStep _ ?x |- _ => is_var x; subst x
    | H : @eq SolverStep _ _ |- _ =>
        first [ discriminate H
              | injection H as ? ?; subst
              | injection H as ?; subst ]
    | H : {| obj_id := _ |} = {| obj_id := _ |} |- _ => first [discriminate H | clear H]
    end.

Ltac is_args :=
  first [ unfold is_rnc_solver_args; do 6 eexists; reflexivity
        | unfold is_main_solver_args; do 7 eexists; reflexivity ].

(** The two solvers of [train] are told apart by their arguments: only the
    main one is given [pretrained_model_path]. *)
Lemma main_not_rnc (cfg : Config) (args : SolverArgs) :
  is_main_solver_args cfg args -> is_rnc_solver_args cfg args -> False.
Proof.
  intros (m & c & o & l & i & v & p & ->) (m' & c' & o' & l' & i' & v' & H).
  apply (f_equal sa_pretrained_model_path) in H. discriminate H.
Qed.

(** *** The driver on a configuration *)

(** [int(0.2 * epochs)] on some numbers of epochs. *)
Example warmup_epoch_100 : warmup_epoch_of 100 = inr 20%Z.
Proof. reflexivity. Qed.

Example warmup_epoch_7 : warmup_epoch_of 7 = inr 1%Z.
Proof. reflexivity. Qed.

Example warmup_epoch_0 : warmup_epoch_of 0 = inr 0%Z.
Proof. reflexivity. Qed.

Example warmup_epoch_negative : warmup_epoch_of (-7) = inr (-1)%Z.
Proof. reflexivity. Qed.

Example warmup_epoch_huge : warmup_epoch_of (2 ^ 1024) = inl OverflowError_float.
Proof. reflexivity. Qed.

Example rnc_checkpoint_of_output : 
  rnc_checkpoint (Demo.config true true false "train" 0)
  = "./output/rnc_pretrain/checkpoints/best_model.pdparams".
Proof. reflexivity. Qed.

Example device_of_gpu : device_of (Demo.config true true false "train" 3) = "gpu:3".
Proof. reflexivity. Qed.

Example device_of_minus_one : device_of (Demo.config true true false "train" (-1)) = "cpu".
Proof. reflexivity. Qed.

(** The steps of [train] with the pretraining stage, against a framework that
    never raises. *)
Example train_steps_with_pretraining :
  map action_name
      (log (exec Demo.quiet (train (Demo.config true true false "train" 0)) Demo.world))
  = [ "ppsci.loss.FunctionalLoss"; "ppsci.constraint.SupervisedConstraint"; ".name";
      "len(.data_loader)";
      "ppsci.loss.FunctionalLoss"; "ppsci.metric.FunctionalMetric";
      "ppsci.validate.SupervisedValidator"; ".name";
      "OmegaConf.to_object"; "OmegaConf.to_object"; "ppsci.arch.ExtFormerMoECuboid";
      "ppsci.optimizer.lr_scheduler.Cosine"; "Cosine.__call__"; "paddle.optimizer.AdamW";
      "print"; "model.rnc_pretrain_flag =";
      "ppsci.loss.FunctionalLoss"; "ppsci.constraint.SupervisedConstraint"; ".name";
      "ppsci.loss.FunctionalLoss"; "ppsci.metric.FunctionalMetric";
      "ppsci.validate.SupervisedValidator"; ".name";
      "ppsci.solver.Solver"; ".train"; ".eval"; "print";
      "print"; "print"; "model.rnc_pretrain_flag =";
      "ppsci.solver.Solver"; ".train"; ".eval" ].
Proof. vm_compute. reflexivity. Qed.

(** The steps of [train] when the main solver's [train()] raises: the run
    stops there, [eval()] is not called. *)
Example train_steps_when_training_raises :
  map action_name
      (log (exec (Demo.failing_at 16)
                 (train (Demo.config false true false "train" 0)) Demo.world))
  = [ "ppsci.loss.FunctionalLoss"; "ppsci.constraint.SupervisedConstraint"; ".name";
      "len(.data_loader)";
      "ppsci.loss.FunctionalLoss"; "ppsci.metric.FunctionalMetric";
      "ppsci.validate.SupervisedValidator"; ".name";
      "OmegaConf.to_object"; "OmegaConf.to_object"; "ppsci.arch.ExtFormerMoECuboid";
      "ppsci.optimizer.lr_scheduler.Cosine"; "Cosine.__call__"; "paddle.optimizer.AdamW";
      "model.rnc_pretrain_flag ="; "ppsci.solver.Solver"; ".train" ]
  /\ value (exec (Demo.failing_at 16)
                 (train (Demo.config false true false "train" 0)) Demo.world)
     = inl (mkExn "RuntimeError" "").
Proof. vm_compute. split; reflexivity. Qed.

(** The names that the demo framework gives to the constraint and validator
    reach the main solver as the keys of its dictionaries. *)
Example train_solver_dictionaries :
  exists s args,
    In (Built s args)
       (solver_steps
          (log (exec Demo.quiet (train (Demo.config false false false "train" 0))
                     Demo.world)))
    /\ sa_constraint args = Some [("Sup", mkObj 1)]
    /\ sa_validator args = [("Sup_Validator", mkObj 6)]
    /\ sa_pretrained_model_path args = Some Py.VNone
    /\ sa_device args = "gpu:0".
Proof.
  eexists. eexists. split; [vm_compute; left; reflexivity|].
  repeat split; reflexivity.
Qed.

(** *** The pretraining stage and the main stage *)

(** C1. With both RNC flags set and [load_rnc_pretrain_params] unset, in every
    run of [train(cfg)] the call of [train()] on the main solver comes after
    [rnc_solver.train()] and [rnc_solver.eval()] have been called in this
    order and have returned, and a run that completes makes all these calls;
    with one of the two RNC flags unset, every solver that a run constructs
    or calls is the main solver, none is the RNC solver. *)
Theorem rnc_pretraining_precedes_training :
  forall (fw : Framework) (w : World) (cfg : Config),
    let o := exec fw (train cfg) w in
    let steps := solver_steps (log o) in
    (RNC.use_rnc (RNC cfg) = true -> RNC.rnc_pretrain (RNC cfg) = true ->
     RNC.load_rnc_pretrain_params (RNC cfg) = false ->
       (forall s args ok,
          In (Built s args) steps -> is_main_solver_args cfg args ->
          In (Trained s ok) steps ->
          exists r rargs rest,
            is_rnc_solver_args cfg rargs
            /\ steps = Built r rargs :: Trained r true :: Evaluated r true :: rest
            /\ In (Trained s ok) rest)
       /\ (completes o ->
           exists r rargs s args,
             is_rnc_solver_args cfg rargs /\ is_main_solver_args cfg args
             /\ steps = [Built r rargs; Trained r true; Evaluated r true;
                         Built s args; Trained s true; Evaluated s true]))
    /\ (RNC.use_rnc (RNC cfg) = false \/ RNC.rnc_pretrain (RNC cfg) = false ->
        forall st, In st steps ->
          match st with
          | Built _ args | BuildFailed args =>
              is_main_solver_args cfg args /\ ~ is_rnc_solver_args cfg args
          | Trained s _ | Evaluated s _ =>
              exists args, In (Built s args) steps /\ is_main_solver_args cfg args
          end).
Proof.
  intros fw w cfg o steps. subst o steps. split.
  - intros H1 H2 H3. start. rewrite H1, H2, H3. cbn [andb negb].
    run_all fw; view.
    all: (split; [intros s args ok Hb Hm Ht | intros [a Ha]; try discriminate Ha]).
    all: in_cases.
    all: try (exfalso; eapply main_not_rnc; [eassumption | is_args]).
    all: try (do 3 eexists; split; [is_args | split; [reflexivity | cbn [In]; tauto]]).
    all: try (do 4 eexists; split; [is_args | split; [is_args | reflexivity]]).
  - intros H st Hin. revert st Hin. start.
    assert (E : RNC.use_rnc (RNC cfg) && RNC.rnc_pretrain (RNC cfg) = false).
    { destruct H as [-> | ->]; [reflexivity | apply andb_false_r]. }
    rewrite E. run_all fw; view.
    all: intros st Hin; in_cases.
    all: try (split; [is_args | intros Hr; eapply main_not_rnc; [|exact Hr]; is_args]).
    all: try (eexists; split; [cbn [In]; left; reflexivity | is_args]).
Qed.

(** A run of [train] with both flags set, against a framework that never
    raises: the pretraining stage, then the main stage. *)
Lemma rnc_pretraining_precedes_training_witness :
  exists r rargs s args,
    solver_steps (log (exec Demo.quiet (train (Demo.config true true false "train" 0))
                            Demo.world))
    = [Built r rargs; Trained r true; Evaluated r true;
       Built s args; Trained s true; Evaluated s true].
Proof.
  destruct (rnc_pretraining_precedes_training Demo.quiet Demo.world
              (Demo.config true true false "train" 0)) as [H _].
  destruct (H eq_refl eq_refl eq_refl) as [_ Hc].
  destruct Hc as (r & rargs & s & args & _ & _ & E).
  - exists tt. vm_compute. reflexivity.
  - exists r, rargs, s, args. exact E.
Defined.

Ltac main_built :=
  first [ do 2 eexists; split; [left; reflexivity | is_args]
        | do 2 eexists; split; [do 3 right; left; reflexivity | is_args] ].

(** C2. In every run of [train(cfg)] the main solver is constructed with
    [pretrained_model_path] equal to the path of the RNC checkpoint when both
    RNC flags are set, and with [None] otherwise; this is so also when
    [load_rnc_pretrain_params] is set, where the run constructs no RNC solver;
    and a run that completes does construct the main solver. *)
Theorem main_solver_pretrained_model_path :
  forall (fw : Framework) (w : World) (cfg : Config),
    let o := exec fw (train cfg) w in
    let steps := solver_steps (log o) in
    (forall args,
       (exists s, In (Built s args) steps) \/ In (BuildFailed args) steps ->
       is_main_solver_args cfg args ->
       sa_pretrained_model_path args =
       Some (if RNC.use_rnc (RNC cfg) && RNC.rnc_pretrain (RNC cfg)
             then Py.VStr (Py.os_path_join (output_dir cfg) ["rnc_pretrain"; "checkpoints"]
                           ++ "/best_model.pdparams")
             else Py.VNone))
    /\ (completes o ->
        exists s args, In (Built s args) steps /\ is_main_solver_args cfg args)
    /\ (RNC.load_rnc_pretrain_params (RNC cfg) = true ->
        forall args,
          (exists s, In (Built s args) steps) \/ In (BuildFailed args) steps ->
          ~ is_rnc_solver_args cfg args).
Proof.
  intros fw w cfg o steps. subst o steps. split; [|split].
  - start. run_all fw; view.
    all: intros args [[s Hin]|Hin] Hm; in_cases.
    all: try (exfalso; eapply main_not_rnc; [eassumption | is_args]).
    all: reflexivity.
  - start. run_all fw; view.
    all: intros [a Ha]; try discriminate Ha.
    all: main_built.
  - intros Hl. start. rewrite Hl. cbn [negb]. run_all fw; view.
    all: intros args [[s Hin]|Hin] Hr; in_cases.
    all: eapply main_not_rnc; [|exact Hr]; is_args.
Qed.

(** A run with both flags and [load_rnc_pretrain_params] set constructs the
    main solver. *)
Lemma main_solver_pretrained_model_path_witness :
  exists s args,
    In (Built s args)
       (solver_steps (log (exec Demo.quiet (train (Demo.config true true true "train" 0))
                               Demo.world)))
    /\ is_main_solver_args (Demo.config true true true "train" 0) args.
Proof.
  destruct (main_solver_pretrained_model_path Demo.quiet Demo.world
              (Demo.config true true true "train" 0)) as [_ [H _]].
  apply H. exists tt. vm_compute. reflexivity.
Defined.

(** C3. When [train(cfg)] completes, the calls on the main solver object are
    [train()] and then [eval()], each once, and [train()] has returned before
    [eval()] is called; in a run that does not complete, too, [eval()] on the
    main solver is never called unless [train()] on it has returned. *)
Theorem main_solver_train_then_eval :
  forall (fw : Framework) (w : World) (cfg : Config),
    let o := exec fw (train cfg) w in
    let steps := solver_steps (log o) in
    (completes o ->
     exists s args,
       In (Built s args) steps /\ is_main_solver_args cfg args
       /\ filter (method_on s) steps = [Trained s true; Evaluated s true])
    /\ (forall s args,
          In (Built s args) steps -> is_main_solver_args cfg args ->
          filter (method_on s) steps = []
          \/ filter (method_on s) steps = [Trained s false]
          \/ filter (method_on s) steps = [Trained s true]
          \/ exists ok, filter (method_on s) steps = [Trained s true; Evaluated s ok]).
Proof.
  intros fw w cfg o steps. subst o steps. split.
  - start. run_all fw; view.
    all: intros [a Ha]; try discriminate Ha.
    all: first
      [ do 2 eexists; split; [left; reflexivity | split; [is_args | reflexivity]]
      | do 2 eexists; split; [do 3 right; left; reflexivity | split; [is_args | reflexivity]] ].
  - start. run_all fw; view.
    all: intros s args Hin Hm; in_cases.
    all: try (exfalso; eapply main_not_rnc; [eassumption | is_args]).
    all: cbn [filter method_on obj_id Nat.eqb].
    all: first [ left; reflexivity
               | right; left; reflexivity
               | right; right; left; reflexivity
               | right; right; right; eexists; reflexivity ].
Qed.

(** A run that completes: [train()] and then [eval()] on the main solver. *)
Lemma main_solver_train_then_eval_witness :
  exists s args,
    In (Built s args)
       (solver_steps (log (exec Demo.quiet (train (Demo.config false false false "train" 0))
                               Demo.world)))
    /\ is_main_solver_args (Demo.config false false false "train" 0) args
    /\ filter (method_on s)
         (solver_steps (log (exec Demo.quiet (train (Demo.config false false false "train" 0))
                                 Demo.world)))
       = [Trained s true; Evaluated s true].
Proof.
  destruct (main_solver_train_then_eval Demo.quiet Demo.world
              (Demo.config false false false "train" 0)) as [H _].
  apply H. exists tt. vm_compute. reflexivity.
Defined.

(** *** The order of the steps of [train] *)

Lemma dict_get_app_absent (k : string) (d1 d2 : Py.dict) :
  Py.list_contains k (Py.dict_keys d1) = false ->
  Py.dict_get k (d1 ++ d2) = Py.dict_get k d2.
Proof.
  induction d1 as [|[k' v] d1 IH]; intros H; [reflexivity|].
  cbn in H. apply orb_false_iff in H. destruct H as [Hk H].
  cbn [app Py.dict_get]. rewrite Hk. apply IH. exact H.
Qed.

(** The keywords that [train] gives to [Cosine] in so many words reach it with
    the values [train] computes, as the call has no keyword twice. *)
Lemma cosine_kwargs_explicit (cfg : Config) (ITERS_PER_EPOCH warmup_epoch : Z) :
  repeated_keyword (LR.items (TRAIN.lr_scheduler (TRAIN cfg)))
    ["iters_per_epoch"; "eta_min"; "warmup_epoch"] = false ->
  Py.dict_get "iters_per_epoch" (cosine_kwargs cfg ITERS_PER_EPOCH warmup_epoch)
    = Some (Py.VInt ITERS_PER_EPOCH)
  /\ Py.dict_get "eta_min" (cosine_kwargs cfg ITERS_PER_EPOCH warmup_epoch)
     = Some (Py.VFloat (Py.float_mul (TRAIN.min_lr_ratio (TRAIN cfg))
                          (LR.learning_rate (TRAIN.lr_scheduler (TRAIN cfg)))))
  /\ Py.dict_get "warmup_epoch" (cosine_kwargs cfg ITERS_PER_EPOCH warmup_epoch)
     = Some (Py.VInt warmup_epoch).
Proof.
  unfold repeated_keyword. cbn [existsb]. rewrite !orb_false_iff.
  intros [H1 [H2 [H3 _]]]. unfold cosine_kwargs.
  rewrite !dict_get_app_absent by assumption. repeat split; reflexivity.
Qed.

Ltac pick :=
  multimatch goal with
  | |- In _ (_ :: _) => left; reflexivity
  | |- In _ (_ :: _) => right; pick
  end.

Ltac refute_in H :=
  repeat (destruct H as [H|H]; [subst; discriminate|]); destruct H.

(** C6. In every run of [train(cfg)], a step that constructs or calls a solver
    comes after these steps, which come in this order and have all returned:
    the constraint and the validator are built from the two dataloader
    dictionaries, the model is built from [cfg.MODEL] with the converted MOE
    and RNC nodes, the [Cosine] schedule is built with [iters_per_epoch] the
    length of the data loader of the training constraint and [warmup_epoch]
    the value of [int(0.2 * cfg.TRAIN.epochs)], and [AdamW] is built with the
    schedule and the parameter groups of the model.  A run that completes has
    such a solver step. *)
Theorem train_steps_in_order :
  forall (fw : Framework) (w : World) (cfg : Config),
    let o := exec fw (train cfg) w in
    ((exists e, In e (log o) /\ is_solver_action e = true) ->
     exists loss sup_constraint sup_constraint_name ITERS_PER_EPOCH loss' rmse
            sup_validator sup_validator_name moe_config rnc_config model
            warmup_epoch cosine lr_scheduler optimizer rest,
       map summary (log o) =
         (Do (FunctionalLoss train_extformer_moe_func), GaveObj loss)
         :: (Do (SupervisedConstraint (train_dataloader_cfg cfg) loss "Sup"),
             GaveObj sup_constraint)
         :: (Do (get_name sup_constraint), GaveStr sup_constraint_name)
         :: (Do (len_data_loader sup_constraint), GaveInt ITERS_PER_EPOCH)
         :: (Do (FunctionalLoss train_extformer_moe_func), GaveObj loss')
         :: (Do (FunctionalMetric eval_rmse_func), GaveObj rmse)
         :: (Do (SupervisedValidator (eval_dataloader_cfg cfg) loss' [("rmse", rmse)]
                   "Sup_Validator"), GaveObj sup_validator)
         :: (Do (get_name sup_validator), GaveStr sup_validator_name)
         :: (Do (OmegaConf_to_object (NodeMOE (MOE cfg))), GaveVal moe_config)
         :: (Do (OmegaConf_to_object (NodeRNC (RNC cfg))), GaveVal rnc_config)
         :: (Do (ExtFormerMoECuboid
                   (MODEL.items (MODEL cfg)
                    ++ [("moe_config", moe_config); ("rnc_config", rnc_config)])),
             GaveLayer model)
         :: (Do (Cosine (cosine_kwargs cfg ITERS_PER_EPOCH warmup_epoch)), GaveObj cosine)
         :: (Do (Cosine_call cosine), GaveObj lr_scheduler)
         :: (Do (AdamW lr_scheduler
                   (optimizer_grouped_parameters model (TRAIN.wd (TRAIN cfg)))),
             GaveObj optimizer)
         :: rest
       /\ warmup_epoch_of (TRAIN.epochs (TRAIN cfg)) = inr warmup_epoch
       /\ Py.dict_get "iters_per_epoch" (cosine_kwargs cfg ITERS_PER_EPOCH warmup_epoch)
          = Some (Py.VInt ITERS_PER_EPOCH)
       /\ Py.dict_get "warmup_epoch" (cosine_kwargs cfg ITERS_PER_EPOCH warmup_epoch)
          = Some (Py.VInt warmup_epoch))
    /\ Forall (fun e => is_solver_action e = false) (firstn 14 (log o))
    /\ (completes o -> exists e, In e (log o) /\ is_solver_action e = true).
Proof.
  intros fw w cfg o. subst o. split; [|split].
  - start. run_all fw.
    all: first
      [ intros _; do 16 eexists; split; [cbn [map summary action result]; reflexivity|];
        split; [reflexivity|];
        split; apply cosine_kwargs_explicit; assumption
      | intros [e0 [Hin Hs]]; exfalso; cbn [In] in Hin;
        repeat (destruct Hin as [Hin|Hin]; [subst e0; discriminate Hs|]); exact Hin ].
  - start. run_all fw.
    all: cbn [firstn]; repeat constructor.
  - start. run_all fw.
    all: intros [a Ha]; try discriminate Ha.
    all: eexists; split; [pick | reflexivity].
Qed.

(** A run of [train] that completes has solver steps, after the fourteen
    steps of the preamble. *)
Lemma train_steps_in_order_witness :
  exists e,
    In e (log (exec Demo.quiet (train (Demo.config true true false "train" 0)) Demo.world))
    /\ is_solver_action e = true.
Proof.
  destruct (train_steps_in_order Demo.quiet Demo.world
              (Demo.config true true false "train" 0)) as [_ [_ H]].
  apply H. exists tt. vm_compute. reflexivity.
Defined.

(** *** The dataloader dictionaries *)

(** The validator of the pretraining stage has the batch size of training. *)
Lemma rnc_eval_dataloader_cfg_batch_size (cfg : Config) :
  Py.dict_get "batch_size" (rnc_eval_dataloader_cfg cfg) = Some (TRAIN.batch_size (TRAIN cfg)).
Proof. reflexivity. Qed.

Ltac entries tac := repeat (apply Forall_cons; [tac|]); apply Forall_nil.

(** C7. The dataloader dictionaries of [train(cfg)] hold what the
    configuration holds: [data_dir] is [cfg.FILE_PATH], [input_keys] is
    [cfg.MODEL.input_keys], [label_keys] is [cfg.DATASET.label_keys]; the batch
    size of the dictionary of the training constraint is [cfg.TRAIN.batch_size]
    and that of the dictionary of the validator is [cfg.EVAL.batch_size].  In
    every run these are the dictionaries that the constraint and the validator
    of the main solver are built from. *)
Theorem dataloader_cfg_from_config :
  forall (cfg : Config),
    (Py.dict_get2 "dataset" "data_dir" (train_dataloader_cfg cfg) = Some (FILE_PATH cfg)
     /\ Py.dict_get2 "dataset" "input_keys" (train_dataloader_cfg cfg)
        = Some (MODEL.input_keys (MODEL cfg))
     /\ Py.dict_get2 "dataset" "label_keys" (train_dataloader_cfg cfg)
        = Some (DATASET.label_keys (DATASET cfg))
     /\ Py.dict_get "batch_size" (train_dataloader_cfg cfg)
        = Some (TRAIN.batch_size (TRAIN cfg)))
    /\ (Py.dict_get2 "dataset" "data_dir" (eval_dataloader_cfg cfg) = Some (FILE_PATH cfg)
        /\ Py.dict_get2 "dataset" "input_keys" (eval_dataloader_cfg cfg)
           = Some (MODEL.input_keys (MODEL cfg))
        /\ Py.dict_get2 "dataset" "label_keys" (eval_dataloader_cfg cfg)
           = Some (DATASET.label_keys (DATASET cfg))
        /\ Py.dict_get "batch_size" (eval_dataloader_cfg cfg)
           = Some (EVAL.batch_size (EVAL cfg)))
    /\ forall (fw : Framework) (w : World),
         let o := exec fw (train cfg) w in
         Forall (dataloader_cfg_ok cfg) (log o)
         /\ (forall s args,
               In (Built s args) (solver_steps (log o)) -> is_main_solver_args cfg args ->
               exists cname c vname v loss loss' metric,
                 sa_constraint args = Some [(cname, c)]
                 /\ sa_validator args = [(vname, v)]
                 /\ built_by (log o) c
                    = Some (SupervisedConstraint (train_dataloader_cfg cfg) loss "Sup")
                 /\ built_by (log o) v
                    = Some (SupervisedValidator (eval_dataloader_cfg cfg) loss' metric
                              "Sup_Validator")).
Proof.
  intros cfg. split; [|split].
  - repeat split; reflexivity.
  - repeat split; reflexivity.
  - intros fw w o. subst o. split.
    + start. run_all fw.
      all: entries ltac:(unfold dataloader_cfg_ok; cbn [action];
                          first [exact I | reflexivity | left; split; reflexivity
                                | right; split; reflexivity]).
    + start. run_all fw.
      all: intros s args Hin Hm; cbn [solver_steps solver_step action result returned] in Hin;
        in_cases.
      all: try (exfalso; eapply main_not_rnc; [eassumption | is_args]).
      all: do 7 eexists; split; [reflexivity|]; split; [reflexivity|]; split; reflexivity.
Qed.

(** *** What the driver itself does *)

Lemma chained_app (w : World) (l1 l2 : list Entry) :
  chained w l1 -> chained (ends w l1) l2 -> chained w (l1 ++ l2).
Proof.
  revert w. induction l1 as [|e l1 IH]; intros w H1 H2; cbn [app chained ends] in *.
  - exact H2.
  - destruct H1 as [Hb H1]. split; [exact Hb|]. apply IH; assumption.
Qed.

Lemma ends_app (w : World) (l1 l2 : list Entry) :
  ends w (l1 ++ l2) = ends (ends w l1) l2.
Proof.
  revert w. induction l1 as [|e l1 IH]; intros w; cbn [app ends]; [reflexivity | apply IH].
Qed.

(** In a run of any program the states form a chain: a step starts in the
    state the step before it left, and the run ends in the state its last step
    left.  So the state changes inside the steps of the log and nowhere else. *)
Lemma run_chained {A : Type} (fw : Framework) (p : Prog A) :
  forall (w0 : World) (hist : list Entry) (w : World),
    chained w0 hist -> ends w0 hist = w ->
    chained w0 (log (run fw p hist w)) /\ ends w0 (log (run fw p hist w)) = final (run fw p hist w).
Proof.
  induction p as [a|e|c k IH|target attr v k IH]; intros w0 hist w Hc He.
  - cbn. split; assumption.
  - cbn. split; assumption.
  - rewrite run_Ext. destruct (fw c hist w) as [[e|d] w'].
    + cbn [log final]. split.
      * apply chained_app; [exact Hc|]. rewrite He. cbn. split; [reflexivity | exact I].
      * rewrite ends_app. reflexivity.
    + apply IH.
      * apply chained_app; [exact Hc|]. rewrite He. cbn. split; [reflexivity | exact I].
      * rewrite ends_app. reflexivity.
  - rewrite run_SetAttr. apply IH.
    + apply chained_app; [exact Hc|]. rewrite He. cbn. split; [reflexivity | exact I].
    + rewrite ends_app. reflexivity.
Qed.

Ltac is_model := unfold is_model_of; do 2 eexists; split; [pick | split; reflexivity].

Ltac own_write :=
  unfold own_write_ok; cbn [action before after];
  first [ exact I
        | split; [reflexivity|]; split; [eexists; reflexivity|];
          split; [is_model|]; split; reflexivity ].

Ltac wrappers :=
  unfold wrappers_ok; cbn [action];
  first [ exact I
        | eexists; reflexivity
        | split; [eexists; reflexivity | repeat constructor; eexists; reflexivity] ].

Ltac in_calls_only :=
  unfold changes_in_calls_only; cbn [action before after];
  first [ intros _; eexists; reflexivity
        | intros Hc; exfalso; apply Hc; reflexivity ].

Ltac handed :=
  unfold handed_model_ok; cbn [action sa_model rnc_solver_args main_solver_args];
  first [ exact I
        | is_model
        | eexists; split; [is_model | reflexivity] ].

(** C8, as amended. In every run of [train(cfg)] the state changes only
    inside the steps of the log; a step is a call into the framework or an
    assignment of the driver; every assignment of the driver sets the
    attribute [rnc_pretrain_flag] of the model that the run constructed to a
    [bool] and leaves the value of every parameter as it was, so a step that
    changes the value of a parameter is a call into the framework; the
    framework is handed the model in the [Solver] constructors and its
    parameters in [AdamW]; no step evaluates a loss or metric function of
    [enso_metric]; and every loss handed to a constraint or validator is a
    [FunctionalLoss] wrapper, every metric a [FunctionalMetric] wrapper.  In a
    run that completes the assignments of the driver are: the flag set to
    [True] when the pretraining stage runs, then the flag set to [False]. *)
Theorem driver_frame :
  forall (fw : Framework) (w : World) (cfg : Config),
    let o := exec fw (train cfg) w in
    (chained w (log o) /\ ends w (log o) = final o)
    /\ Forall (own_write_ok (log o)) (log o)
    /\ Forall (wrappers_ok (log o)) (log o)
    /\ Forall changes_in_calls_only (log o)
    /\ Forall (handed_model_ok cfg (log o)) (log o)
    /\ (completes o ->
        exists model, is_model_of (log o) model
                      /\ own_writes (log o) = train_writes cfg model).
Proof.
  intros fw w cfg o. subst o. split; [|split; [|split; [|split; [|split]]]].
  - apply run_chained; [exact I | reflexivity].
  - start. run_all fw.
    all: entries own_write.
  - start. run_all fw.
    all: entries wrappers.
  - start. run_all fw.
    all: entries in_calls_only.
  - start. run_all fw.
    all: entries handed.
  - unfold train_writes. start. run_all fw.
    all: intros [a Ha]; try discriminate Ha.
    all: eexists; split; [is_model | reflexivity].
Qed.

(** C8, as it was stated, fails: a call into the framework other than
    [train()] and [eval()] can change parameter values.  Against
    [Demo2.loading], whose [Solver] constructor loads the checkpoint that
    [train] hands to it as [pretrained_model_path], the run of [train]
    completes and the construction of the main solver changes the value of a
    parameter. *)
Lemma solver_constructor_loads_parameters :
  completes (exec Demo2.loading (train (Demo.config true true true "train" 0)) Demo.world)
  /\ exists e args,
       nth_error (log (exec Demo2.loading (train (Demo.config true true true "train" 0))
                            Demo.world)) 17 = Some e
       /\ action e = Do (Solver args)
       /\ is_main_solver_args (Demo.config true true true "train" 0) args
       /\ param_values (before e) 15 = Py.VNone
       /\ param_values (after e) 15
          = Py.VStr (rnc_checkpoint (Demo.config true true true "train" 0))
       /\ ~ parameters_kept e.
Proof.
  split; [exists tt; vm_compute; reflexivity|].
  do 2 eexists. split; [vm_compute; reflexivity|].
  split; [reflexivity|]. split.
  - do 7 eexists. vm_compute. reflexivity.
  - split; [reflexivity|]. split; [vm_compute; reflexivity|].
    unfold parameters_kept. cbn [action is_train_or_eval before after param_values].
    intros H. apply (f_equal (fun f => f 15)) in H. vm_compute in H. discriminate H.
Qed.

(** *** Evaluation and dispatch *)

Ltac eval_only :=
  unfold evaluation_only; cbn [action];
  first [ exact I
        | split; reflexivity
        | split; [reflexivity|]; split; [reflexivity|]; split; reflexivity ].

Ltac validators_on_eval :=
  cbn [action]; first [exact I | reflexivity].

Ltac eval_wired_case :=
  unfold eval_wired; do 5 eexists;
  split; [reflexivity|]; split; [is_model|];
  cbn [map summary action result];
  repeat (split; [first [reflexivity | pick]|]); first [reflexivity | pick].

Ltac on_split :=
  unfold validator_on_split; do 6 eexists;
  cbn [sa_validator eval_solver_args rnc_solver_args main_solver_args];
  split; [reflexivity|]; split; reflexivity.

(** C9. In every run of [evaluate(cfg)] no constraint, optimizer or schedule is
    built and no [train()] is called; every solver that the run builds, or
    tries to build, is built without constraint and optimizer, on the model
    that the run constructed and on one validator, the one built with the name
    ["Sup_Validator"] over the dictionary of [evaluate], whose data set has
    ["training": "test"]; a run that completes builds one such solver and
    calls its [eval()], nothing else on it.  In a run of [train(cfg)] every
    validator is built on the ["eval"] split, and the validator of every
    solver is such a validator.  In a run of [main(cfg)] with [cfg.mode] equal
    to ["eval"] no [train()] is called, and a run that completes builds the
    solver of [evaluate] and calls its [eval()] only. *)
Theorem evaluate_only_evaluates :
  forall (fw : Framework) (w : World) (cfg : Config),
    (let o := exec fw (evaluate cfg) w in
     Forall (evaluation_only cfg) (log o)
     /\ (forall s ok, ~ In (Trained s ok) (solver_steps (log o)))
     /\ (completes o ->
         exists s model validator,
           solver_steps (log o) =
             [Built s (eval_solver_args cfg model validator); Evaluated s true])
     /\ (forall args,
           (exists s, In (Built s args) (solver_steps (log o)))
           \/ In (BuildFailed args) (solver_steps (log o)) ->
           eval_wired cfg (log o) args /\ validator_on_split (log o) args "test")
     /\ (completes o ->
         exists s args,
           solver_steps (log o) = [Built s args; Evaluated s true]
           /\ eval_wired cfg (log o) args
           /\ validator_on_split (log o) args "test"))
    /\ Forall (fun e => match action e with
                        | Do (SupervisedValidator d _ _ _) =>
                            Py.dict_get2 "dataset" "training" d = Some (Py.VStr "eval")
                        | _ => True
                        end) (log (exec fw (train cfg) w))
    /\ (let o := exec fw (train cfg) w in
        (forall args,
           (exists s, In (Built s args) (solver_steps (log o)))
           \/ In (BuildFailed args) (solver_steps (log o)) ->
           validator_on_split (log o) args "eval")
        /\ (completes o ->
            exists s args,
              In (Built s args) (solver_steps (log o))
              /\ is_main_solver_args cfg args
              /\ validator_on_split (log o) args "eval"))
    /\ (mode cfg = "eval" ->
        forall s ok, ~ In (Trained s ok) (solver_steps (log (exec fw (main cfg) w))))
    /\ (mode cfg = "eval" ->
        let o := exec fw (main cfg) w in
        completes o ->
        exists s args,
          solver_steps (log o) = [Built s args; Evaluated s true]
          /\ eval_wired cfg (log o) args
          /\ validator_on_split (log o) args "test").
Proof.
  intros fw w cfg. split; [|split; [|split; [|split]]].
  - cbv zeta. split; [|split; [|split; [|split]]].
    + start. run_all fw. all: entries eval_only.
    + start. run_all fw; view. all: intros s ok Hin; in_cases.
    + start. run_all fw; view.
      all: intros [a Ha]; try discriminate Ha.
      all: do 3 eexists; reflexivity.
    + start. run_all fw.
      all: intros args [[s Hin]|Hin];
        cbn [solver_steps solver_step action result returned] in Hin; in_cases.
      all: split; [eval_wired_case | on_split].
    + start. run_all fw.
      all: intros [a Ha]; try discriminate Ha.
      all: do 2 eexists; cbn [solver_steps solver_step action result returned];
        split; [reflexivity|]; split; [eval_wired_case | on_split].
  - start. run_all fw. all: entries validators_on_eval.
  - cbv zeta. split.
    + start. run_all fw.
      all: intros args [[s Hin]|Hin];
        cbn [solver_steps solver_step action result returned] in Hin; in_cases.
      all: on_split.
    + start. run_all fw.
      all: intros [a Ha]; try discriminate Ha.
      all: do 2 eexists; cbn [solver_steps solver_step action result returned];
        split; [pick|]; split; [is_args | on_split].
  - intros Hmode. start. rewrite Hmode. run_all fw; view.
    all: intros s ok Hin; in_cases.
  - intros Hmode. cbv zeta. start. rewrite Hmode. run_all fw.
    all: intros [a Ha]; try discriminate Ha.
    all: do 2 eexists; cbn [solver_steps solver_step action result returned];
      split; [reflexivity|]; split; [eval_wired_case | on_split].
Qed.

(** A run of [evaluate] that completes: one solver on the validator of the
    ["test"] split, one [eval()]. *)
Lemma evaluate_only_evaluates_witness :
  exists s args,
    solver_steps (log (exec Demo.quiet (evaluate (Demo.config true true false "eval" (-1)))
                            Demo.world))
    = [Built s args; Evaluated s true]
    /\ eval_wired (Demo.config true true false "eval" (-1))
         (log (exec Demo.quiet (evaluate (Demo.config true true false "eval" (-1)))
                    Demo.world)) args
    /\ validator_on_split
         (log (exec Demo.quiet (evaluate (Demo.config true true false "eval" (-1)))
                    Demo.world)) args "test".
Proof.
  destruct (evaluate_only_evaluates Demo.quiet Demo.world
              (Demo.config true true false "eval" (-1))) as [[_ [_ [_ [_ H]]]] _].
  apply H. exists tt. vm_compute. reflexivity.
Defined.

Lemma device_of_cpu (cfg : Config) : device_of cfg = "cpu" <-> DEVICE cfg = (-1)%Z.
Proof.
  unfold device_of. destruct (Z.eqb_spec (DEVICE cfg) (-1)) as [E|E]; cbn [negb].
  - split; [intros _; exact E | reflexivity].
  - split; [intros H; discriminate H | intros H; contradiction].
Qed.

(** C10. [main(cfg)] first sets the paddle device, to ['cpu'] exactly when
    [cfg.DEVICE] is [-1] and to [f'gpu:{cfg.DEVICE}'] otherwise.  If that call
    raises, nothing else is done.  Otherwise [main] goes on as [train(cfg)]
    when [cfg.mode] is ["train"], as [evaluate(cfg)] when it is ["eval"], and
    for every other value of [cfg.mode] it raises [ValueError] and does nothing
    else. *)
Theorem main_dispatch :
  forall (fw : Framework) (w : World) (cfg : Config),
    (device_of cfg = "cpu" <-> DEVICE cfg = (-1)%Z)
    /\ (DEVICE cfg <> (-1)%Z ->
        device_of cfg = ("gpu:" ++ Py.str_of_int (DEVICE cfg))%string)
    /\ match fw (set_device (device_of cfg)) [] w with
       | (inl e, w') =>
           exec fw (main cfg) w =
           {| log := [ {| action := Do (set_device (device_of cfg)); result := Raised e;
                          before := w; after := w' |} ];
              final := w'; value := inl e |}
       | (inr _, w') =>
           let first := {| action := Do (set_device (device_of cfg)); result := Done;
                           before := w; after := w' |} in
           (mode cfg = "train" -> exec fw (main cfg) w = run fw (train cfg) [first] w')
           /\ (mode cfg = "eval" -> exec fw (main cfg) w = run fw (evaluate cfg) [first] w')
           /\ (mode cfg <> "train" -> mode cfg <> "eval" ->
               exec fw (main cfg) w =
               {| log := [first]; final := w'; value := inl (ValueError_mode cfg) |}
               /\ exn_class (ValueError_mode cfg) = "ValueError"
               /\ exn_msg (ValueError_mode cfg) =
                  ("cfg.mode should in ['train', 'eval'], but got '" ++ mode cfg ++ "'")%string)
       end.
Proof.
  intros fw w cfg. split; [apply device_of_cpu|]. split.
  - intros H. unfold device_of. destruct (Z.eqb_spec (DEVICE cfg) (-1)); [contradiction|].
    reflexivity.
  - unfold exec, main, call. cbn [bind]. rewrite run_Ext.
    destruct (fw (set_device (device_of cfg)) [] w) as [[e|d] w']; [reflexivity|].
    cbn [complete kind Datatypes.length Datatypes.app result_of]. cbv zeta.
    split; [|split].
    + intros ->. reflexivity.
    + intros ->. reflexivity.
    + intros H1 H2.
      destruct (String.eqb_spec (mode cfg) "train") as [E|_]; [contradiction|].
      destruct (String.eqb_spec (mode cfg) "eval") as [E|_]; [contradiction|].
      repeat split; reflexivity.
Qed.

(** A run of [main] with a mode that is neither ["train"] nor ["eval"]: the
    device is set, and [ValueError] is raised. *)
Lemma main_dispatch_witness :
  value (exec Demo.quiet (main (Demo.config true true false "export" 0)) Demo.world)
  = inl (mkExn "ValueError" "cfg.mode should in ['train', 'eval'], but got 'export'")
  /\ map summary (log (exec Demo.quiet (main (Demo.config true true false "export" 0))
                            Demo.world))
     = [(Do (set_device "gpu:0"), Done)].
Proof.
  pose proof (main_dispatch Demo.quiet Demo.world (Demo.config true true false "export" 0))
    as [_ [_ H]].
  cbv zeta in H. cbn [Demo.quiet] in H.
  destruct H as [_ [_ H]].
  destruct H as [H _]; [discriminate | discriminate |].
  rewrite H. split; reflexivity.
Defined.
(* ===================================================================== *)
(** ** More about the module tree and the optimizer groups *)
(* ===================================================================== *)

Lemma sublayers_over_fix (prefix : string) (items : list (string * option Layer))
  (layers_set : list nat) :
  (fix over (items : list (string * option Layer)) (layers_set : list nat)
     : list (string * Layer) * list nat :=
     match items with
     | [] => ([], layers_set)
     | (_, None) :: rest => over rest layers_set
     | (key, Some layer) :: rest =>
         let '(out1, set1) := named_sublayers (join_prefix prefix key) layer layers_set in
         let '(out2, set2) := over rest set1 in
         (out1 ++ out2, set2)
     end) items layers_set
  = sublayers_over prefix items layers_set.
Proof.
  revert layers_set. induction items as [|[key [child|]] rest IH]; intros layers_set.
  - reflexivity.
  - cbn [sublayers_over].
    destruct (named_sublayers (join_prefix prefix key) child layers_set) as [out1 set1].
    rewrite IH. reflexivity.
  - cbn [sublayers_over]. apply IH.
Qed.

Lemma layers_over_fix (items : list (string * option Layer)) :
  (fix over (items : list (string * option Layer)) : list Layer :=
     match items with
     | [] => []
     | (_, None) :: rest => over rest
     | (_, Some child) :: rest => all_layers child ++ over rest
     end) items
  = layers_over items.
Proof.
  induction items as [|[key [child|]] rest IH].
  - reflexivity.
  - cbn [layers_over]. rewrite IH. reflexivity.
  - cbn [layers_over]. apply IH.
Qed.

Lemma named_sublayers_unfold (prefix : string) (self : Layer) (layers_set : list nat) :
  named_sublayers prefix self layers_set =
  let here :=
    if Py.id_in (layer_id self) layers_set then ([], layers_set)
    else ([(prefix, self)], layer_id self :: layers_set) in
  let '(out, set') := sublayers_over prefix (_sub_layers self) (snd here) in
  (fst here ++ out, set').
Proof.
  destruct self as [id mro ps subs]. cbn [_sub_layers layer_id].
  rewrite <- sublayers_over_fix. reflexivity.
Qed.

Lemma all_layers_unfold (model : Layer) :
  all_layers model = model :: layers_over (_sub_layers model).
Proof.
  destruct model as [id mro ps subs]. cbn [_sub_layers].
  rewrite <- layers_over_fix. reflexivity.
Qed.

Lemma in_layers_over (items : list (string * option Layer)) (k : string) (c x : Layer) :
  In (k, Some c) items -> In x (all_layers c) -> In x (layers_over items).
Proof.
  induction items as [|[k' [c'|]] rest IH]; intros Hin Hx; cbn [layers_over].
  - contradiction.
  - apply in_or_app. destruct Hin as [E|Hin].
    + injection E as -> ->. left. exact Hx.
    + right. apply IH; assumption.
  - destruct Hin as [E|Hin]; [discriminate E|]. apply IH; assumption.
Qed.

(** The set of seen layers only grows, and after a layer was walked it holds
    the identity of every layer of its tree. *)
Lemma named_sublayers_set (model : Layer) :
  forall prefix layers_set,
    (forall i, In i layers_set -> In i (snd (named_sublayers prefix model layers_set)))
    /\ (forall x, In x (all_layers model) ->
          In (layer_id x) (snd (named_sublayers prefix model layers_set))).
Proof.
  induction model as [id mro ps subs IH] using Layer_tree_ind.
  intros prefix layers_set. rewrite named_sublayers_unfold, all_layers_unfold.
  cbn [_sub_layers layer_id]. cbv zeta.
  set (set1 := snd (if Py.id_in id layers_set then ([], layers_set)
                    else ([(prefix, mkLayer id mro ps subs)], id :: layers_set))).
  assert (H1 : (forall i, In i layers_set -> In i set1) /\ In id set1).
  { subst set1. destruct (Py.id_in id layers_set) eqn:E; cbn [snd].
    - split; [tauto | apply id_in_In; exact E].
    - split; [intros i Hi; right; exact Hi | left; reflexivity]. }
  assert (Hover : forall set0,
             (forall i, In i set0 -> In i (snd (sublayers_over prefix subs set0)))
             /\ (forall x, In x (layers_over subs) ->
                   In (layer_id x) (snd (sublayers_over prefix subs set0)))).
  { clear H1 set1. induction subs as [|[key [child|]] rest IHr]; intros set0;
      cbn [sublayers_over layers_over].
    - split; [tauto | contradiction].
    - inversion IH as [|? ? Hc Hrest]; subst. cbn [snd] in Hc.
      specialize (Hc (join_prefix prefix key) set0).
      destruct (named_sublayers (join_prefix prefix key) child set0) as [out1 s1].
      specialize (IHr Hrest s1).
      destruct (sublayers_over prefix rest s1) as [out2 s2]. cbn [snd] in *.
      destruct Hc as [Hc1 Hc2]. destruct IHr as [Hr1 Hr2]. split.
      + intros i Hi. apply Hr1, Hc1, Hi.
      + intros x Hx. apply in_app_or in Hx. destruct Hx as [Hx|Hx].
        * apply Hr1, Hc2, Hx.
        * apply Hr2, Hx.
    - inversion IH as [|? ? Hc Hrest]; subst. apply (IHr Hrest). }
  specialize (Hover set1).
  destruct (sublayers_over prefix subs set1) as [out set']. cbn [snd] in *.
  destruct H1 as [H1a H1b]. destruct Hover as [Ho1 Ho2]. split.
  - intros i Hi. apply Ho1, H1a, Hi.
  - intros x [<-|Hx]; [apply Ho1; exact H1b | apply Ho2, Hx].
Qed.

(** A layer whose tree was seen yields nothing. *)
Lemma named_sublayers_seen (model : Layer) :
  forall prefix layers_set,
    (forall x, In x (all_layers model) -> In (layer_id x) layers_set) ->
    named_sublayers prefix model layers_set = ([], layers_set).
Proof.
  induction model as [id mro ps subs IH] using Layer_tree_ind.
  intros prefix layers_set Hseen. rewrite named_sublayers_unfold.
  rewrite all_layers_unfold in Hseen. cbn [_sub_layers layer_id] in *. cbv zeta.
  assert (Hid : Py.id_in id layers_set = true).
  { apply id_in_In. apply (Hseen (mkLayer id mro ps subs)). left. reflexivity. }
  rewrite Hid. cbn [fst snd].
  assert (Hover : sublayers_over prefix subs layers_set = ([], layers_set)).
  { assert (Hsub : forall x, In x (layers_over subs) -> In (layer_id x) layers_set).
    { intros x Hx. apply Hseen. right. exact Hx. }
    clear Hseen Hid. induction subs as [|[key [child|]] rest IHr]; cbn [sublayers_over].
    - reflexivity.
    - inversion IH as [|? ? Hc Hrest]; subst. cbn [snd] in Hc.
      rewrite (Hc (join_prefix prefix key) layers_set).
      + rewrite (IHr Hrest).
        * reflexivity.
        * intros x Hx. apply Hsub. cbn [layers_over]. apply in_or_app. right. exact Hx.
      + intros x Hx. apply Hsub. cbn [layers_over]. apply in_or_app. left. exact Hx.
    - inversion IH as [|? ? Hc Hrest]; subst. apply (IHr Hrest).
      intros x Hx. apply Hsub. exact Hx. }
  rewrite Hover. reflexivity.
Qed.

Lemma all_layers_self (model : Layer) : In model (all_layers model).
Proof. rewrite all_layers_unfold. left. reflexivity. Qed.

Lemma coherent_child (model : Layer) (k : string) (c : Layer) :
  coherent model -> In (k, Some c) (_sub_layers model) -> coherent c.
Proof.
  intros Hc Hin l1 l2 H1 H2 Heq.
  apply Hc; [| |exact Heq]; rewrite all_layers_unfold; right;
    apply (in_layers_over _ k c); assumption.
Qed.

(** What [named_sublayers] yields lies at the end of a chain of children, as
    [named_children] yields them, as long as an identity is the identity of one
    layer. *)
Lemma named_sublayers_chain (model : Layer) :
  forall prefix layers_set layer_prefix sublayer,
    coherent model ->
    In (layer_prefix, sublayer) (fst (named_sublayers prefix model layers_set)) ->
    exists chain,
      chain_from model chain
      /\ sublayer = last (map snd chain) model
      /\ layer_prefix = fold_left join_prefix (map fst chain) prefix.
Proof.
  induction model as [id mro ps subs IH] using Layer_tree_ind.
  intros prefix layers_set layer_prefix sublayer Hcoh Hin.
  rewrite named_sublayers_unfold in Hin. cbn [_sub_layers layer_id] in Hin. cbv zeta in Hin.
  set (self := mkLayer id mro ps subs) in *.
  set (here := if Py.id_in id layers_set then ([], layers_set)
               else ([(prefix, self)], id :: layers_set)) in Hin.
  assert (Hover : forall items memo set0,
             (forall k o, In (k, o) items -> In (k, o) subs) ->
             (forall k c, In (k, Some c) items -> In (layer_id c) memo ->
                forall x, In x (all_layers c) -> In (layer_id x) set0) ->
             In (layer_prefix, sublayer) (fst (sublayers_over prefix items set0)) ->
             exists key c chain,
               In (key, c) (children_from items memo)
               /\ chain_from c chain
               /\ sublayer = last (map snd chain) c
               /\ layer_prefix = fold_left join_prefix (map fst chain) (join_prefix prefix key)).
  { induction items as [|[key [child|]] rest IHr]; intros memo set0 Hsub Hinv Hi;
      cbn [sublayers_over children_from] in *.
    - contradiction.
    - assert (Hchild : In (key, Some child) subs) by (apply Hsub; left; reflexivity).
      pose proof (named_sublayers_set child (join_prefix prefix key) set0) as [Hmono Hcover].
      destruct (Py.id_in (layer_id child) memo) eqn:Ememo.
      + rewrite (named_sublayers_seen child) in Hi.
        * cbn [app] in Hi. destruct (sublayers_over prefix rest set0) as [out2 s2] eqn:E2.
          cbn [fst] in Hi. apply (IHr memo set0).
          -- intros k o Hko. apply Hsub. right. exact Hko.
          -- intros k c Hkc. apply (Hinv k c). right. exact Hkc.
          -- rewrite E2. exact Hi.
        * apply (Hinv key child); [left; reflexivity | apply id_in_In; exact Ememo].
      + destruct (named_sublayers (join_prefix prefix key) child set0) as [out1 s1] eqn:E1.
        destruct (sublayers_over prefix rest s1) as [out2 s2] eqn:E2.
        cbn [fst snd] in *. apply in_app_or in Hi. destruct Hi as [Hi|Hi].
        * rewrite Forall_forall in IH. specialize (IH _ Hchild). cbn [snd] in IH.
          destruct (IH (join_prefix prefix key) set0 layer_prefix sublayer) as (chain & Hc1 & Hc2 & Hc3).
          -- apply (coherent_child self key child Hcoh Hchild).
          -- rewrite E1. exact Hi.
          -- exists key, child, chain. split; [left; reflexivity|]. split; [exact Hc1|].
             split; assumption.
        * destruct (IHr (layer_id child :: memo) s1) as (k & c & chain & Hk & Hc).
          -- intros k o Hko. apply Hsub. right. exact Hko.
          -- intros k c Hkc Hmem x Hx. destruct Hmem as [Heq|Hmem].
             ++ assert (c = child) as ->.
                { apply Hcoh; [| |symmetry; exact Heq].
                  - subst self. rewrite all_layers_unfold. right. cbn [_sub_layers].
                    apply (in_layers_over subs k c c); [apply Hsub; right; exact Hkc|].
                    apply all_layers_self.
                  - subst self. rewrite all_layers_unfold. right. cbn [_sub_layers].
                    apply (in_layers_over subs key child child Hchild). apply all_layers_self. }
                apply Hcover. exact Hx.
             ++ apply Hmono. apply (Hinv k c); [right; exact Hkc | exact Hmem | exact Hx].
          -- rewrite E2. exact Hi.
          -- exists k, c, chain. split; [right; exact Hk | exact Hc].
    - apply (IHr memo set0).
      + intros k o Hko. apply Hsub. right. exact Hko.
      + intros k c Hkc. apply (Hinv k c). right. exact Hkc.
      + exact Hi. }
  destruct (sublayers_over prefix subs (snd here)) as [out set'] eqn:Eo. cbn [fst] in Hin.
  apply in_app_or in Hin. destruct Hin as [Hin|Hin].
  - exists []. cbn. subst here. destruct (Py.id_in id layers_set); cbn in Hin; [contradiction|].
    destruct Hin as [Heq|[]]. injection Heq as <- <-. repeat split; reflexivity.
  - destruct (Hover subs [] (snd here)) as (key & c & chain & Hk & Hc1 & Hc2 & Hc3).
    + tauto.
    + intros k c _ [].
    + rewrite Eo. exact Hin.
    + exists ((key, c) :: chain). split; [|split].
      * cbn [chain_from]. split; [exact Hk | exact Hc1].
      * cbn [map snd]. rewrite last_cons_default. exact Hc2.
      * cbn [map fst fold_left]. exact Hc3.
Qed.

Lemma chain_descend (chain : list (string * Layer)) :
  forall model, well_named model = true -> chain_from model chain ->
    descend model (map fst chain) = Some (map snd chain).
Proof.
  induction chain as [|[name child] rest IH]; intros model Hwf Hch; [reflexivity|].
  cbn [chain_from] in Hch. destruct Hch as [Hin Hrest].
  apply children_from_In in Hin. cbn [fst snd] in Hin.
  destruct (well_named_inv model Hwf) as [_ [Hdist Hsubs]].
  destruct (Hsubs _ _ Hin) as [_ [_ Hc]].
  cbn [map fst snd descend]. unfold sub_layer.
  rewrite (sub_layer_in_distinct _ _ _ Hdist Hin).
  rewrite (IH child (Hc child eq_refl) Hrest). reflexivity.
Qed.

Lemma chain_slot (chain : list (string * Layer)) (key : string) :
  forall model, chain_from model chain ->
    In key (map fst (_parameters (last (map snd chain) model))) ->
    In (chain, key) (parameter_slots model).
Proof.
  induction chain as [|[name child] rest IH]; intros model Hch Hkey;
    rewrite parameter_slots_unfold; apply in_or_app.
  - right. cbn [map last] in Hkey. apply (in_map (fun key => ([], key))). exact Hkey.
  - left. cbn [chain_from] in Hch. destruct Hch as [Hin Hrest].
    apply in_flat_map. exists (name, child). split; [exact Hin|].
    cbn [map snd] in Hkey. rewrite last_cons_default in Hkey.
    apply (in_map (fun s : Slot => ((name, child) :: fst s, snd s)) _ (rest, key)).
    apply (IH child Hrest Hkey).
Qed.

Lemma qualified_parameter_name (chain : list (string * Layer)) (key : string) :
  Forall (fun k => Py.str_truthy k = true) (map fst chain) ->
  qualified_name (chain, key) = parameter_name (map fst chain) key.
Proof.
  induction chain as [|[name child] rest IH]; intros Ht.
  - reflexivity.
  - cbn [map fst] in Ht. inversion Ht as [|? ? Hk Hrest]; subst.
    cbn [map fst]. rewrite (parameter_name_cons name _ key Hk Hrest).
    rewrite <- (IH Hrest). reflexivity.
Qed.

Lemma through_forbidden_layers (forbidden_layer_types : list string)
  (chain : list (string * Layer)) (key : string) :
  through_forbidden forbidden_layer_types (chain, key) =
  existsb (fun l => isinstance l forbidden_layer_types) (map snd chain).
Proof.
  unfold through_forbidden. cbn [fst].
  induction chain as [|step rest IH]; [reflexivity|].
  cbn [existsb map]. rewrite IH. reflexivity.
Qed.

(** The names along a path that [descend] can follow have no dot. *)
Lemma descend_dot_free (path : list string) :
  forall model layers, well_named model = true -> descend model path = Some layers ->
    Forall (fun k => dot_free k = true) path
    /\ forall key, In key (map fst (_parameters (last layers model))) -> dot_free key = true.
Proof.
  induction path as [|k path IH]; intros model layers Hwf Hd.
  - cbn in Hd. injection Hd as <-. split; [constructor|].
    cbn [last]. apply (well_named_inv model Hwf).
  - cbn [descend] in Hd. destruct (sub_layer k model) as [child|] eqn:Hsub; [|discriminate].
    destruct (descend child path) as [layers'|] eqn:Hd'; [|discriminate].
    cbn in Hd. injection Hd as <-.
    apply sub_layer_in_In in Hsub.
    destruct (well_named_inv model Hwf) as [_ [_ Hsubs]].
    destruct (Hsubs _ _ Hsub) as [_ [Hdf Hc]].
    destruct (IH child layers' (Hc child eq_refl) Hd') as [Hp Hk].
    split; [constructor; assumption|].
    rewrite last_cons_default. exact Hk.
Qed.

(** A name spells one path and one key, when no part has a dot. *)
Lemma parameter_name_inj (path : list string) :
  forall path' key key',
    Forall (fun k => Py.str_truthy k = true) path -> Forall (fun k => dot_free k = true) path ->
    Forall (fun k => Py.str_truthy k = true) path' -> Forall (fun k => dot_free k = true) path' ->
    dot_free key = true -> dot_free key' = true ->
    parameter_name path key = parameter_name path' key' ->
    path = path' /\ key = key'.
Proof.
  induction path as [|k path IH]; intros [|k' path'] key key' Ht Hd Ht' Hd' Hk Hk' Heq.
  - split; [reflexivity | exact Heq].
  - inversion Ht' as [|? ? Hk't Hrest]; subst.
    rewrite (parameter_name_cons k' path' key' Hk't Hrest) in Heq.
    change (parameter_name [] key) with key in Heq.
    rewrite Heq, dotted_not_dot_free in Hk. discriminate Hk.
  - inversion Ht as [|? ? Hkt Hrest]; subst.
    rewrite (parameter_name_cons k path key Hkt Hrest) in Heq.
    change (parameter_name [] key') with key' in Heq.
    rewrite <- Heq, dotted_not_dot_free in Hk'. discriminate Hk'.
  - inversion Ht as [|? ? Hkt Hrest]; subst. inversion Ht' as [|? ? Hk't Hrest']; subst.
    inversion Hd as [|? ? Hkd Hdrest]; subst. inversion Hd' as [|? ? Hk'd Hdrest']; subst.
    rewrite (parameter_name_cons k path key Hkt Hrest) in Heq.
    rewrite (parameter_name_cons k' path' key' Hk't Hrest') in Heq.
    destruct (dotted_split _ _ _ _ Hkd Hk'd Heq) as [-> Htail].
    destruct (IH path' key key' Hrest Hdrest Hrest' Hdrest' Hk Hk' Htail) as [-> ->].
    split; reflexivity.
Qed.

Lemma NoDup_snd_fst {A B : Type} (l : list (A * B)) (a a' : A) (b : B) :
  NoDup (map snd l) -> In (a, b) l -> In (a', b) l -> a = a'.
Proof.
  induction l as [|[x y] l IH]; intros Hnd H1 H2; [contradiction|].
  cbn [map snd] in Hnd. inversion Hnd as [|? ? Hy Hnd']; subst.
  destruct H1 as [E1|H1]; destruct H2 as [E2|H2].
  - congruence.
  - injection E1 as -> ->. contradiction Hy. apply (in_map snd _ _ H2).
  - injection E2 as -> ->. contradiction Hy. apply (in_map snd _ _ H1).
  - apply (IH Hnd' H1 H2).
Qed.

(** A listed parameter is listed at a chain of children, under the qualified
    name of its slot. *)
Lemma named_parameters_chain (model : Layer) (n : string) (p : Param) :
  coherent model ->
  In (n, p) (named_parameters model) ->
  exists chain key,
    chain_from model chain
    /\ In (key, Some p) (_parameters (last (map snd chain) model))
    /\ n = parameter_name (map fst chain) key.
Proof.
  intros Hcoh Hin. unfold named_parameters in Hin.
  apply parameters_of_layers_sound in Hin.
  destruct Hin as (pfx & sl & key & Hl & Hk & E).
  apply (named_sublayers_chain model "" [] pfx sl Hcoh) in Hl.
  destruct Hl as (chain & Hch & -> & ->).
  exists chain, key. split; [exact Hch | split; [exact Hk | exact E]].
Qed.

(** X1. In a module tree that is well named and whose identities tell its
    layers apart, a parameter that [named_parameters] lists at a position (a
    path of sub-layer names, the layers met along it, and a key of the last
    layer's [_parameters]) is in the group with weight decay
    [cfg.TRAIN.wd] exactly when no layer along the path is an [nn.LayerNorm]
    and the listed name does not contain ["bias"]; it is in the group with
    weight decay [0.0] exactly when a layer along the path is an
    [nn.LayerNorm] or the name contains ["bias"]. *)
Theorem weight_decay_decided_by_position :
  forall (cfg : Config) (model : Layer),
    well_named model = true ->
    coherent model ->
    exists decay no_decay,
      optimizer_grouped_parameters model (TRAIN.wd (TRAIN cfg)) = [decay; no_decay]
      /\ forall path layers key p,
           descend model path = Some layers ->
           In (key, Some p) (_parameters (last layers model)) ->
           In (parameter_name path key, p) (named_parameters model) ->
           (In p (params decay) <->
              existsb (fun l => isinstance l [nn_LayerNorm]) layers = false
              /\ Py.str_contains "bias" (parameter_name path key) = false)
           /\ (In p (params no_decay) <->
                 existsb (fun l => isinstance l [nn_LayerNorm]) layers = true
                 \/ Py.str_contains "bias" (parameter_name path key) = true).
Proof.
  intros cfg model Hwf Hcoh. unfold optimizer_grouped_parameters.
  eexists. eexists. split; [reflexivity|]. cbn [params].
  intros path layers key p Hd Hkey Hin.
  set (n := parameter_name path key) in *.
  set (in_decay := fun np : string * Param =>
                     Py.list_contains (fst np) (decay_parameters model)).
  pose proof (named_parameters_NoDup model) as Hnd.
  (* membership in a group is decided by the name *)
  assert (Hdecay : In p (map snd (filter in_decay (named_parameters model)))
                   <-> In n (decay_parameters model)).
  { split.
    - intros Hp. apply in_map_iff in Hp. destruct Hp as [[n' p'] [E Hf]].
      cbn [snd] in E. subst p'. apply filter_In in Hf. destruct Hf as [Hin' Hc].
      rewrite (NoDup_snd_fst _ _ _ _ Hnd Hin Hin').
      apply list_contains_In. exact Hc.
    - intros Hn. apply (in_filter_snd in_decay _ _ _ Hin).
      apply list_contains_In. exact Hn. }
  assert (Hno : In p (map snd (filter (fun np => negb (in_decay np)) (named_parameters model)))
                <-> ~ In n (decay_parameters model)).
  { split.
    - intros Hp Hn. apply in_map_iff in Hp. destruct Hp as [[n' p'] [E Hf]].
      cbn [snd] in E. subst p'. apply filter_In in Hf. destruct Hf as [Hin' Hc].
      rewrite <- (NoDup_snd_fst _ _ _ _ Hnd Hin Hin') in Hc.
      apply negb_true_iff in Hc. unfold in_decay in Hc. cbn [fst] in Hc.
      apply list_contains_In in Hn. congruence.
    - intros Hn. apply (in_filter_snd (fun np => negb (in_decay np)) _ _ _ Hin).
      apply negb_true_iff. unfold in_decay. cbn [fst].
      destruct (Py.list_contains n (decay_parameters model)) eqn:E; [|reflexivity].
      contradiction Hn. apply list_contains_In. exact E. }
  (* the name is among the decay names exactly at a position not below a layer norm *)
  assert (Hname : In n (decay_parameters model)
                  <-> existsb (fun l => isinstance l [nn_LayerNorm]) layers = false
                      /\ Py.str_contains "bias" n = false).
  { unfold decay_parameters. rewrite filter_In, negb_true_iff. split.
    - intros [Hg Hb]. split; [|exact Hb].
      destruct (existsb (fun l => isinstance l [nn_LayerNorm]) layers) eqn:E; [|reflexivity].
      contradiction (below_forbidden_not_named _ _ _ _ key Hwf Hd E Hg).
    - intros [Hl Hb]. split; [|exact Hb].
      destruct (named_parameters_chain model n p Hcoh Hin) as (chain & key' & Hch & Hk' & En).
      pose proof (chain_descend chain model Hwf Hch) as Hd'.
      destruct (descend_dot_free _ _ _ Hwf Hd) as [Hdf Hkd].
      destruct (descend_dot_free _ _ _ Hwf Hd') as [Hdf' Hkd'].
      assert (Hkey1 : In key (map fst (_parameters (last layers model)))).
      { apply in_map_iff. exists (key, Some p). split; [reflexivity | exact Hkey]. }
      assert (Hkey2 : In key' (map fst (_parameters (last (map snd chain) model)))).
      { apply in_map_iff. exists (key', Some p). split; [reflexivity | exact Hk']. }
      destruct (parameter_name_inj path (map fst chain) key key'
                  (descend_truthy _ _ _ Hwf Hd) Hdf (descend_truthy _ _ _ Hwf Hd') Hdf'
                  (Hkd _ Hkey1) (Hkd' _ Hkey2) En) as [Epath Ekey].
      rewrite <- Epath in Hd'. rewrite Hd in Hd'. injection Hd' as Elayers.
      rewrite get_parameter_names_slots. unfold names_not_through_forbidden.
      apply in_map_iff. exists (chain, key'). split.
      + rewrite qualified_parameter_name; [symmetry; exact En|].
        apply (descend_truthy _ _ _ Hwf (chain_descend chain model Hwf Hch)).
      + apply filter_In. split; [apply (chain_slot chain key' model Hch Hkey2)|].
        rewrite through_forbidden_layers, <- Elayers, Hl. reflexivity. }
  split.
  - apply (iff_trans Hdecay Hname).
  - apply (iff_trans Hno). rewrite Hname.
    destruct (existsb (fun l => isinstance l [nn_LayerNorm]) layers);
      destruct (Py.str_contains "bias" n); split; intros H;
      try (right; reflexivity); try (left; reflexivity);
      try (intros [H1 H2]; discriminate);
      try (contradiction H; split; reflexivity).
    destruct H as [H|H]; discriminate H.
Qed.

Lemma coherent_demo : coherent Demo.model.
Proof.
  intros l1 l2 H1 H2 Heq. cbv in H1, H2.
  repeat match goal with H : _ \/ _ |- _ => destruct H as [H|H] end;
    try contradiction; subst; first [reflexivity | discriminate Heq].
Qed.

(** On [Demo.model]: the weight of the linear layer of the block decays, its
    bias and the weight of the layer norm of the block do not. *)
Lemma weight_decay_decided_by_position_witness :
  well_named Demo.model = true
  /\ coherent Demo.model
  /\ exists decay no_decay,
       optimizer_grouped_parameters Demo.model
         (TRAIN.wd (TRAIN (Demo.config true true false "train" 0))) = [decay; no_decay]
       /\ In 12 (params decay) /\ ~ In 12 (params no_decay)
       /\ In 13 (params no_decay) /\ In 10 (params no_decay).
Proof.
  split; [reflexivity|]. split; [exact coherent_demo|].
  destruct (weight_decay_decided_by_position (Demo.config true true false "train" 0)
              Demo.model eq_refl coherent_demo) as (decay & no_decay & E & H).
  exists decay, no_decay. split; [exact E|].
  destruct (H ["block"; "fc"] [Demo.block; Demo.fc] "weight" 12 eq_refl) as [H12 H12'];
    [find_in | find_in |].
  destruct (H ["block"; "fc"] [Demo.block; Demo.fc] "bias" 13 eq_refl) as [_ H13];
    [find_in | find_in |].
  destruct (H ["block"; "norm"] [Demo.block; Demo.norm] "weight" 10 eq_refl) as [_ H10];
    [find_in | find_in |].
  split; [apply H12; split; reflexivity|].
  split; [intros Hn; apply H12' in Hn; destruct Hn as [Hn|Hn]; discriminate Hn|].
  split; [apply H13; right; reflexivity | apply H10; left; reflexivity].
Defined.

(** The set of seen layers after a walk: what was in it, and the layers
    yielded. *)
Lemma named_sublayers_ids (model : Layer) :
  forall prefix layers_set i,
    In i (snd (named_sublayers prefix model layers_set)) <->
    In i layers_set
    \/ In i (map (fun pl => layer_id (snd pl)) (fst (named_sublayers prefix model layers_set))).
Proof.
  induction model as [id mro ps subs IH] using Layer_tree_ind.
  intros prefix layers_set i. rewrite named_sublayers_unfold.
  cbn [_sub_layers layer_id]. cbv zeta.
  set (here := if Py.id_in id layers_set then ([], layers_set)
               else ([(prefix, mkLayer id mro ps subs)], id :: layers_set)).
  assert (Hhere : In i (snd here) <->
                  In i layers_set \/ In i (map (fun pl => layer_id (snd pl)) (fst here))).
  { subst here. destruct (Py.id_in id layers_set); cbn; tauto. }
  assert (Hover : forall set0,
             In i (snd (sublayers_over prefix subs set0)) <->
             In i set0
             \/ In i (map (fun pl => layer_id (snd pl))
                          (fst (sublayers_over prefix subs set0)))).
  { clear Hhere here. induction subs as [|[key [child|]] rest IHr]; intros set0;
      cbn [sublayers_over].
    - cbn. tauto.
    - inversion IH as [|? ? Hc Hrest]; subst. cbn [snd] in Hc.
      specialize (Hc (join_prefix prefix key) set0 i).
      destruct (named_sublayers (join_prefix prefix key) child set0) as [out1 s1].
      specialize (IHr Hrest s1).
      destruct (sublayers_over prefix rest s1) as [out2 s2]. cbn [fst snd] in *.
      rewrite map_app, in_app_iff. tauto.
    - inversion IH as [|? ? Hc Hrest]; subst. apply (IHr Hrest). }
  specialize (Hover (snd here)).
  destruct (sublayers_over prefix subs (snd here)) as [out set']. cbn [fst snd] in *.
  rewrite map_app, in_app_iff. tauto.
Qed.

(** A layer at the end of a chain of children is a layer of the tree. *)
Lemma chain_in_tree (chain : list (string * Layer)) :
  forall model, chain_from model chain -> In (last (map snd chain) model) (all_layers model).
Proof.
  induction chain as [|[name child] rest IH]; intros model Hch.
  - apply all_layers_self.
  - cbn [chain_from] in Hch. destruct Hch as [Hnc Hrest].
    apply children_from_In in Hnc. cbn [fst snd] in Hnc.
    cbn [map snd]. rewrite last_cons_default, all_layers_unfold. right.
    apply (in_layers_over _ name child); [exact Hnc | apply (IH child Hrest)].
Qed.

(** With identities that tell layers apart, [named_sublayers] from the empty
    set yields every layer of the tree. *)
Lemma named_sublayers_complete (model : Layer) (layer : Layer) :
  coherent model -> In layer (all_layers model) ->
  exists layer_prefix, In (layer_prefix, layer) (fst (named_sublayers "" model [])).
Proof.
  intros Hcoh Hin.
  pose proof (proj2 (named_sublayers_set model "" []) layer Hin) as Hid.
  apply named_sublayers_ids in Hid. destruct Hid as [[]|Hid].
  apply in_map_iff in Hid. destruct Hid as [[pfx l] [Heq Hl]]. cbn [snd] in Heq.
  exists pfx. replace layer with l; [exact Hl|].
  apply Hcoh; [|exact Hin|exact Heq].
  destruct (named_sublayers_chain model "" [] pfx l Hcoh Hl) as (chain & Hch & -> & _).
  apply (chain_in_tree chain model Hch).
Qed.

Lemma parameters_from_covers (layer_prefix : string) (items : list (string * option Param)) :
  forall params_set key p,
    In (key, Some p) items -> In p (snd (parameters_from layer_prefix items params_set)).
Proof.
  induction items as [|[k [param|]] rest IH]; intros params_set key p Hin;
    cbn [parameters_from].
  - contradiction.
  - destruct Hin as [Heq|Hin].
    + injection Heq as -> ->.
      destruct (Py.id_in p params_set) eqn:Eseen.
      * apply (parameters_from_fresh layer_prefix rest params_set). left.
        apply id_in_In. exact Eseen.
      * pose proof (parameters_from_fresh layer_prefix rest (p :: params_set)) as Hf.
        destruct (parameters_from layer_prefix rest (p :: params_set)) as [out set'].
        cbn [fst snd] in *. apply Hf. left. left. reflexivity.
    + destruct (Py.id_in param params_set).
      * apply (IH _ _ _ Hin).
      * specialize (IH (param :: params_set) key p Hin).
        destruct (parameters_from layer_prefix rest (param :: params_set)) as [out set'].
        exact IH.
  - destruct Hin as [Heq|Hin]; [discriminate Heq|]. apply (IH _ _ _ Hin).
Qed.

Lemma parameters_of_layers_covers (layers : list (string * Layer)) :
  forall params_set layer_prefix sublayer key p,
    In (layer_prefix, sublayer) layers -> In (key, Some p) (_parameters sublayer) ->
    In p (snd (parameters_of_layers layers params_set)).
Proof.
  induction layers as [|[pfx l] rest IH]; intros params_set layer_prefix sublayer key p Hl Hk;
    [contradiction|].
  cbn [parameters_of_layers].
  pose proof (parameters_from_covers pfx (_parameters l) params_set) as H1.
  destruct (parameters_from pfx (_parameters l) params_set) as [out1 set1].
  pose proof (parameters_of_layers_fresh rest set1) as Hf.
  specialize (IH set1).
  destruct (parameters_of_layers rest set1) as [out2 set2]. cbn [fst snd] in *.
  destruct Hl as [Heq|Hl].
  - injection Heq as -> ->. apply Hf. left. apply (H1 key p Hk).
  - apply (IH layer_prefix sublayer key p Hl Hk).
Qed.

(** With identities that tell layers apart, [named_parameters] lists the
    parameter objects of the layers of the tree, and nothing else. *)
Lemma named_parameters_exact (model : Layer) (p : Param) :
  coherent model ->
  (In p (map snd (named_parameters model)) <->
   exists layer key, In layer (all_layers model) /\ In (key, Some p) (_parameters layer)).
Proof.
  intros Hcoh. split.
  - intros Hp. apply in_map_iff in Hp. destruct Hp as [[n p'] [Heq Hin]].
    cbn [snd] in Heq. subst p'.
    destruct (named_parameters_chain model n p Hcoh Hin) as (chain & key & Hch & Hk & _).
    exists (last (map snd chain) model), key. split; [apply (chain_in_tree chain model Hch)|].
    exact Hk.
  - intros (layer & key & Hl & Hk).
    destruct (named_sublayers_complete model layer Hcoh Hl) as [pfx Hy].
    unfold named_parameters.
    pose proof (parameters_of_layers_covers _ [] pfx layer key p Hy Hk) as Hs.
    apply (parameters_of_layers_fresh (fst (named_sublayers "" model [])) []) in Hs.
    destruct Hs as [[]|Hs]. exact Hs.
Qed.

(** X2. In a module tree whose identities tell its layers apart, every
    parameter object of every layer of the tree (an entry of [_parameters]
    that is not [None]) is in exactly one of the two optimizer groups of
    [train]; the groups hold nothing but such parameters, and no parameter
    object twice. *)
Theorem every_parameter_in_one_group :
  forall (cfg : Config) (model : Layer),
    coherent model ->
    exists decay no_decay,
      optimizer_grouped_parameters model (TRAIN.wd (TRAIN cfg)) = [decay; no_decay]
      /\ (forall layer key p,
            In layer (all_layers model) -> In (key, Some p) (_parameters layer) ->
            (In p (params decay) /\ ~ In p (params no_decay))
            \/ (In p (params no_decay) /\ ~ In p (params decay)))
      /\ (forall p, In p (params decay ++ params no_decay) ->
            exists layer key,
              In layer (all_layers model) /\ In (key, Some p) (_parameters layer))
      /\ NoDup (params decay ++ params no_decay).
Proof.
  intros cfg model Hcoh. unfold optimizer_grouped_parameters.
  eexists. eexists. split; [reflexivity|]. cbn [params].
  set (in_decay := fun np : string * Param =>
                     Py.list_contains (fst np) (decay_parameters model)).
  assert (Hperm : Permutation
            (map snd (filter in_decay (named_parameters model))
             ++ map snd (filter (fun np => negb (in_decay np)) (named_parameters model)))
            (map snd (named_parameters model))).
  { rewrite <- map_app. apply Permutation_map. apply filter_split. }
  assert (Hnd : NoDup
            (map snd (filter in_decay (named_parameters model))
             ++ map snd (filter (fun np => negb (in_decay np)) (named_parameters model)))).
  { eapply Permutation_NoDup; [apply Permutation_sym; exact Hperm|].
    apply named_parameters_NoDup. }
  split; [|split].
  - intros layer key p Hl Hk.
    assert (Hp : In p (map snd (named_parameters model))).
    { apply (named_parameters_exact model p Hcoh). exists layer, key. split; assumption. }
    apply (Permutation_in _ (Permutation_sym Hperm)) in Hp.
    apply in_app_or in Hp. destruct Hp as [Hp|Hp].
    + left. split; [exact Hp|]. apply (NoDup_app_disjoint _ _ _ Hnd Hp).
    + right. split; [exact Hp|]. intros Hp1. apply (NoDup_app_disjoint _ _ _ Hnd Hp1 Hp).
  - intros p Hp. apply (Permutation_in _ Hperm) in Hp.
    apply (named_parameters_exact model p Hcoh). exact Hp.
  - exact Hnd.
Qed.

(** On [Demo.model]: the weight of the linear layer, which the block and the
    head share, is in the group with weight decay and only there. *)
Lemma every_parameter_in_one_group_witness :
  coherent Demo.model
  /\ exists decay no_decay,
       optimizer_grouped_parameters Demo.model
         (TRAIN.wd (TRAIN (Demo.config true true false "train" 0))) = [decay; no_decay]
       /\ In 12 (params decay) /\ ~ In 12 (params no_decay)
       /\ NoDup (params decay ++ params no_decay).
Proof.
  split; [exact coherent_demo|].
  destruct (every_parameter_in_one_group (Demo.config true true false "train" 0)
              Demo.model coherent_demo) as (decay & no_decay & E & H & _ & Hnd).
  exists decay, no_decay. split; [exact E|].
  injection E as <- <-.
  destruct (H Demo.fc "weight" 12) as [[H1 H2]|[H1 H2]].
  - find_in.
  - find_in.
  - split; [exact H1 | split; [exact H2 | exact Hnd]].
  - exfalso. apply H2. find_in.
Defined.

Lemma isinstance_incl (l : Layer) (f f' : list string) :
  incl f f' -> isinstance l f = true -> isinstance l f' = true.
Proof.
  unfold isinstance. rewrite !existsb_exists. intros Hi [t [Ht Hc]].
  exists t. split; [apply Hi; exact Ht | exact Hc].
Qed.

(** X3. Forbidding more layer types only removes names: every name that
    [get_parameter_names] returns for a list of forbidden types is returned
    for every list of forbidden types that it includes. *)
Theorem get_parameter_names_antitone :
  forall (model : Layer) (forbidden forbidden' : list string),
    incl forbidden forbidden' ->
    incl (get_parameter_names model forbidden') (get_parameter_names model forbidden).
Proof.
  intros model f f' Hi n Hn.
  rewrite get_parameter_names_slots in *. unfold names_not_through_forbidden in *.
  apply in_map_iff in Hn. destruct Hn as [s [<- Hs]]. apply filter_In in Hs.
  destruct Hs as [Hs Hf]. apply in_map. apply filter_In. split; [exact Hs|].
  apply negb_true_iff. apply negb_true_iff in Hf.
  destruct (through_forbidden f s) eqn:E; [|reflexivity].
  unfold through_forbidden in *. apply existsb_exists in E. destruct E as [st [Hst Hc]].
  assert (existsb (fun step => isinstance (snd step) f') (fst s) = true); [|congruence].
  apply existsb_exists. exists st. split; [exact Hst|]. apply (isinstance_incl _ f f' Hi Hc).
Qed.

(** On [Demo.model], forbidding [nn.Linear] besides [nn.LayerNorm]. *)
Lemma get_parameter_names_antitone_witness :
  incl [nn_LayerNorm] [nn_LayerNorm; "paddle.nn.Linear"]
  /\ incl (get_parameter_names Demo.model [nn_LayerNorm; "paddle.nn.Linear"])
          (get_parameter_names Demo.model [nn_LayerNorm]).
Proof.
  assert (H : incl [nn_LayerNorm] [nn_LayerNorm; "paddle.nn.Linear"]).
  { intros x [<-|[]]. left. reflexivity. }
  split; [exact H|].
  apply (get_parameter_names_antitone Demo.model _ _ H).
Defined.

(* ===================================================================== *)
(** ** More about the values [train] computes *)
(* ===================================================================== *)

Lemma warmup_is_fifth_from_spec (fuel : nat) :
  forall z, warmup_is_fifth_from fuel z = true ->
  forall epochs : Z, (z <= epochs < z + Z.of_nat fuel)%Z ->
    warmup_epoch_of epochs = inr (Z.quot epochs 5)
    /\ warmup_epoch_of (- epochs) = inr (Z.quot (- epochs) 5).
Proof.
  assert (Hone : forall z, warmup_is_fifth z = true -> warmup_epoch_of z = inr (Z.quot z 5)).
  { intros z. unfold warmup_is_fifth. destruct (warmup_epoch_of z) as [e|m]; [discriminate|].
    intros H. apply Z.eqb_eq in H. rewrite H. reflexivity. }
  induction fuel as [|k IH]; intros z Hall epochs Hrange; [lia|].
  cbn [warmup_is_fifth_from] in Hall. rewrite !andb_true_iff in Hall.
  destruct Hall as [[Hp Hn] Hk].
  destruct (Z.eq_dec epochs z) as [->|Hne].
  - split; apply Hone; assumption.
  - apply (IH (z + 1)%Z Hk). lia.
Qed.

(** X4. For every [cfg.TRAIN.epochs] from [-10000] to [10000],
    [int(0.2 * epochs)], computed in binary64 arithmetic, raises nothing and is
    the quotient of [epochs] by [5] rounded toward zero. *)
Theorem warmup_epoch_is_fifth :
  forall epochs : Z, (-10000 <= epochs <= 10000)%Z ->
    warmup_epoch_of epochs = inr (Z.quot epochs 5).
Proof.
  intros epochs H.
  assert (Hall : warmup_is_fifth_from (Z.to_nat 10001) 0 = true).
  { vm_compute. reflexivity. }
  destruct (Z_le_gt_dec 0 epochs) as [Hpos|Hneg].
  - apply (warmup_is_fifth_from_spec _ _ Hall epochs). lia.
  - replace epochs with (- (- epochs))%Z by lia.
    apply (warmup_is_fifth_from_spec _ _ Hall (- epochs)%Z). lia.
Qed.

(** A hundred epochs: twenty epochs of warm-up. *)
Lemma warmup_epoch_is_fifth_witness :
  (-10000 <= 100 <= 10000)%Z /\ warmup_epoch_of 100 = inr 20%Z.
Proof.
  split; [lia|]. apply (warmup_epoch_is_fifth 100). lia.
Defined.

Lemma endswith_sep_append (a b : string) :
  Py.str_truthy b = true -> Py.endswith_sep (a ++ b) = Py.endswith_sep b.
Proof.
  intros Hb. induction a as [|c a IH]; [reflexivity|].
  cbn [String.append]. 
  assert (Hne : (a ++ b)%string <> EmptyString).
  { destruct a; cbn; [destruct b; [discriminate Hb | discriminate] | discriminate]. }
  change (Py.endswith_sep (String c (a ++ b)))
    with (match (a ++ b)%string with
          | EmptyString => Ascii.eqb c "/"%char
          | String _ _ => Py.endswith_sep (a ++ b)
          end).
  destruct (a ++ b)%string eqn:E; [contradiction Hne; reflexivity | exact IH].
Qed.

Lemma string_length_append (a b : string) :
  String.length (a ++ b) = String.length a + String.length b.
Proof. induction a as [|c a IH]; cbn; [reflexivity | rewrite IH; reflexivity]. Qed.

(** Joining a relative name that is not empty gives the path, a separator if
    the path needs one, and the name. *)
Lemma os_path_join_one (a b : string) :
  Py.startswith_sep b = false ->
  Py.os_path_join a [b] =
  (if negb (Py.str_truthy a) || Py.endswith_sep a then a ++ b else a ++ "/" ++ b)%string.
Proof.
  intros Hb. unfold Py.os_path_join. cbn [Py.os_path_join_from]. rewrite Hb.
  destruct (negb (Py.str_truthy a) || Py.endswith_sep a); reflexivity.
Qed.

(** X5. The checkpoint path that [train] hands to the main solver is the
    output directory of the RNC solver followed by
    ["/checkpoints/best_model.pdparams"]; the output directory of the RNC
    solver is [cfg.output_dir], a separator where [os.path.join] puts one, and
    ["rnc_pretrain"], and it is never the output directory of the main
    solver. *)
Theorem rnc_checkpoint_in_rnc_output_dir :
  forall (cfg : Config) model c o l i v m' c' o' l' i' v' p,
    let rnc_args := rnc_solver_args cfg model c o l i v in
    let main_args := main_solver_args cfg m' c' o' l' i' v' p in
    rnc_checkpoint cfg
    = (sa_output_dir rnc_args ++ "/checkpoints" ++ "/best_model.pdparams")%string
    /\ sa_output_dir rnc_args <> sa_output_dir main_args
    /\ (exists sep, (sep = "" \/ sep = "/")
                    /\ sa_output_dir rnc_args
                       = (output_dir cfg ++ sep ++ "rnc_pretrain")%string).
Proof.
  intros. subst rnc_args main_args. cbn [sa_output_dir rnc_solver_args main_solver_args].
  unfold rnc_checkpoint, Py.os_path_join.
  assert (E : Py.os_path_join_from (output_dir cfg) ["rnc_pretrain"; "checkpoints"]
              = (Py.os_path_join_from (output_dir cfg) ["rnc_pretrain"] ++ "/checkpoints")%string).
  { cbn [Py.os_path_join_from].
    change (Py.startswith_sep "rnc_pretrain") with false.
    change (Py.startswith_sep "checkpoints") with false. cbv iota.
    destruct (negb (Py.str_truthy (output_dir cfg)) || Py.endswith_sep (output_dir cfg)).
    - rewrite endswith_sep_append by reflexivity.
      change (Py.endswith_sep "rnc_pretrain") with false.
      destruct (output_dir cfg); reflexivity.
    - rewrite endswith_sep_append by reflexivity.
      change (Py.endswith_sep "/rnc_pretrain") with false.
      destruct (output_dir cfg); reflexivity. }
  split; [|split].
  - rewrite E. rewrite !string_append_assoc. reflexivity.
  - cbn [Py.os_path_join_from]. change (Py.startswith_sep "rnc_pretrain") with false. cbv iota.
    intros H. apply (f_equal String.length) in H.
    destruct (negb (Py.str_truthy (output_dir cfg)) || Py.endswith_sep (output_dir cfg));
      rewrite string_length_append in H; cbn in H; lia.
  - cbn [Py.os_path_join_from]. change (Py.startswith_sep "rnc_pretrain") with false. cbv iota.
    destruct (negb (Py.str_truthy (output_dir cfg)) || Py.endswith_sep (output_dir cfg)).
    + exists "". split; [left; reflexivity | reflexivity].
    + exists "/". split; [right; reflexivity | reflexivity].
Qed.

(** [int(str(z))] is [z]. *)
Lemma str_of_int_read (z : Z) :
  option_map Z.of_int (DecimalString.NilZero.int_of_string (Py.str_of_int z)) = Some z.
Proof.
  unfold Py.str_of_int. rewrite DecimalString.NilZero.isi.
  - cbn [option_map]. rewrite DecimalZ.of_to. reflexivity.
  - destruct z as [|p|p]; cbn [Z.to_int]; try discriminate.
    intros H. injection H as H. apply (DecimalPos.Unsigned.to_uint_nonnil p H).
  - destruct z as [|p|p]; cbn [Z.to_int]; try discriminate.
    intros H. injection H as H. apply (DecimalPos.Unsigned.to_uint_nonnil p H).
Qed.

Lemma str_of_int_inj (a b : Z) : Py.str_of_int a = Py.str_of_int b -> a = b.
Proof.
  intros H. pose proof (str_of_int_read a) as Ha. rewrite H, str_of_int_read in Ha.
  injection Ha as ->. reflexivity.
Qed.

(** X6. The device string of [main], [train] and [evaluate] tells the
    device numbers apart: two configurations give the same string exactly when
    they have the same [cfg.DEVICE]. *)
Theorem device_of_injective :
  forall cfg cfg' : Config,
    device_of cfg = device_of cfg' <-> DEVICE cfg = DEVICE cfg'.
Proof.
  intros cfg cfg'. unfold device_of. split.
  - destruct (Z.eqb_spec (DEVICE cfg) (-1)) as [E|E];
      destruct (Z.eqb_spec (DEVICE cfg') (-1)) as [E'|E']; cbn [negb]; intros H.
    + congruence.
    + discriminate H.
    + discriminate H.
    + injection H as H. apply str_of_int_inj. exact H.
  - intros ->. reflexivity.
Qed.

(* ===================================================================== *)
(** ** More about the runs of the driver *)
(* ===================================================================== *)

(** X7. In every run of [train(cfg)] that builds the RNC solver and the main
    solver, the two are different objects built on the same model, the same
    optimizer, the same schedule, the same number of epochs and the same
    [ITERS_PER_EPOCH], with different constraints; the optimizer is the
    [AdamW] built from the schedule and the parameter groups of that model, and
    the schedule is what the call of the [Cosine] object gave. *)
Theorem solvers_share_model_and_optimizer :
  forall (fw : Framework) (w : World) (cfg : Config),
    let o := exec fw (train cfg) w in
    let steps := solver_steps (log o) in
    forall r rargs s args,
      In (Built r rargs) steps -> is_rnc_solver_args cfg rargs ->
      In (Built s args) steps -> is_main_solver_args cfg args ->
      r <> s
      /\ sa_model rargs = sa_model args
      /\ sa_optimizer rargs = sa_optimizer args
      /\ sa_lr_scheduler rargs = sa_lr_scheduler args
      /\ sa_epochs rargs = sa_epochs args
      /\ sa_iters_per_epoch rargs = sa_iters_per_epoch args
      /\ sa_constraint rargs <> sa_constraint args
      /\ exists optimizer lr_scheduler cosine kwargs,
           sa_optimizer args = Some optimizer
           /\ sa_lr_scheduler args = Some lr_scheduler
           /\ built_by (log o) optimizer
              = Some (AdamW lr_scheduler
                        (optimizer_grouped_parameters (sa_model args) (TRAIN.wd (TRAIN cfg))))
           /\ built_by (log o) lr_scheduler = Some (Cosine_call cosine)
           /\ built_by (log o) cosine = Some (Cosine kwargs).
Proof.
  intros fw w cfg o steps. subst o steps. start. run_all fw.
  all: intros r rargs s args Hr Hra Hs Hsa;
    cbn [solver_steps solver_step action result returned] in Hr, Hs; in_cases.
  all: try (exfalso; eapply main_not_rnc; [eassumption | is_args]).
  all: try (exfalso; eapply main_not_rnc; [is_args | eassumption]).
  all: split; [discriminate|].
  all: cbn [sa_model sa_optimizer sa_lr_scheduler sa_epochs sa_iters_per_epoch sa_constraint
            rnc_solver_args main_solver_args].
  all: repeat (split; [reflexivity|]).
  all: split; [intros E; injection E as E1 E2; discriminate|].
  all: do 4 eexists; repeat (split; [reflexivity|]); reflexivity.
Qed.

(** A run of [train] with the pretraining stage against the demo framework:
    two solvers on one model and one optimizer. *)
Lemma solvers_share_model_and_optimizer_witness :
  exists r rargs s args,
    In (Built r rargs)
       (solver_steps (log (exec Demo.quiet (train (Demo.config true true false "train" 0))
                               Demo.world)))
    /\ In (Built s args)
          (solver_steps (log (exec Demo.quiet (train (Demo.config true true false "train" 0))
                                  Demo.world)))
    /\ r <> s
    /\ sa_model rargs = sa_model args
    /\ sa_optimizer rargs = sa_optimizer args
    /\ sa_constraint rargs <> sa_constraint args.
Proof.
  assert (E : exists r rargs s args rest,
             solver_steps (log (exec Demo.quiet (train (Demo.config true true false "train" 0))
                                     Demo.world))
             = Built r rargs :: Trained r true :: Evaluated r true :: Built s args :: rest
             /\ is_rnc_solver_args (Demo.config true true false "train" 0) rargs
             /\ is_main_solver_args (Demo.config true true false "train" 0) args).
  { do 5 eexists. split; [vm_compute; reflexivity|]. split.
    - do 6 eexists. vm_compute. reflexivity.
    - do 7 eexists. vm_compute. reflexivity. }
  destruct E as (r & rargs & s & args & rest & E & Hr & Hm).
  exists r, rargs, s, args.
  assert (Hir : In (Built r rargs)
                   (solver_steps (log (exec Demo.quiet
                      (train (Demo.config true true false "train" 0)) Demo.world)))).
  { rewrite E. left. reflexivity. }
  assert (His : In (Built s args)
                   (solver_steps (log (exec Demo.quiet
                      (train (Demo.config true true false "train" 0)) Demo.world)))).
  { rewrite E. do 3 right. left. reflexivity. }
  split; [exact Hir|]. split; [exact His|].
  destruct (solvers_share_model_and_optimizer Demo.quiet Demo.world
              (Demo.config true true false "train" 0) r rargs s args Hir Hr His Hm)
    as (H1 & H2 & H3 & _ & _ & _ & H4 & _).
  repeat split; assumption.
Defined.

Ltac flag_args :=
  unfold flag_fits_args; cbn [fst snd];
  split; intros Ha;
  first [ reflexivity
        | exfalso; eapply main_not_rnc; [eassumption | is_args]
        | exfalso; eapply main_not_rnc; [is_args | eassumption] ].

Ltac flag_entry :=
  unfold flag_fits; cbn [fst snd];
  first [ flag_args
        | eexists; split; [pick | flag_args] ].

(** X8. In every run of [train(cfg)], at every step that builds or calls the
    RNC solver the last assignment to [rnc_pretrain_flag] set the flag of the
    solver's model to [True], and at every step that builds or calls the main
    solver the last assignment set it to [False]. *)
Theorem rnc_pretrain_flag_at_solver_steps :
  forall (fw : Framework) (w : World) (cfg : Config),
    let o := exec fw (train cfg) w in
    Forall (flag_fits cfg (solver_steps (log o))) (steps_with_flag None (log o)).
Proof.
  intros fw w cfg o. subst o. start. run_all fw.
  all: cbn [steps_with_flag solver_steps solver_step action result returned String.eqb
            Ascii.eqb Bool.eqb].
  all: entries flag_entry.
Qed.

Example flag_example :
  map (fun fs => option_map snd (fst fs))
      (steps_with_flag None
         (log (exec Demo.quiet (train (Demo.config true true false "train" 0)) Demo.world)))
  = [Some (Py.VBool true); Some (Py.VBool true); Some (Py.VBool true);
     Some (Py.VBool false); Some (Py.VBool false); Some (Py.VBool false)].
Proof. vm_compute. reflexivity. Qed.

Ltac quiet_entry := cbn [after_model_kwargs builds_model builds_schedule builds_optimizer
                         is_solver_action action orb]; reflexivity.

(** X9. When [cfg.MODEL] has the key ["moe_config"] or ["rnc_config"], no run
    of [train(cfg)] or [evaluate(cfg)] completes, and no run builds the model,
    a schedule, an optimizer or a solver; if the framework raises nowhere, the
    run ends in [TypeError] after the ten steps ([train]) or six steps
    ([evaluate]) that come before the call of the model. *)
Theorem repeated_model_keyword_raises :
  forall (fw : Framework) (w : World) (cfg : Config),
    repeated_keyword (MODEL.items (MODEL cfg)) ["moe_config"; "rnc_config"] = true ->
    (let o := exec fw (train cfg) w in
     ~ completes o
     /\ Forall (fun e => after_model_kwargs e = false) (log o)
     /\ (Forall (fun e => returned e = true) (log o) ->
         value o = inl TypeError_repeated_keyword /\ length (log o) = 10))
    /\ (let o := exec fw (evaluate cfg) w in
        ~ completes o
        /\ Forall (fun e => after_model_kwargs e = false) (log o)
        /\ (Forall (fun e => returned e = true) (log o) ->
            value o = inl TypeError_repeated_keyword /\ length (log o) = 6)).
Proof.
  intros fw w cfg H. split; cbv zeta.
  - start. rewrite H. run_all fw.
    all: split; [intros [a Ha]; discriminate Ha|].
    all: split; [entries quiet_entry|].
    all: intros Hall; try (split; reflexivity).
    all: exfalso; repeat match goal with
           | Hf : Forall _ (_ :: _) |- _ => inversion Hf; subst; clear Hf
           end;
         repeat match goal with Hr : returned _ = true |- _ => try discriminate Hr; clear Hr end.
  - start. rewrite H. run_all fw.
    all: split; [intros [a Ha]; discriminate Ha|].
    all: split; [entries quiet_entry|].
    all: intros Hall; try (split; reflexivity).
    all: exfalso; repeat match goal with
           | Hf : Forall _ (_ :: _) |- _ => inversion Hf; subst; clear Hf
           end;
         repeat match goal with Hr : returned _ = true |- _ => try discriminate Hr; clear Hr end.
Qed.

(** A configuration whose [MODEL] node has the key ["moe_config"]: [train]
    and [evaluate] end in [TypeError]. *)
Lemma repeated_model_keyword_raises_witness :
  repeated_keyword (MODEL.items (MODEL (Demo2.config_with [("moe_config", Py.VNone)] [])))
    ["moe_config"; "rnc_config"] = true
  /\ value (exec Demo.quiet (train (Demo2.config_with [("moe_config", Py.VNone)] []))
                 Demo.world)
     = inl TypeError_repeated_keyword
  /\ value (exec Demo.quiet (evaluate (Demo2.config_with [("moe_config", Py.VNone)] []))
                 Demo.world)
     = inl TypeError_repeated_keyword.
Proof.
  split; [reflexivity|].
  destruct (repeated_model_keyword_raises Demo.quiet Demo.world
              (Demo2.config_with [("moe_config", Py.VNone)] []) eq_refl)
    as [[_ [_ Ht]] [_ [_ He]]].
  split.
  - apply Ht. apply Forall_forall. intros e He'. vm_compute in He'.
    repeat (destruct He' as [<-|He']; [reflexivity|]). destruct He'.
  - apply He. apply Forall_forall. intros e He'. vm_compute in He'.
    repeat (destruct He' as [<-|He']; [reflexivity|]). destruct He'.
Defined.

(** X10. When [cfg.TRAIN.lr_scheduler] has the key ["iters_per_epoch"],
    ["eta_min"] or ["warmup_epoch"], no run of [train(cfg)] completes, and no
    run builds a schedule, an optimizer or a solver. *)
Theorem repeated_schedule_keyword_raises :
  forall (fw : Framework) (w : World) (cfg : Config),
    repeated_keyword (LR.items (TRAIN.lr_scheduler (TRAIN cfg)))
      ["iters_per_epoch"; "eta_min"; "warmup_epoch"] = true ->
    let o := exec fw (train cfg) w in
    ~ completes o
    /\ Forall (fun e => (builds_schedule e || builds_optimizer e || is_solver_action e) = false)
              (log o).
Proof.
  intros fw w cfg H o. subst o. start. rewrite H. run_all fw.
  all: split; [intros [a Ha]; discriminate Ha|].
  all: entries ltac:(cbn [builds_schedule builds_optimizer is_solver_action action orb];
                     reflexivity).
Qed.

(** A configuration whose [TRAIN.lr_scheduler] node has the key
    ["eta_min"]: [train] does not complete. *)
Lemma repeated_schedule_keyword_raises_witness :
  repeated_keyword
    (LR.items (TRAIN.lr_scheduler
                 (TRAIN (Demo2.config_with [] [("eta_min", Py.VFloat Py.lit_0_0)]))))
    ["iters_per_epoch"; "eta_min"; "warmup_epoch"] = true
  /\ ~ completes (exec Demo.quiet
                    (train (Demo2.config_with [] [("eta_min", Py.VFloat Py.lit_0_0)]))
                    Demo.world).
Proof.
  split; [reflexivity|].
  apply (repeated_schedule_keyword_raises Demo.quiet Demo.world
           (Demo2.config_with [] [("eta_min", Py.VFloat Py.lit_0_0)]) eq_refl).
Defined.

Lemma returned_forallb (l : list Entry) :
  Forall (fun e => returned e = true) l <-> forallb returned l = true.
Proof. rewrite forallb_forall, Forall_forall. reflexivity. Qed.

Lemma last_step_is_last {A : Type} (o : Outcome A) (x : Exn) (d : Entry) :
  raised_by_last_step o x -> log o <> [] /\ result (last (log o) d) = Raised x.
Proof.
  intros (pre & e & Hlog & _ & Hres). rewrite Hlog. split.
  - destruct pre; discriminate.
  - rewrite last_last. exact Hres.
Qed.

Ltac all_returned := apply returned_forallb; reflexivity.

Ltac not_all_returned H :=
  apply returned_forallb in H; cbn [forallb returned result andb] in H; discriminate H.

Ltac last_raised :=
  lazymatch goal with
  | |- raised_by_last_step {| log := ?d :: ?l; final := _; value := _ |} _ =>
      exists (removelast (d :: l)), (last l d);
      cbn [removelast last log]; split; [reflexivity|]; split; [all_returned | reflexivity]
  end.

Ltac not_last_raised H :=
  lazymatch type of H with
  | raised_by_last_step {| log := ?d :: _; final := _; value := _ |} _ =>
      apply (last_step_is_last _ _ d) in H;
      cbn [log last result] in H; destruct H as [_ H];
      first [discriminate H | injection H as <-; reflexivity]
  end.

Ltac outcome_case :=
  split;
  [ split;
    [ intros [a Ha]; first [discriminate Ha | split; [all_returned | reflexivity]]
    | intros [Hall Herr];
      first [ eexists; reflexivity | discriminate Herr | not_all_returned Hall ] ]
  | intros x; split;
    [ intros Hx;
      first [ discriminate Hx
            | injection Hx as <-;
              first [ left; split; [all_returned | reflexivity] | right; last_raised ] ]
    | intros [[Hall Herr] | Hlast];
      [ first [ injection Herr as <-; reflexivity | discriminate Herr | not_all_returned Hall ]
      | not_last_raised Hlast ] ] ].

(** X11. A run of [main(cfg)] completes exactly when no step raised and the
    configuration gives the driver nothing to raise by itself
    ([main_error cfg] is [None]).  A run ends in the exception [x] exactly when
    either no step raised and [x] is the exception the configuration makes the
    driver raise, or the last step raised [x] and every step before it
    returned: the driver catches nothing. *)
Theorem main_outcome :
  forall (fw : Framework) (w : World) (cfg : Config),
    let o := exec fw (main cfg) w in
    (completes o <->
       Forall (fun e => returned e = true) (log o) /\ main_error cfg = None)
    /\ (forall x, value o = inl x <->
          (Forall (fun e => returned e = true) (log o) /\ main_error cfg = Some x)
          \/ raised_by_last_step o x).
Proof.
  intros fw w cfg o. subst o. unfold main_error, train_error, evaluate_error.
  start. run_all fw.
  all: cbn [log value].
  all: outcome_case.
Qed.

Lemma prefix_refl {A : Type} (l : list A) : exists rest, l = l ++ rest.
Proof. exists []. symmetry. apply app_nil_r. Qed.

Ltac prints_case :=
  cbn [printed action Datatypes.app];
  split;
  [ eexists; cbn [Datatypes.app]; reflexivity
  | intros [a Ha]; first [discriminate Ha | reflexivity] ].

(** X12. What a run of [train(cfg)] prints is a prefix of the lines of
    [train_prints cfg], and all of them when the run completes: the two lines
    around the pretraining stage when both RNC flags are set and
    [load_rnc_pretrain_params] is not, then the two lines about the pretrained
    parameters when both RNC flags are set, and nothing otherwise.  A run of
    [evaluate(cfg)] prints nothing. *)
Theorem train_prints_stages :
  forall (fw : Framework) (w : World) (cfg : Config),
    (let o := exec fw (train cfg) w in
     (exists rest, train_prints cfg = printed (log o) ++ rest)
     /\ (completes o -> printed (log o) = train_prints cfg))
    /\ printed (log (exec fw (evaluate cfg) w)) = [].
Proof.
  intros fw w cfg. split; cbv zeta.
  - unfold train_prints. start. run_all fw.
    all: prints_case.
  - start. run_all fw. all: reflexivity.
Qed.

Ltac device_case :=
  split;
  [ do 2 eexists; split; [reflexivity | reflexivity]
  | intros args [[s Hin]|Hin]; cbn [solver_steps solver_step action result returned] in Hin;
    in_cases; repeat split; reflexivity ].

(** X13. A run of [main(cfg)] starts with [paddle.device.set_device] on the
    device string of the configuration, and every solver the run builds, or
    tries to build, is given the same device string, [cfg.seed], and the two
    switches [cfg.EVAL.compute_metric_by_batch] and
    [cfg.EVAL.eval_with_no_grad]. *)
Theorem solvers_on_the_device_set :
  forall (fw : Framework) (w : World) (cfg : Config),
    let o := exec fw (main cfg) w in
    (exists first rest,
       log o = first :: rest /\ action first = Do (set_device (device_of cfg)))
    /\ (forall args,
          (exists s, In (Built s args) (solver_steps (log o)))
          \/ In (BuildFailed args) (solver_steps (log o)) ->
          sa_device args = device_of cfg
          /\ sa_seed args = seed cfg
          /\ sa_compute_metric_by_batch args = EVAL.compute_metric_by_batch (EVAL cfg)
          /\ sa_eval_with_no_grad args = EVAL.eval_with_no_grad (EVAL cfg)).
Proof.
  intros fw w cfg o. subst o. start. run_all fw.
  all: device_case.
Qed.

Ltac wired_case :=
  unfold wired; do 10 eexists;
  cbn [sa_constraint sa_validator sa_iters_per_epoch rnc_solver_args main_solver_args
       map summary action result];
  repeat (split; [first [reflexivity | pick]|]); first [reflexivity | pick].

(** X14. In every run of [train(cfg)], a solver built with the arguments of
    the RNC solver has as its constraint the one built with the name
    ["RNCSup"] and a [FunctionalLoss] of [rnc_pretrain_func], and as its
    validator the one built with the name ["RNCSup_Validator"], the same loss
    function and the metric [eval_rnc_pretrain_func]; a solver built with the
    arguments of the main solver has the constraint ["Sup"] with the loss
    [train_extformer_moe_func] and the validator ["Sup_Validator"] with the
    metric [eval_rmse_func].  The keys of the two dictionaries are the names
    that the objects report, and [iters_per_epoch] of both solvers is the
    length reported for the data loader of the constraint ["Sup"]. *)
Theorem solvers_wired_to_their_stage :
  forall (fw : Framework) (w : World) (cfg : Config),
    let o := exec fw (train cfg) w in
    forall args,
      (exists s, In (Built s args) (solver_steps (log o)))
      \/ In (BuildFailed args) (solver_steps (log o)) ->
      (is_rnc_solver_args cfg args ->
       wired cfg (log o) args "RNCSup" rnc_pretrain_func
             "RNCSup_Validator" (rnc_eval_dataloader_cfg cfg) "rnc_loss" eval_rnc_pretrain_func)
      /\ (is_main_solver_args cfg args ->
          wired cfg (log o) args "Sup" train_extformer_moe_func
                "Sup_Validator" (eval_dataloader_cfg cfg) "rmse" eval_rmse_func).
Proof.
  intros fw w cfg o. subst o. start. run_all fw.
  all: intros args [[s Hin]|Hin];
    cbn [solver_steps solver_step action result returned] in Hin; in_cases.
  all: split; intros Ha.
  all: try (exfalso; eapply main_not_rnc; [eassumption | is_args]).
  all: try (exfalso; eapply main_not_rnc; [is_args | eassumption]).
  all: wired_case.
Qed.

(** A run of [train] without the pretraining stage against the demo
    framework: the main solver and its constraint and validator. *)
Lemma solvers_wired_to_their_stage_witness :
  exists s args,
    In (Built s args)
       (solver_steps (log (exec Demo.quiet (train (Demo.config false false false "train" 0))
                               Demo.world)))
    /\ wired (Demo.config false false false "train" 0)
             (log (exec Demo.quiet (train (Demo.config false false false "train" 0))
                        Demo.world))
             args "Sup" train_extformer_moe_func
             "Sup_Validator" (eval_dataloader_cfg (Demo.config false false false "train" 0))
             "rmse" eval_rmse_func.
Proof.
  assert (E : exists s args rest,
             solver_steps (log (exec Demo.quiet
                                  (train (Demo.config false false false "train" 0))
                                  Demo.world))
             = Built s args :: rest
             /\ is_main_solver_args (Demo.config false false false "train" 0) args).
  { do 3 eexists. split; [vm_compute; reflexivity|].
    do 7 eexists. vm_compute. reflexivity. }
  destruct E as (s & args & rest & E & Hm).
  assert (Hin : In (Built s args)
                   (solver_steps (log (exec Demo.quiet
                      (train (Demo.config false false false "train" 0)) Demo.world)))).
  { rewrite E. left. reflexivity. }
  exists s, args. split; [exact Hin|].
  apply (solvers_wired_to_their_stage Demo.quiet Demo.world
           (Demo.config false false false "train" 0) args); [|exact Hm].
  left. exists s. exact Hin.
Defined.
